(** * boltcrxq: the profile collection store and the session/account store

    A shallow embedding of [src/stores/profilesStore.ts] and of the
    authentication store (zustand stores written in TypeScript), with the
    properties the specification states about them.

    The stores run on a JavaScript platform: values are dynamically typed,
    [localStorage] holds strings, [JSON.parse] may throw, the clock and
    [Math.random] are read from the environment.  These are modelled
    explicitly: JavaScript values as the inductive [jsval], effects in a
    state-and-exception monad over a world that holds the store, the
    browser storage and the log of storage calls.

    The first part holds the definitions: the values, the monad, the two
    stores as the source has them, a reference JSON codec and reference
    environments to run the stores on, and the worlds the actions leave.
    The second part holds the properties, claim by claim (C1 to C10), each
    with the run of the code it rests on. *)

From Stdlib Require Import ZArith NArith Lia Ascii String.
From stdpp Require Import base option list strings gmap.

Open Scope string_scope.

(** ** JavaScript values *)

Module JS.

(** Numbers only matter to the stores through their truthiness, so a
    number is represented by an integer.  An object is a finite map from
    property names to values. *)
#[warnings="-register-all"]
Inductive jsval : Type :=
| VUndef
| VNull
| VBool (b : bool)
| VNum (n : Z)
| VStr (s : string)
| VArr (xs : list jsval)
| VObj (o : gmap string jsval).

(** [!v] is [negb (truthy v)]. *)
Definition truthy (v : jsval) : bool :=
  match v with
  | VUndef | VNull => false
  | VBool b => b
  | VNum n => negb (n =? 0)%Z
  | VStr s => negb (bool_decide (s = ""))
  | VArr _ | VObj _ => true
  end.

Definition nullish (v : jsval) : bool :=
  match v with
  | VUndef | VNull => true
  | _ => false
  end.

(** [a ?? b] *)
Definition coalesce (a b : jsval) : jsval := if nullish a then b else a.

(** [a || b] *)
Definition js_or (a b : jsval) : jsval := if truthy a then a else b.

(** [v === s] for a string [s]: only a string value with the same
    characters is strictly equal to it. *)
Definition strict_eq_str (v : jsval) (s : string) : bool :=
  match v with
  | VStr t => bool_decide (t = s)
  | _ => false
  end.

(** [Array.isArray(v)] *)
Definition isArray (v : jsval) : bool :=
  match v with
  | VArr _ => true
  | _ => false
  end.

(** A value of TypeScript type [string | null]. *)
Definition of_nullable (o : option string) : jsval :=
  match o with
  | Some s => VStr s
  | None => VNull
  end.

(** [v.k] for a value that is neither [null] nor [undefined], and for the
    property names the stores read ([id], [profiles], [currentProfileId]
    and the columns of an account row): an object yields its own property
    or [undefined]; primitives and arrays have no such property. *)
Definition lookup_prop (v : jsval) (k : string) : jsval :=
  match v with
  | VObj o => default VUndef (o !! k)
  | _ => VUndef
  end.

(** [v?.k] *)
Definition opt_prop (v : jsval) (k : string) : jsval :=
  if nullish v then VUndef else lookup_prop v k.

(** The own enumerable properties an object spread [{...v}] copies.  The
    stores spread only values that carry an [id] property, i.e. objects. *)
Definition own_props (v : jsval) : gmap string jsval :=
  match v with
  | VObj o => o
  | _ => ∅
  end.

(** [xs[0]], [undefined] on an empty array. *)
Definition first_elem (xs : list jsval) : jsval := default VUndef (head xs).

End JS.
Export JS.

(** ** Effects: state and exceptions *)

Module Eff.

Inductive Exn : Type :=
| TypeError
| SyntaxError
| QuotaExceededError
| ProviderError (msg : string).

Inductive Res (A : Type) : Type :=
| Ok (a : A)
| Throw (e : Exn).
Arguments Ok {A} a.
Arguments Throw {A} e.

(** A computation over a world [W]: it returns or throws, and in both
    cases leaves a world behind. *)
Definition M (W A : Type) : Type := W -> Res A * W.

Definition ret {W A} (a : A) : M W A := fun w => (Ok a, w).

Definition bind {W A B} (m : M W A) (k : A -> M W B) : M W B :=
  fun w =>
    match m w with
    | (Ok a, w') => k a w'
    | (Throw e, w') => (Throw e, w')
    end.

Definition throw {W A} (e : Exn) : M W A := fun w => (Throw e, w).

(** [try { m } catch { h }]: the effects of [m] up to the throw stay. *)
Definition try_catch {W A} (m : M W A) (h : Exn -> M W A) : M W A :=
  fun w =>
    match m w with
    | (Ok a, w') => (Ok a, w')
    | (Throw e, w') => h e w'
    end.

Definition gets {W A} (f : W -> A) : M W A := fun w => (Ok (f w), w).

Definition modify {W} (f : W -> W) : M W unit := fun w => (Ok tt, f w).

Declare Scope eff_scope.
Delimit Scope eff_scope with eff.
Notation "x <- m ;; k" := (bind m (fun x => k))
  (at level 100, m at next level, right associativity) : eff_scope.
Notation "m ;;; k" := (bind m (fun _ => k))
  (at level 100, right associativity) : eff_scope.

Open Scope eff_scope.

(** [xs.map(f)] and [xs.filter(f)] with an effectful callback, called on
    the elements in index order. *)
Fixpoint mapM {W A B} (f : A -> M W B) (xs : list A) : M W (list B) :=
  match xs with
  | [] => ret []
  | x :: xs' => y <- f x ;; ys <- mapM f xs' ;; ret (y :: ys)
  end.

Fixpoint filterM {W A} (f : A -> M W bool) (xs : list A) : M W (list A) :=
  match xs with
  | [] => ret []
  | x :: xs' =>
      b <- f x ;; ys <- filterM f xs' ;; ret (if b then x :: ys else ys)
  end.

(** [v.k]: reading a property of [null] or [undefined] throws. *)
Definition prop {W} (v : jsval) (k : string) : M W jsval :=
  if nullish v then throw TypeError else ret (lookup_prop v k).

Definition result {W A} (m : M W A) (w : W) : Res A := fst (m w).
Definition after {W A} (m : M W A) (w : W) : W := snd (m w).

End Eff.
Export Eff.

(** ** Platform functions used by the profile store *)

Module Platform.

Definition digit_of (alphabet : string) (d : N) : ascii :=
  default "0"%char (String.get (N.to_nat d) alphabet).

Fixpoint radix_digits (fuel : nat) (base : N) (alphabet : string)
    (n : N) (acc : string) : string :=
  match fuel with
  | O => acc
  | S fuel' =>
      let acc' := String (digit_of alphabet (n mod base)) acc in
      if (n / base =? 0)%N then acc'
      else radix_digits fuel' base alphabet (n / base) acc'
  end.

(** [n.toString(36)] for a non-negative integer [n]. *)
Definition toString36 (n : N) : string :=
  radix_digits (S (N.to_nat (N.log2 n))) 36
    "0123456789abcdefghijklmnopqrstuvwxyz" n "".

(** [n] in decimal, left-padded with zeros to [width] digits. *)
Fixpoint pad_dec (width : nat) (n : N) (acc : string) : string :=
  match width with
  | O => acc
  | S w => pad_dec w (n / 10) (String (digit_of "0123456789" (n mod 10)) acc)
  end.

(** [new Date(ms).toISOString()] for an instant [ms] milliseconds after the
    epoch, in years 1970 to 9999: [YYYY-MM-DDTHH:mm:ss.sssZ]. *)
Definition toISOString (ms : N) : string :=
  let days := (ms / 86400000)%N in
  let rest := (ms mod 86400000)%N in
  let z := (days + 719468)%N in
  let era := (z / 146097)%N in
  let doe := (z mod 146097)%N in
  let yoe := ((doe - doe / 1460 + doe / 36524 - doe / 146096) / 365)%N in
  let doy := (doe - (365 * yoe + yoe / 4 - yoe / 100))%N in
  let mp := ((5 * doy + 2) / 153)%N in
  let d := (doy - (153 * mp + 2) / 5 + 1)%N in
  let m := (if (mp <? 10)%N then mp + 3 else mp - 9)%N in
  let y := (yoe + era * 400 + (if (m <=? 2)%N then 1 else 0))%N in
  pad_dec 4 y "" +:+ "-" +:+ pad_dec 2 m "" +:+ "-" +:+ pad_dec 2 d "" +:+ "T"
  +:+ pad_dec 2 (rest / 3600000) "" +:+ ":"
  +:+ pad_dec 2 (rest mod 3600000 / 60000) "" +:+ ":"
  +:+ pad_dec 2 (rest mod 60000 / 1000) "" +:+ "."
  +:+ pad_dec 3 (rest mod 1000) "" +:+ "Z".

(** [s.slice(from, to)] for [0 <= from <= to]. *)
Definition slice (from to : nat) (s : string) : string :=
  substring from (to - from) s.

End Platform.
Export Platform.

(** ** The profile collection store ([src/stores/profilesStore.ts]) *)

Module Profiles.

(** What the store takes from its environment. *)
Record Env : Type := {
  (** [JSON.parse]; [None] when it throws a [SyntaxError] *)
  JSON_parse : string -> option jsval;
  JSON_stringify : jsval -> string;
  (** the instant, in milliseconds since the epoch, the system clock
      reports at its k-th reading *)
  clock : nat -> N;
  (** [Math.random().toString(36)] at the k-th draw *)
  random36 : nat -> string;
  (** whether [localStorage.setItem(k, v)] is accepted by a storage that
      holds the given items; otherwise it throws (quota) *)
  quota_ok : gmap string string -> string -> string -> bool;
}.

(** [ProfilesState] without its actions. *)
Record ProfilesState : Type := {
  profiles : list jsval;
  currentProfileId : jsval;
  loadedForUserId : option string;
}.

Inductive StorageCall : Type :=
| GetItem (key : string)
| SetItem (key value : string).

Record World : Type := {
  store : ProfilesState;
  localStorage : gmap string string;
  (** the storage calls made so far, oldest first *)
  calls : list StorageCall;
  (** how many times the clock has been read *)
  ticks : nat;
  (** how many random numbers have been drawn *)
  draws : nat;
}.

Definition with_store (f : ProfilesState -> ProfilesState) (w : World) : World :=
  {| store := f (store w); localStorage := localStorage w; calls := calls w;
     ticks := ticks w; draws := draws w |}.

(** The object literal of a [PersistedProfiles] payload. *)
Definition PersistedProfiles (ps : list jsval) (current : jsval)
    (updatedAt : string) : jsval :=
  VObj (<["profiles" := VArr ps]>
       (<["currentProfileId" := current]>
       (<["updatedAt" := VStr updatedAt]> ∅))).

(** The elements of a value known to be an array. *)
Definition elements_of (v : jsval) : list jsval :=
  match v with
  | VArr xs => xs
  | _ => []
  end.

Definition storageKey (userId : string) : string := "profiles:" +:+ userId.

Section Store.

Variable E : Env.

(** *** Effects of the platform *)

Definition Date_now : M World N :=
  fun w =>
    (Ok (clock E (ticks w)),
     {| store := store w; localStorage := localStorage w; calls := calls w;
        ticks := S (ticks w); draws := draws w |}).

(** [new Date().toISOString()] *)
Definition new_Date_toISOString : M World string :=
  t <- Date_now ;; ret (toISOString t).

(** [Math.random().toString(36)] *)
Definition Math_random_toString36 : M World string :=
  fun w =>
    (Ok (random36 E (draws w)),
     {| store := store w; localStorage := localStorage w; calls := calls w;
        ticks := ticks w; draws := S (draws w) |}).

(** [localStorage.getItem(key)]; [None] is [null]. *)
Definition getItem (key : string) : M World (option string) :=
  fun w =>
    (Ok (localStorage w !! key),
     {| store := store w; localStorage := localStorage w;
        calls := calls w ++ [GetItem key];
        ticks := ticks w; draws := draws w |}).

(** [localStorage.setItem(key, value)] *)
Definition setItem (key value : string) : M World unit :=
  fun w =>
    if quota_ok E (localStorage w) key value then
      (Ok tt,
       {| store := store w; localStorage := <[key := value]> (localStorage w);
          calls := calls w ++ [SetItem key value];
          ticks := ticks w; draws := draws w |})
    else
      (Throw QuotaExceededError,
       {| store := store w; localStorage := localStorage w;
          calls := calls w ++ [SetItem key value];
          ticks := ticks w; draws := draws w |}).

Definition parse (raw : string) : M World jsval :=
  match JSON_parse E raw with
  | Some v => ret v
  | None => throw SyntaxError
  end.

(** zustand's [get()] and [set(partial)] *)
Definition get : M World ProfilesState := gets store.

Definition set (f : ProfilesState -> ProfilesState) : M World unit :=
  modify (with_store f).

(** *** The persistence adapter *)

Definition loadFromStorage (userId : string) : M World (option jsval) :=
  try_catch
    (raw <- getItem (storageKey userId) ;;
     match raw with
     | None => ret None
     | Some raw =>
         if bool_decide (raw = "") then ret None
         else
           parsed <- parse raw ;;
           if negb (truthy parsed) then ret None
           else
             ps <- prop parsed "profiles" ;;
             if negb (isArray ps) then ret None else ret (Some parsed)
     end)
    (fun _ => ret None).

Definition saveToStorage (userId : string) (payload : jsval) : M World unit :=
  try_catch
    (setItem (storageKey userId) (JSON_stringify E payload))
    (fun _ => ret tt).

Definition uid : M World string :=
  t <- Date_now ;;
  r <- Math_random_toString36 ;;
  ret (toString36 t +:+ "-" +:+ slice 2 8 r).

(** *** The store's actions *)

Definition ensureLoaded (userId : string) : M World unit :=
  state <- get ;;
  if bool_decide (loadedForUserId state = Some userId) then ret tt
  else
    persisted <- loadFromStorage userId ;;
    match persisted with
    | Some p =>
        set (fun _ =>
          {| profiles := elements_of (lookup_prop p "profiles");
             currentProfileId := lookup_prop p "currentProfileId";
             loadedForUserId := Some userId |})
    | None =>
        set (fun _ =>
          {| profiles := [];
             currentProfileId := VNull;
             loadedForUserId := Some userId |}) ;;;
        now <- new_Date_toISOString ;;
        saveToStorage userId (PersistedProfiles [] VNull now)
    end.

Definition setCurrentProfile (profileId : option string) : M World unit :=
  st <- get ;;
  set (fun s =>
    {| profiles := profiles s;
       currentProfileId := of_nullable profileId;
       loadedForUserId := loadedForUserId s |}) ;;;
  match loadedForUserId st with
  | Some u =>
      if bool_decide (u = "") then ret tt
      else
        now <- new_Date_toISOString ;;
        saveToStorage u (PersistedProfiles (profiles st) (of_nullable profileId) now)
  | None => ret tt
  end.

(** [data] is the object the caller passes; the profile is
    [{ id: uid(), ...data, createdAt: ..., updatedAt: ... }]. *)
Definition addProfile (userId : string) (data : gmap string jsval)
    : M World jsval :=
  id <- uid ;;
  created <- new_Date_toISOString ;;
  updated <- new_Date_toISOString ;;
  let profile :=
    VObj (<["updatedAt" := VStr updated]>
         (<["createdAt" := VStr created]>
         (data ∪ {["id" := VStr id]}))) in
  st <- get ;;
  let next := (profiles st ++ [profile])%list in
  let current := coalesce (currentProfileId st) (lookup_prop profile "id") in
  set (fun _ =>
    {| profiles := next;
       currentProfileId := current;
       loadedForUserId := Some userId |}) ;;;
  now <- new_Date_toISOString ;;
  saveToStorage userId (PersistedProfiles next current now) ;;;
  ret profile.

(** The callback of [profiles.map] in [updateProfile]. *)
Definition updateOne (id : string) (changes : gmap string jsval) (p : jsval)
    : M World jsval :=
  pid <- prop p "id" ;;
  if strict_eq_str pid id then
    now <- new_Date_toISOString ;;
    ret (VObj (<["updatedAt" := VStr now]> (changes ∪ own_props p)))
  else ret p.

Definition updateProfile (userId id : string) (changes : gmap string jsval)
    : M World unit :=
  st <- get ;;
  next <- mapM (updateOne id changes) (profiles st) ;;
  set (fun s =>
    {| profiles := next;
       currentProfileId := currentProfileId s;
       loadedForUserId := loadedForUserId s |}) ;;;
  now <- new_Date_toISOString ;;
  saveToStorage userId (PersistedProfiles next (currentProfileId st) now).

(** The callback of [profiles.filter] in [removeProfile]: [p.id !== id]. *)
Definition keepOne (id : string) (p : jsval) : M World bool :=
  pid <- prop p "id" ;; ret (negb (strict_eq_str pid id)).

Definition removeProfile (userId id : string) : M World unit :=
  st <- get ;;
  next <- filterM (keepOne id) (profiles st) ;;
  let nextCurrent :=
    if strict_eq_str (currentProfileId st) id
    then coalesce (opt_prop (first_elem next) "id") VNull
    else currentProfileId st in
  set (fun s =>
    {| profiles := next;
       currentProfileId := nextCurrent;
       loadedForUserId := loadedForUserId s |}) ;;;
  now <- new_Date_toISOString ;;
  saveToStorage userId (PersistedProfiles next nextCurrent now).

Definition reset : M World unit :=
  set (fun _ =>
    {| profiles := []; currentProfileId := VNull; loadedForUserId := None |}).

End Store.

(** The store as [create] builds it. *)
Definition initialState : ProfilesState :=
  {| profiles := []; currentProfileId := VNull; loadedForUserId := None |}.

End Profiles.

(** ** The session/account store (the authentication store) *)

Module Auth.

(** The parts of supabase's [User] and [Session] the store reads. *)
Record User : Type := {
  user_id : string;
  user_email : option string;
}.

Record Session : Type := {
  access_token : string;
  session_user : User;
}.

(** [Account], as [mapRowToAccount] fills it from a row of any shape. *)
Record Account : Type := {
  id : jsval;
  email : jsval;
  pharmacyName : jsval;
  pharmacyPhone : jsval;
  subscriptionStatus : jsval;
  createdAt : jsval;
  updatedAt : jsval;
  address1 : jsval;
  city : jsval;
  state : jsval;
  zipcode : jsval;
}.

(** [AuthState] without its actions. *)
Record AuthState : Type := {
  session : option Session;
  user : option User;
  account : option Account;
  isAuthenticated : bool;
}.

(** What an awaited call to the provider does: it resolves to a value or
    the promise is rejected. *)
Inductive Outcome (A : Type) : Type :=
| Resolved (a : A)
| Rejected (e : Exn).
Arguments Resolved {A} a.
Arguments Rejected {A} e.

(** [{ data, error }] of a filtered read. *)
Record QueryResponse : Type := {
  q_data : option (list jsval);
  q_error : option string;
}.

(** [{ data: { user, session }, error }] of [signInWithPassword]. *)
Record SignInResponse : Type := {
  r_user : option User;
  r_session : option Session;
  r_error : option string;
}.

Inductive ProviderCall : Type :=
| CallGetSession
| CallSignIn (email password : string)
| CallSignOut
| CallSelect (column value : string).

(** The external provider: its answer to a call may depend on all the
    calls made before. *)
Record Provider : Type := {
  getSession : list ProviderCall -> Outcome (option Session);
  signInWithPassword :
    list ProviderCall -> string -> string -> Outcome SignInResponse;
  (** the [error] of the resolved [{ error }] *)
  signOut : list ProviderCall -> Outcome (option string);
  (** [from('accounts').select('*').eq(column, value).limit(1)] *)
  select_eq : list ProviderCall -> string -> string -> Outcome QueryResponse;
}.

Record World : Type := {
  auth : AuthState;
  (** the provider calls made so far, oldest first *)
  history : list ProviderCall;
}.

Definition cleared : AuthState :=
  {| session := None; user := None; account := None; isAuthenticated := false |}.

Definition mapRowToAccount (row : jsval) : Account :=
  {| id := lookup_prop row "id";
     email := lookup_prop row "email";
     pharmacyName := lookup_prop row "pharmacy_name";
     pharmacyPhone := coalesce (lookup_prop row "pharmacy_phone") VNull;
     subscriptionStatus :=
       js_or (lookup_prop row "subscription_status") (VStr "inactive");
     createdAt := lookup_prop row "created_at";
     updatedAt := coalesce (lookup_prop row "updated_at") VNull;
     address1 := coalesce (lookup_prop row "address1") VNull;
     city := coalesce (lookup_prop row "city") VNull;
     state := coalesce (lookup_prop row "state") VNull;
     zipcode := coalesce (lookup_prop row "zipcode") VNull |}.

Section Store.

Variable P : Provider.

(** [await] of a provider call: the call is recorded, then the promise
    resolves or its rejection is thrown. *)
Definition await {A} (c : ProviderCall)
    (answer : list ProviderCall -> Outcome A) : M World A :=
  fun w =>
    let w' := {| auth := auth w; history := (history w ++ [c])%list |} in
    match answer (history w) with
    | Resolved a => (Ok a, w')
    | Rejected e => (Throw e, w')
    end.

Definition select (column value : string) : M World QueryResponse :=
  await (CallSelect column value) (fun h => select_eq P h column value).

Definition set (s : AuthState) : M World unit :=
  modify (fun w => {| auth := s; history := history w |}).

(** [!err && data && data.length > 0] *)
Definition hit (r : QueryResponse) : bool :=
  match q_error r, q_data r with
  | None, Some (_ :: _) => true
  | _, _ => false
  end.

(** [data[0]] *)
Definition first_row (r : QueryResponse) : jsval :=
  first_elem (default [] (q_data r)).

(** [user] is the argument as it arrives at run time; reading [user.id]
    of [null] throws inside the [try]. *)
Definition findAccountRow (user : option User) : M World jsval :=
  try_catch
    (match user with
     | None => throw TypeError
     | Some u =>
         byId <- select "id" (user_id u) ;;
         if hit byId then ret (first_row byId)
         else
           byUserId <- select "user_id" (user_id u) ;;
           if hit byUserId then ret (first_row byUserId)
           else
             match user_email u with
             | Some e =>
                 if bool_decide (e = "") then ret VNull
                 else
                   byEmail <- select "email" e ;;
                   if hit byEmail then ret (first_row byEmail) else ret VNull
             | None => ret VNull
             end
     end)
    (fun _ => ret VNull).

(** [accountRow ? mapRowToAccount(accountRow) : null] *)
Definition enrich (accountRow : jsval) : option Account :=
  if truthy accountRow then Some (mapRowToAccount accountRow) else None.

Definition checkSession : M World unit :=
  s <- await CallGetSession (getSession P) ;;
  match s with
  | None => set cleared
  | Some s =>
      accountRow <- findAccountRow (Some (session_user s)) ;;
      set {| session := Some s;
             user := Some (session_user s);
             account := enrich accountRow;
             isAuthenticated := true |}
  end.

Definition login (email password : string) : M World bool :=
  r <- await (CallSignIn email password)
         (fun h => signInWithPassword P h email password) ;;
  match r_error r with
  | Some msg => throw (ProviderError msg)
  | None =>
      match r_session r with
      | None => set cleared ;;; ret false
      | Some s =>
          accountRow <- findAccountRow (r_user r) ;;
          set {| session := Some s;
                 user := r_user r;
                 account := enrich accountRow;
                 isAuthenticated := true |} ;;;
          ret true
      end
  end.

Definition logout : M World unit :=
  await CallSignOut (signOut P) ;;;
  set cleared.

End Store.

End Auth.

(** ** A reference JSON codec

    The store takes [JSON.parse] and [JSON.stringify] from its environment.
    This codec is an instance to run the store on: JSON restricted to
    integer numbers, over strings of bytes. *)

Module RefJSON.

Definition dquote : ascii := ascii_of_nat 34.
Definition backslash : ascii := ascii_of_nat 92.

Definition hex_digit (d : N) : ascii := digit_of "0123456789abcdef" d.

Definition escape_char (c : ascii) : string :=
  let n := N_of_ascii c in
  if (n =? 34)%N then String backslash (String dquote EmptyString)
  else if (n =? 92)%N then String backslash (String backslash EmptyString)
  else if (n =? 8)%N then String backslash "b"
  else if (n =? 9)%N then String backslash "t"
  else if (n =? 10)%N then String backslash "n"
  else if (n =? 12)%N then String backslash "f"
  else if (n =? 13)%N then String backslash "r"
  else if (n <? 32)%N then
    String backslash
      ("u00" +:+ String (hex_digit (n / 16)) (String (hex_digit (n mod 16)) EmptyString))
  else String c EmptyString.

Fixpoint escape (s : string) : string :=
  match s with
  | EmptyString => EmptyString
  | String c s' => escape_char c +:+ escape s'
  end.

Definition quote (s : string) : string :=
  String dquote (escape s +:+ String dquote EmptyString).

Definition dec (z : Z) : string :=
  let n := Z.abs_N z in
  let digits := radix_digits (S (N.to_nat (N.log2 n))) 10 "0123456789" n "" in
  if (z <? 0)%Z then "-" +:+ digits else digits.

Fixpoint join (sep : string) (parts : list string) : string :=
  match parts with
  | [] => EmptyString
  | [p] => p
  | p :: rest => p +:+ sep +:+ join sep rest
  end.

(** A property whose value is [undefined] is left out of an object; an
    [undefined] element of an array is written as [null]. *)
Fixpoint stringify (v : jsval) : string :=
  match v with
  | VUndef | VNull => "null"
  | VBool true => "true"
  | VBool false => "false"
  | VNum n => dec n
  | VStr s => quote s
  | VArr xs => "[" +:+ join "," (map stringify xs) +:+ "]"
  | VObj o =>
      "{" +:+
      join ","
        (map_fold
           (fun k x acc =>
              match x with
              | VUndef => acc
              | _ => (quote k +:+ ":" +:+ stringify x) :: acc
              end)
           [] o)
      +:+ "}"
  end.

Definition is_ws (c : ascii) : bool :=
  let n := N_of_ascii c in
  ((n =? 32) || (n =? 9) || (n =? 10) || (n =? 13))%N.

Fixpoint skip_ws (s : string) : string :=
  match s with
  | String c s' => if is_ws c then skip_ws s' else s
  | EmptyString => EmptyString
  end.

Definition hex_value (c : ascii) : option N :=
  let n := N_of_ascii c in
  if ((48 <=? n) && (n <=? 57))%N then Some (n - 48)%N
  else if ((97 <=? n) && (n <=? 102))%N then Some (n - 87)%N
  else if ((65 <=? n) && (n <=? 70))%N then Some (n - 55)%N
  else None.

Definition unescape (e : ascii) : option ascii :=
  let n := N_of_ascii e in
  if (n =? 34)%N then Some dquote
  else if (n =? 92)%N then Some backslash
  else if (n =? 47)%N then Some "/"%char
  else if (n =? 98)%N then Some (ascii_of_nat 8)
  else if (n =? 116)%N then Some (ascii_of_nat 9)
  else if (n =? 110)%N then Some (ascii_of_nat 10)
  else if (n =? 102)%N then Some (ascii_of_nat 12)
  else if (n =? 114)%N then Some (ascii_of_nat 13)
  else None.

(** The characters of a string literal after its opening quote, and what
    follows its closing quote. *)
Fixpoint parse_chars (s : string) : option (string * string) :=
  match s with
  | EmptyString => None
  | String c s' =>
      if (N_of_ascii c =? 34)%N then Some (EmptyString, s')
      else if (N_of_ascii c <? 32)%N then None
      else if (N_of_ascii c =? 92)%N then
        match s' with
        | String e s'' =>
            if (N_of_ascii e =? 117)%N then
              match s'' with
              | String h1 (String h2 (String h3 (String h4 s3))) =>
                  match hex_value h1, hex_value h2, hex_value h3, hex_value h4 with
                  | Some 0%N, Some 0%N, Some a, Some b =>
                      '(t, rest) ← parse_chars s3;
                      Some (String (ascii_of_N (16 * a + b)) t, rest)
                  | _, _, _, _ => None
                  end
              | _ => None
              end
            else
              ch ← unescape e;
              '(t, rest) ← parse_chars s'';
              Some (String ch t, rest)
        | EmptyString => None
        end
      else
        '(t, rest) ← parse_chars s';
        Some (String c t, rest)
  end.

Definition is_digit (c : ascii) : bool :=
  ((48 <=? N_of_ascii c) && (N_of_ascii c <=? 57))%N.

Fixpoint parse_digits (s : string) (acc : N) : N * string :=
  match s with
  | String c s' =>
      if is_digit c then parse_digits s' (10 * acc + (N_of_ascii c - 48))%N
      else (acc, s)
  | EmptyString => (acc, EmptyString)
  end.

Definition starts_fraction (s : string) : bool :=
  match s with
  | String c _ =>
      let n := N_of_ascii c in ((n =? 46) || (n =? 101) || (n =? 69))%N
  | EmptyString => false
  end.

Definition parse_number (s : string) : option (jsval * string) :=
  let '(neg, body) :=
    match s with
    | String c s' => if (N_of_ascii c =? 45)%N then (true, s') else (false, s)
    | EmptyString => (false, s)
    end in
  match body with
  | String c _ =>
      if is_digit c then
        let '(n, rest) := parse_digits body 0 in
        if starts_fraction rest then None
        else Some (VNum (if neg then - Z.of_N n else Z.of_N n), rest)
      else None
  | EmptyString => None
  end.

(** [s] after the literal [lit], when [s] starts with it. *)
Fixpoint after_literal (lit s : string) : option string :=
  match lit, s with
  | EmptyString, _ => Some s
  | String a lit', String b s' =>
      if Ascii.eqb a b then after_literal lit' s' else None
  | String _ _, EmptyString => None
  end.

(** The elements of an array after the first, up to the closing bracket. *)
Fixpoint parse_elements (value : string -> option (jsval * string))
    (fuel : nat) (s : string) (acc : list jsval) : option (list jsval * string) :=
  match fuel with
  | O => None
  | S fuel' =>
      '(v, rest) ← value s;
      match skip_ws rest with
      | String c rest' =>
          if (N_of_ascii c =? 44)%N then parse_elements value fuel' rest' (v :: acc)
          else if (N_of_ascii c =? 93)%N then Some (rev (v :: acc), rest')
          else None
      | EmptyString => None
      end
  end.

Fixpoint parse_members (value : string -> option (jsval * string))
    (fuel : nat) (s : string) (acc : gmap string jsval)
    : option (gmap string jsval * string) :=
  match fuel with
  | O => None
  | S fuel' =>
      match skip_ws s with
      | String q s1 =>
          if (N_of_ascii q =? 34)%N then
            '(k, s2) ← parse_chars s1;
            match skip_ws s2 with
            | String colon s3 =>
                if (N_of_ascii colon =? 58)%N then
                  '(v, rest) ← value s3;
                  match skip_ws rest with
                  | String c rest' =>
                      if (N_of_ascii c =? 44)%N then
                        parse_members value fuel' rest' (<[k := v]> acc)
                      else if (N_of_ascii c =? 125)%N then
                        Some (<[k := v]> acc, rest')
                      else None
                  | EmptyString => None
                  end
                else None
            | EmptyString => None
            end
          else None
      | EmptyString => None
      end
  end.

Fixpoint parse_value (fuel : nat) (s : string) : option (jsval * string) :=
  match fuel with
  | O => None
  | S fuel' =>
      match skip_ws s with
      | EmptyString => None
      | String c s' =>
          let n := N_of_ascii c in
          if (n =? 34)%N then
            '(t, rest) ← parse_chars s'; Some (VStr t, rest)
          else if (n =? 91)%N then
            match skip_ws s' with
            | String c' rest =>
                if (N_of_ascii c' =? 93)%N then Some (VArr [], rest)
                else
                  '(xs, rest) ← parse_elements (parse_value fuel')
                                  (String.length s') s' [];
                  Some (VArr xs, rest)
            | EmptyString => None
            end
          else if (n =? 123)%N then
            match skip_ws s' with
            | String c' rest =>
                if (N_of_ascii c' =? 125)%N then Some (VObj ∅, rest)
                else
                  '(o, rest) ← parse_members (parse_value fuel')
                                 (String.length s') s' ∅;
                  Some (VObj o, rest)
            | EmptyString => None
            end
          else if (n =? 116)%N then
            rest ← after_literal "true" (String c s'); Some (VBool true, rest)
          else if (n =? 102)%N then
            rest ← after_literal "false" (String c s'); Some (VBool false, rest)
          else if (n =? 110)%N then
            rest ← after_literal "null" (String c s'); Some (VNull, rest)
          else parse_number (String c s')
      end
  end.

Definition parse (raw : string) : option jsval :=
  '(v, rest) ← parse_value (S (String.length raw)) raw;
  match skip_ws rest with
  | EmptyString => Some v
  | String _ _ => None
  end.

End RefJSON.

(** ** What the persistence adapter does to the world *)

Module Adapter.
Import Profiles.

Section Outcome.

Variable E : Env.

(** The world [saveToStorage] leaves: the call is logged, and the item is
    written when the storage accepts it. *)
Definition saved (key value : string) (w : World) : World :=
  {| store := store w;
     localStorage :=
       if quota_ok E (localStorage w) key value
       then <[key := value]> (localStorage w) else localStorage w;
     calls := calls w ++ [SetItem key value];
     ticks := ticks w;
     draws := draws w |}.

(** The world [loadFromStorage] leaves: one read is logged. *)
Definition read (key : string) (w : World) : World :=
  {| store := store w;
     localStorage := localStorage w;
     calls := calls w ++ [GetItem key];
     ticks := ticks w;
     draws := draws w |}.

(** What [loadFromStorage] returns, as a function of the stored text. *)
Definition loaded (raw : option string) : option jsval :=
  match raw with
  | None => None
  | Some raw =>
      if bool_decide (raw = "") then None
      else match JSON_parse E raw with
           | None => None
           | Some parsed =>
               if truthy parsed && isArray (lookup_prop parsed "profiles")
               then Some parsed else None
           end
  end.

End Outcome.

(** The world after one more reading of the clock. *)
Definition ticked (w : World) : World :=
  {| store := store w; localStorage := localStorage w; calls := calls w;
     ticks := S (ticks w); draws := draws w |}.

End Adapter.

(** ** The states [ensureLoaded] installs *)

Module Hydration.
Import Profiles Adapter.

(** The store after a hit: the snapshot's profiles and selection. *)
Definition hydrated (userId : string) (p : jsval) : ProfilesState :=
  {| profiles := elements_of (lookup_prop p "profiles");
     currentProfileId := lookup_prop p "currentProfileId";
     loadedForUserId := Some userId |}.

(** The store after a miss: the empty collection. *)
Definition emptyFor (userId : string) : ProfilesState :=
  {| profiles := []; currentProfileId := VNull; loadedForUserId := Some userId |}.

(** The world [ensureLoaded] leaves when another account (or none) was
    loaded. *)
Definition ensured (E : Env) (userId : string) (w : World) : World :=
  let key := storageKey userId in
  match loaded E (localStorage w !! key) with
  | Some p => with_store (fun _ => hydrated userId p) (read key w)
  | None =>
      saved E key
        (JSON_stringify E
           (PersistedProfiles [] VNull (toISOString (clock E (ticks w)))))
        (ticked (with_store (fun _ => emptyFor userId) (read key w)))
  end.

End Hydration.

(** ** What the store's actions do to the world *)

Module Runs.
Import Profiles Adapter.

(** A profile as the store's TypeScript types have it carries a string
    [id]. *)
Definition profile_id (p : jsval) : option string :=
  match lookup_prop p "id" with
  | VStr i => Some i
  | _ => None
  end.

Definition typed_profile (p : jsval) : bool :=
  match profile_id p with
  | Some _ => true
  | None => false
  end.

(** [p.id === id] *)
Definition has_id (id : string) (p : jsval) : bool :=
  strict_eq_str (lookup_prop p "id") id.

Section Actions.

Variable E : Env.

(** The identifier [uid()] generates in world [w]. *)
Definition uidAt (w : World) : string :=
  toString36 (clock E (ticks w)) +:+ "-" +:+ slice 2 8 (random36 E (draws w)).

(** The profile [addProfile] creates in world [w]: the clock is read once
    for the identifier and once for each of the two timestamps. *)
Definition newProfile (data : gmap string jsval) (w : World) : jsval :=
  VObj (<["updatedAt" := VStr (toISOString (clock E (2 + ticks w)))]>
       (<["createdAt" := VStr (toISOString (clock E (1 + ticks w)))]>
       (data ∪ {["id" := VStr (uidAt w)]}))).

Definition added (userId : string) (data : gmap string jsval) (w : World)
    : World :=
  let p := newProfile data w in
  let next := (profiles (store w) ++ [p])%list in
  let current := coalesce (currentProfileId (store w)) (lookup_prop p "id") in
  saved E (storageKey userId)
    (JSON_stringify E
       (PersistedProfiles next current (toISOString (clock E (3 + ticks w)))))
    {| store := {| profiles := next;
                   currentProfileId := current;
                   loadedForUserId := Some userId |};
       localStorage := localStorage w;
       calls := calls w;
       ticks := 4 + ticks w;
       draws := S (draws w) |}.

(** [profiles.map(...)] of [updateProfile] on typed profiles, the clock
    having been read [k] times: every match reads the clock once more. *)
Fixpoint updatedList (id : string) (changes : gmap string jsval) (k : nat)
    (ps : list jsval) : list jsval :=
  match ps with
  | [] => []
  | p :: ps' =>
      if has_id id p then
        VObj (<["updatedAt" := VStr (toISOString (clock E k))]>
                (changes ∪ own_props p))
        :: updatedList id changes (S k) ps'
      else p :: updatedList id changes k ps'
  end.

Definition matching (id : string) (ps : list jsval) : nat :=
  length (filter (fun p => has_id id p = true) ps).

Definition updated (userId id : string) (changes : gmap string jsval)
    (w : World) : World :=
  let next := updatedList id changes (ticks w) (profiles (store w)) in
  let k := (matching id (profiles (store w)) + ticks w)%nat in
  saved E (storageKey userId)
    (JSON_stringify E
       (PersistedProfiles next (currentProfileId (store w))
          (toISOString (clock E k))))
    {| store := {| profiles := next;
                   currentProfileId := currentProfileId (store w);
                   loadedForUserId := loadedForUserId (store w) |};
       localStorage := localStorage w;
       calls := calls w;
       ticks := S k;
       draws := draws w |}.

(** [profiles.filter(p => p.id !== id)] on typed profiles. *)
Definition remaining (id : string) (ps : list jsval) : list jsval :=
  filter (fun p => has_id id p = false) ps.

(** The selection [removeProfile] computes. *)
Definition fallback (id : string) (current : jsval) (next : list jsval)
    : jsval :=
  if strict_eq_str current id
  then coalesce (opt_prop (first_elem next) "id") VNull
  else current.

Definition removed (userId id : string) (w : World) : World :=
  let next := remaining id (profiles (store w)) in
  let current := fallback id (currentProfileId (store w)) next in
  saved E (storageKey userId)
    (JSON_stringify E
       (PersistedProfiles next current (toISOString (clock E (ticks w)))))
    {| store := {| profiles := next;
                   currentProfileId := current;
                   loadedForUserId := loadedForUserId (store w) |};
       localStorage := localStorage w;
       calls := calls w;
       ticks := S (ticks w);
       draws := draws w |}.

(** A sequence of [addProfile] calls, each with its account id and data. *)
Definition addAll (reqs : list (string * gmap string jsval))
    : M World (list jsval) :=
  mapM (fun r => addProfile E (fst r) (snd r)) reqs.

End Actions.

End Runs.

(** ** A reference environment and sample data *)

Module Ref.
Import Profiles.

(** An environment with the reference codec, a storage without quota and
    a fixed random draw; the clock is a parameter. *)
Definition env (clk : nat -> N) : Env :=
  {| JSON_parse := RefJSON.parse;
     JSON_stringify := RefJSON.stringify;
     clock := clk;
     random36 := fun _ => "0.4fzyo82mvyr";
     quota_ok := fun _ _ _ => true |}.

(** A clock that advances by a millisecond between two readings, and one
    that is read several times within the same millisecond. *)
Definition ticking (k : nat) : N := (1700000000000 + N.of_nat k)%N.
Definition frozen (k : nat) : N := 1700000000000%N.

(** The world of a page that has just been loaded. *)
Definition fresh : World :=
  {| store := initialState;
     localStorage := ∅;
     calls := [];
     ticks := 0;
     draws := 0 |}.

(** [{ roleType: 'Pharmacy Technician', firstName: 'Ada', lastName: 'Lovelace' }] *)
Definition ada : gmap string jsval :=
  {[ "roleType" := VStr "Pharmacy Technician";
     "firstName" := VStr "Ada";
     "lastName" := VStr "Lovelace" ]}.

(** The same with [accountId: 'acct-1'], as the add-profile dialog passes it. *)
Definition ada_owned : gmap string jsval :=
  <["accountId" := VStr "acct-1"]> ada.

Definition grace : gmap string jsval :=
  {[ "accountId" := VStr "acct-1";
     "roleType" := VStr "Pharmacist-PIC";
     "firstName" := VStr "Grace";
     "lastName" := VStr "Hopper" ]}.

End Ref.

(** ** Snapshots in the reference world *)

Module RefSnapshots.
Import Profiles.

(** A snapshot with one profile, selected. *)
Definition profiles_of_snapshot : list jsval :=
  [VObj (<["id" := VStr "lx2k9a-4fzyo8"]>
        (<["createdAt" := VStr "2024-02-29T12:34:56.789Z"]>
        (<["updatedAt" := VStr "2024-02-29T12:34:56.789Z"]> Ref.ada_owned)))].

Definition snapshot : jsval :=
  PersistedProfiles profiles_of_snapshot (VStr "lx2k9a-4fzyo8")
    "2024-02-29T12:34:57.001Z".

(** The JSON text of [{ profiles: 3 }]. *)
Definition profiles_is_number : string :=
  RefJSON.stringify (VObj {["profiles" := VNum 3]}).

(** Worlds whose storage holds, under the key of [acct-1], text that is
    no JSON, and JSON whose [profiles] is no array. *)
Definition holding (raw : string) : World :=
  {| store := initialState;
     localStorage := {[ storageKey "acct-1" := raw ]};
     calls := [];
     ticks := 0;
     draws := 0 |}.

End RefSnapshots.

(** ** Typed collections *)

Module Typed.
Import Profiles.

(** No element is [null] or [undefined]: reading [p.id] does not throw. *)
Definition defined_all (ps : list jsval) : bool :=
  forallb (fun p => negb (nullish p)) ps.

(** Every element carries a string [id], as a [PharmacyProfile] does. *)
Definition typed_all (ps : list jsval) : bool :=
  forallb Runs.typed_profile ps.

(** [p.accountId] *)
Definition owner (p : jsval) : jsval := lookup_prop p "accountId".

(** The world after [n] more readings of the clock. *)
Definition advance (n : nat) (w : World) : World :=
  {| store := store w; localStorage := localStorage w; calls := calls w;
     ticks := n + ticks w; draws := draws w |}.

End Typed.

(** ** Reference worlds for the scenarios *)

Module Scenario.
Import Profiles.

(** One profile has been added for [acct-1], then a profile id that is
    not in the collection has been selected. *)
Definition one_profile : World :=
  after (addProfile (Ref.env Ref.ticking) "acct-1" Ref.ada_owned) Ref.fresh.

Definition dangling : World :=
  after (setCurrentProfile (Ref.env Ref.ticking) (Some "ghost")) one_profile.

End Scenario.

(** ** The add-then-update scenario *)

Module AdaScenario.
Import Profiles.

(** [{ licenseNumber: 'TX-12345' }] *)
Definition licence : gmap string jsval :=
  {[ "licenseNumber" := VStr "TX-12345" ]}.

(** [{ accountId: 'acct-2' }] *)
Definition reassign : gmap string jsval :=
  {[ "accountId" := VStr "acct-2" ]}.

(** The property names of the profile [addProfile] makes from [Ref.ada]. *)
Definition fields : gset string :=
  {[ "id"; "roleType"; "firstName"; "lastName"; "createdAt"; "updatedAt" ]}.

(** The scenario under a clock read several times in one millisecond. *)
Definition added_frozen : World :=
  after (addProfile (Ref.env Ref.frozen) "acct-1" Ref.ada) Ref.fresh.

Definition updated_frozen : World :=
  after (updateProfile (Ref.env Ref.frozen) "acct-1" "loyw3v28-4fzyo8" licence)
    added_frozen.

(** [acct-1] changes the owner of its profile through [updateProfile]. *)
Definition reassigned : World :=
  after (updateProfile (Ref.env Ref.ticking) "acct-1" "loyw3v28-4fzyo8" reassign)
    Scenario.one_profile.

End AdaScenario.

(** ** What the calls to the provider do to the world *)

Module AuthRuns.
Import Auth.

(** The world after one more call to the provider. *)
Definition called (c : ProviderCall) (w : World) : World :=
  {| auth := auth w; history := (history w ++ [c])%list |}.

(** A lookup that finds no row: the promise is rejected, or it resolves
    with an error, without data, or with no row. *)
Definition misses (o : Outcome QueryResponse) : bool :=
  match o with
  | Resolved r => negb (hit r)
  | Rejected _ => true
  end.

End AuthRuns.

(** ** Reference providers *)

Module RefAuth.
Import Auth.

Definition ada_user : User :=
  {| user_id := "7f3c2a"; user_email := Some "ada@example.org" |}.

Definition ada_session : Session :=
  {| access_token := "token"; session_user := ada_user |}.

(** A provider with a live session for which no account row is visible:
    the lookup by [id] finds no row, the one by [user_id] resolves with an
    error (no such column), the one by [email] is rejected.  Its [signOut]
    is given. *)
Definition unlinked (out : Outcome (option string)) : Provider :=
  {| getSession := fun _ => Resolved (Some ada_session);
     signInWithPassword := fun _ _ _ =>
       Resolved {| r_user := Some ada_user;
                   r_session := Some ada_session;
                   r_error := None |};
     signOut := fun _ => out;
     select_eq := fun _ column _ =>
       if bool_decide (column = "id") then
         Resolved {| q_data := Some []; q_error := None |}
       else if bool_decide (column = "user_id") then
         Resolved {| q_data := None;
                     q_error := Some "column accounts.user_id does not exist" |}
       else Rejected (ProviderError "network") |}.

Definition start : World := {| auth := cleared; history := [] |}.

(** The world after [checkSession] found the session. *)
Definition signed_in (out : Outcome (option string)) : World :=
  after (checkSession (unlinked out)) start.

End RefAuth.

(** ** A collection loaded for another account *)

Module Rebinding.
Import Profiles.

(** [{ accountId: 'acct-2', ... }] *)
Definition edsger : gmap string jsval :=
  {[ "accountId" := VStr "acct-2";
     "roleType" := VStr "Pharmacist-Staff";
     "firstName" := VStr "Edsger";
     "lastName" := VStr "Dijkstra" ]}.

(** The collection of [acct-2] is in memory, with one profile. *)
Definition other_loaded : World :=
  after (addProfile (Ref.env Ref.ticking) "acct-2" edsger) Ref.fresh.

(** [addProfile] is then called for [acct-1]. *)
Definition rebound : World :=
  after (addProfile (Ref.env Ref.ticking) "acct-1" Ref.ada_owned) other_loaded.

(** The owners of the profiles in the snapshot stored for an account. *)
Definition stored_owners (userId : string) (w : World) : option (list jsval) :=
  raw ← localStorage w !! storageKey userId;
  s ← RefJSON.parse raw;
  Some (map Typed.owner (elements_of (lookup_prop s "profiles"))).

End Rebinding.

(** ** JSON values the reference codec reads back as written *)

Module JSONValues.
Import RefJSON.

(** Values built from null, booleans, strings, arrays and objects: what a
    snapshot of typed profiles is made of. *)
Fixpoint clean (v : jsval) : bool :=
  match v with
  | VUndef | VNum _ => false
  | VNull | VBool _ | VStr _ => true
  | VArr xs => forallb clean xs
  | VObj o => map_fold (fun _ x acc => clean x && acc) true o
  end.

(** The number of nodes of a value. *)
Fixpoint size (v : jsval) : nat :=
  match v with
  | VArr xs => S (list_sum (map size xs))
  | VObj o => S (map_fold (fun _ x acc => size x + acc) 0 o)
  | _ => 1
  end.

(** The text of one property of an object. *)
Definition member (kx : string * jsval) : string :=
  quote kx.1 +:+ ":" +:+ stringify kx.2.

End JSONValues.

(** ** Sequences of calls of the store's actions *)

Module Lineage.
Import Profiles.

(** A call of one of the store's actions. *)
Inductive Action : Type :=
| Ensure (userId : string)
| Select (profileId : option string)
| Add (userId : string) (data : gmap string jsval)
| Update (userId id : string) (changes : gmap string jsval)
| Remove (userId id : string)
| Reset.

Definition perform (E : Env) (a : Action) : M World unit :=
  match a with
  | Ensure u => ensureLoaded E u
  | Select p => setCurrentProfile E p
  | Add u d => (_ <- addProfile E u d ;; ret tt)%eff
  | Update u id changes => updateProfile E u id changes
  | Remove u id => removeProfile E u id
  | Reset => reset
  end.

(** The world a sequence of calls leaves; a call that throws leaves the
    world it had reached, and the next call starts from there. *)
Fixpoint performAll (E : Env) (acts : list Action) (w : World) : World :=
  match acts with
  | [] => w
  | a :: acts' => performAll E acts' (after (perform E a) w)
  end.

(** Every call but an [updateProfile] whose changes carry an [accountId]. *)
Definition keeps_owner (a : Action) : bool :=
  match a with
  | Update _ _ changes => bool_decide (changes !! "accountId" = None)
  | _ => true
  end.

(** The profiles a call brings into the collection: the one [addProfile]
    creates, and those [ensureLoaded] reads for an account that was not
    loaded. *)
Definition brought (E : Env) (a : Action) (w : World) : list jsval :=
  match a with
  | Add _ d => [Runs.newProfile E d w]
  | Ensure u =>
      if bool_decide (loadedForUserId (store w) = Some u) then []
      else match Adapter.loaded E (localStorage w !! storageKey u) with
           | Some s => elements_of (lookup_prop s "profiles")
           | None => []
           end
  | _ => []
  end.

Fixpoint introduced (E : Env) (acts : list Action) (w : World) : list jsval :=
  match acts with
  | [] => []
  | a :: acts' =>
      (brought E a w ++ introduced E acts' (after (perform E a) w))%list
  end.

(** [p'] is the profile [p] after some merges of changes that carry no
    [accountId], each followed by a new [updatedAt]. *)
Inductive evolves (p : jsval) : jsval -> Prop :=
| evolves_same : evolves p p
| evolves_merge (q : jsval) (changes : gmap string jsval) (t : string) :
    evolves p q ->
    changes !! "accountId" = None ->
    evolves p (VObj (<["updatedAt" := VStr t]> (changes ∪ own_props q))).

(** [p'] is what the store keeps of [p]: it evolved from [p], and belongs
    to the same account. *)
Definition kept_from (p p' : jsval) : Prop :=
  evolves p p' /\ Typed.owner p' = Typed.owner p.

(** [ps'] is what the store keeps of some of the profiles of [ps], in
    their order. *)
Definition descend (ps ps' : list jsval) : Prop :=
  exists qs, sublist qs ps /\ Forall2 kept_from qs ps'.

(** The calls of the concrete run: the profile of [acct-1] is edited,
    another is added, the first is removed, the selection is changed. *)
Definition edits : list Action :=
  [ Ensure "acct-1";
    Update "acct-1" "loyw3v28-4fzyo8" AdaScenario.licence;
    Add "acct-1" Ref.grace;
    Remove "acct-1" "loyw3v28-4fzyo8";
    Select None ].

End Lineage.

(** ** Environments that differ in the storage only, and selections *)

Module StoreFacts.
Import Profiles.

(** The environment [E] with another storage quota. *)
Definition with_quota (E : Env)
    (q : gmap string string -> string -> string -> bool) : Env :=
  {| JSON_parse := JSON_parse E;
     JSON_stringify := JSON_stringify E;
     clock := clock E;
     random36 := random36 E;
     quota_ok := q |}.

(** The selection is null or the identifier of a profile of the
    collection. *)
Definition selection_ok (st : ProfilesState) : Prop :=
  match currentProfileId st with
  | VNull => True
  | VStr i => exists p, p ∈ profiles st /\ Runs.has_id i p = true
  | _ => False
  end.

(** A call that writes the snapshot of the store under the key of
    account [A]: a mutation called with [A], or a selection made while [A]
    is loaded. *)
Definition writes_for (A : string) (w : World) (a : Lineage.Action) : bool :=
  match a with
  | Lineage.Add u _ | Lineage.Update u _ _ | Lineage.Remove u _ =>
      bool_decide (u = A)
  | Lineage.Select _ =>
      bool_decide (loadedForUserId (store w) = Some A)
      && negb (bool_decide (A = ""))
  | _ => false
  end.

(** A selection as its type has it: a string or null. *)
Definition string_or_null (v : jsval) : bool :=
  match v with
  | VStr _ | VNull => true
  | _ => false
  end.

(** The storage holds, under the key of [A], the snapshot of the store. *)
Definition synced (E : Env) (A : string) (w : World) : Prop :=
  exists t,
    localStorage w !! storageKey A
    = Some (JSON_stringify E
              (PersistedProfiles (profiles (store w))
                 (currentProfileId (store w)) t)).

End StoreFacts.

(** ** The world [removeProfile] leaves, given what its filter kept *)

Module RemoveRuns.
Import Profiles Adapter Runs.

Definition removed_to (E : Env) (userId id : string) (next : list jsval)
    (w : World) : World :=
  let current := fallback id (currentProfileId (store w)) next in
  saved E (storageKey userId)
    (JSON_stringify E
       (PersistedProfiles next current (toISOString (clock E (ticks w)))))
    {| store := {| profiles := next;
                   currentProfileId := current;
                   loadedForUserId := loadedForUserId (store w) |};
       localStorage := localStorage w;
       calls := calls w;
       ticks := S (ticks w);
       draws := draws w |}.

End RemoveRuns.

(** ** Well-formed stores *)

Module Selection.
Import Profiles.

(** A mutation of the collection whose argument carries no [id] of its
    own: the data of [addProfile] has the type
    [Omit<PharmacyProfile, 'id' | 'createdAt' | 'updatedAt'>]; the changes
    of [updateProfile] are a [Partial<PharmacyProfile>], which may carry
    one. *)
Definition mutation (a : Lineage.Action) : bool :=
  match a with
  | Lineage.Add _ d => bool_decide (d !! "id" = None)
  | Lineage.Update _ _ changes => bool_decide (changes !! "id" = None)
  | Lineage.Remove _ _ | Lineage.Reset => true
  | Lineage.Ensure _ | Lineage.Select _ => false
  end.

(** Every profile carries a string [id], and the selection is null or
    names a profile of the collection. *)
Definition well_formed (st : ProfilesState) : Prop :=
  Typed.typed_all (profiles st) = true /\ StoreFacts.selection_ok st.

End Selection.

(** ** Reading base-36 numerals back *)

Module Base36.

Definition alphabet : string := "0123456789abcdefghijklmnopqrstuvwxyz".

(** The position of [c] in [s], counted from [k]. *)
Fixpoint index_from (c : ascii) (s : string) (k : N) : N :=
  match s with
  | EmptyString => k
  | String d s' => if Ascii.eqb c d then k else index_from c s' (N.succ k)
  end.

Definition value (c : ascii) : N := index_from c alphabet 0.

(** The number a numeral denotes, most significant digit first. *)
Fixpoint decode (s : string) (acc : N) : N :=
  match s with
  | EmptyString => acc
  | String c s' => decode s' (36 * acc + value c)
  end.

(** No character of [s] is a hyphen. *)
Fixpoint dashless (s : string) : bool :=
  match s with
  | EmptyString => true
  | String c s' => negb (Ascii.eqb c "-") && dashless s'
  end.

End Base36.

(** ** A provider that finds the account by its identifier *)

Module RefLinked.
Import Auth.

Definition ada_row : jsval :=
  VObj {[ "id" := VStr "7f3c2a";
          "email" := VStr "ada@example.org";
          "pharmacy_name" := VStr "Analytical Pharmacy";
          "created_at" := VStr "2024-01-01T00:00:00.000Z" ]}.

(** The lookup by [id] finds the row; any other lookup is rejected. *)
Definition provider : Provider :=
  {| getSession := fun _ => Resolved (Some RefAuth.ada_session);
     signInWithPassword := fun _ _ _ =>
       Resolved {| r_user := Some RefAuth.ada_user;
                   r_session := Some RefAuth.ada_session;
                   r_error := None |};
     signOut := fun _ => Resolved None;
     select_eq := fun _ column _ =>
       if bool_decide (column = "id") then
         Resolved {| q_data := Some [ada_row]; q_error := None |}
       else Rejected (ProviderError "unexpected lookup") |}.

(** The world after [checkSession] found the session and the account. *)
Definition signed_in : World := after (checkSession provider) RefAuth.start.

End RefLinked.

(** ** [updateAccount] of the authentication store

    The update goes through the provider's query builder,
    [from('accounts').update(patch).eq(column, value).select().single()]:
    one call, described by its patch and its filter. *)

Module AccountUpdate.
Import Auth.

(** The [eq] filter of the query, if one was added. *)
Inductive Filter : Type :=
| FilterEq (column : string) (value : jsval)
| Unfiltered.

Record UpdateCall : Type := {
  patch : gmap string jsval;
  filter : Filter;
}.

(** [{ data, error }] of [.select().single()]. *)
Record UpdateResponse : Type := {
  u_data : jsval;
  u_error : option string;
}.

(** The authentication store and its provider calls, with the updates
    sent so far, oldest first; each update is logged with the number of
    other provider calls made before it. *)
Record World : Type := {
  base : Auth.World;
  updates : list (nat * UpdateCall);
}.

(** The provider's answer to an update may depend on all the calls made
    before. *)
Definition Updater : Type :=
  list ProviderCall -> list (nat * UpdateCall) -> UpdateCall
  -> Outcome UpdateResponse.

(** How a call of [updateAccount] ends: it returns the mapped account,
    throws [new Error(message)], or throws what the provider gave. *)
Inductive Completion : Type :=
| Returned (a : Account)
| ThrewError (message : string)
| Threw (e : Exn).

(** [changes.k] of the object passed as [changes]. *)
Definition change (changes : gmap string jsval) (k : string) : jsval :=
  default VUndef (changes !! k).

(** The snake_case patch: an object literal of eight properties. *)
Definition patch_of (changes : gmap string jsval) : gmap string jsval :=
  <["pharmacy_name" := change changes "pharmacyName"]>
  (<["pharmacy_phone" := change changes "pharmacyPhone"]>
  (<["subscription_status" := change changes "subscriptionStatus"]>
  (<["address1" := change changes "address1"]>
  (<["city" := change changes "city"]>
  (<["state" := change changes "state"]>
  (<["zipcode" := change changes "zipcode"]>
  (<["email" := change changes "email"]> ∅))))))).

(** The best available identifier: [account.id], else [user.id], else
    [user.email], else no filter at all. *)
Definition filter_for (u : User) (a : Account) : Filter :=
  if truthy (id a) then FilterEq "id" (id a)
  else if negb (bool_decide (user_id u = "")) then
    FilterEq "id" (VStr (user_id u))
  else
    match user_email u with
    | Some e =>
        if bool_decide (e = "") then Unfiltered else FilterEq "email" (VStr e)
    | None => Unfiltered
    end.

Definition with_account (a : Account) (w : World) : World :=
  {| base :=
       {| auth := {| session := session (auth (base w));
                     user := user (auth (base w));
                     account := Some a;
                     isAuthenticated := isAuthenticated (auth (base w)) |};
          history := history (base w) |};
     updates := updates w |}.

Definition sent (c : UpdateCall) (w : World) : World :=
  {| base := base w;
     updates := (updates w ++ [(length (history (base w)), c)])%list |}.

Section Store.

Variable U : Updater.

(** [mapRowToAccount(data)] reads [data.id] first, which throws a
    [TypeError] when [data] is null or undefined. *)
Definition updateAccount (changes : gmap string jsval) (w : World)
    : Completion * World :=
  match user (auth (base w)) with
  | None => (ThrewError "Not authenticated", w)
  | Some u =>
      match account (auth (base w)) with
      | None => (ThrewError "Account not loaded", w)
      | Some a =>
          let c := {| patch := patch_of changes; filter := filter_for u a |} in
          match U (history (base w)) (updates w) c with
          | Rejected e => (Threw e, sent c w)
          | Resolved r =>
              match u_error r with
              | Some msg => (Threw (ProviderError msg), sent c w)
              | None =>
                  if nullish (u_data r) then (Threw TypeError, sent c w)
                  else
                    let mappedAccount := mapRowToAccount (u_data r) in
                    (Returned mappedAccount,
                     with_account mappedAccount (sent c w))
              end
          end
      end
  end.

End Store.

(** The camelCase properties of [changes] that [updateAccount] reads. *)
Definition read_keys : list string :=
  ["pharmacyName"; "pharmacyPhone"; "subscriptionStatus"; "address1";
   "city"; "state"; "zipcode"; "email"].

(** The columns of the patch. *)
Definition columns : list string :=
  ["pharmacy_name"; "pharmacy_phone"; "subscription_status"; "address1";
   "city"; "state"; "zipcode"; "email"].

End AccountUpdate.

(** ** The authentication store as a whole *)

Module AuthActions.
Import Auth AccountUpdate.

(** A call of one of the store's four actions. *)
Inductive Action : Type :=
| CheckSession
| Login (email password : string)
| Logout
| UpdateAccount (changes : gmap string jsval).

Definition on_base (f : Auth.World -> Auth.World) (w : World) : World :=
  {| base := f (base w); updates := updates w |}.

(** The world a call leaves, whether it returns or throws, when it runs
    from its start to its end with no other call of the store running
    between its awaits. *)
Definition perform (P : Provider) (U : Updater) (a : Action) (w : World)
    : World :=
  match a with
  | CheckSession => on_base (after (checkSession P)) w
  | Login email password => on_base (after (login P email password)) w
  | Logout => on_base (after (logout P)) w
  | UpdateAccount changes => snd (updateAccount U changes w)
  end.

Definition is_some {A} (o : option A) : bool :=
  match o with
  | Some _ => true
  | None => false
  end.

(** [isAuthenticated] tells whether a session is held, and a user or an
    account is held only with a session. *)
Definition coherent (st : AuthState) : bool :=
  Bool.eqb (isAuthenticated st) (is_some (session st))
  && implb (is_some (user st)) (is_some (session st))
  && implb (is_some (account st)) (is_some (session st)).

(** The store as [create] builds it, before any call. *)
Definition initial : World :=
  {| base := {| auth := cleared; history := [] |}; updates := [] |}.

End AuthActions.

(** ** The components that call the stores *)

(** [ProfileGate] ([src/components/auth/ProfileGate.tsx]) *)
Module ProfileGate.
Import Profiles.


(** A call of an action of the profile store, with its argument as it is
    at run time. *)
Inductive StoreCall : Type :=
| CallEnsureLoaded (userId : jsval)
| CallReset.


(** The call on the profile store.  Its [ensureLoaded] takes a string, as
    its signature says; a call with an argument of another type has no
    run in this store. *)
Definition run (E : Env) (c : StoreCall) : option (M World unit) :=
  match c with
  | CallEnsureLoaded (VStr userId) => Some (ensureLoaded E userId)
  | CallEnsureLoaded _ => None
  | CallReset => Some reset
  end.

(** [if (pickedId) setCurrentProfile(pickedId);] *)
Definition handleConfirm (E : Env) (pickedId : option string)
    : M World unit :=
  match pickedId with
  | Some p =>
      if bool_decide (p = "") then ret tt else setCurrentProfile E (Some p)
  | None => ret tt
  end.

End ProfileGate.

(** [AddProfileModal] ([src/components/profiles/AddProfileModal.tsx]) *)
Module AddProfileModal.
Import Profiles.

(** The keys of the form's schema; the values the resolver hands to
    [onSubmit] carry no other key. *)
Definition schema_keys : list string :=
  ["roleType"; "firstName"; "lastName"; "phoneNumber"; "profileEmail";
   "dobMonth"; "dobDay"; "dobYear"; "licenseNumber"; "nabpEprofileId"].

Definition optional_keys : list string :=
  ["phoneNumber"; "profileEmail"; "dobMonth"; "dobDay"; "dobYear";
   "licenseNumber"; "nabpEprofileId"].

(** [values.k] *)
Definition value (values : gmap string jsval) (k : string) : jsval :=
  default VUndef (values !! k).

(** The object literal passed to [addProfile]. *)
Definition new_data (accountId : string) (values : gmap string jsval)
    : gmap string jsval :=
  <["accountId" := VStr accountId]>
  (<["roleType" := value values "roleType"]>
  (<["firstName" := value values "firstName"]>
  (<["lastName" := value values "lastName"]>
  (<["phoneNumber" := js_or (value values "phoneNumber") VUndef]>
  (<["profileEmail" := js_or (value values "profileEmail") VUndef]>
  (<["dobMonth" := js_or (value values "dobMonth") VUndef]>
  (<["dobDay" := js_or (value values "dobDay") VUndef]>
  (<["dobYear" := js_or (value values "dobYear") VUndef]>
  (<["licenseNumber" := js_or (value values "licenseNumber") VUndef]>
  (<["nabpEprofileId" := js_or (value values "nabpEprofileId") VUndef]>
  (<["isActive" := VBool true]> ∅))))))))))).

(** [onSubmit(values)], for the [account?.id] and the [profileId] the
    component holds.  The result is the argument [onCreated] is called
    with, if it is called; closing the dialog is left out. *)
Definition onSubmit (E : Env) (accountId profileId : option string)
    (values : gmap string jsval) : M World (option jsval) :=
  let create (a : string) : M World (option jsval) :=
    (created <- addProfile E a (new_data a values) ;;
     ret (Some (lookup_prop created "id")))%eff in
  match accountId with
  | None => ret None
  | Some a =>
      if bool_decide (a = "") then ret None
      else
        match profileId with
        | Some pid =>
            if bool_decide (pid = "") then create a
            else (updateProfile E a pid values ;;; ret None)%eff
        | None => create a
        end
  end.

End AddProfileModal.

(** ** The store after [reset] *)

Module GateFacts.
Import Profiles.

(** The world after [reset]. *)
Definition emptied (w : World) : World := with_store (fun _ => initialState) w.

End GateFacts.

(** The account page ([src/pages/Account.tsx]) *)
Module AccountPage.
Import Auth AccountUpdate.

(** The editable state of the page. *)
Record Form : Type := {
  email : string;
  pharmacyName : string;
  pharmacyPhone : string;
  address1 : string;
  city : string;
  state : string;
  zipcode : string;
}.

(** [field || null] *)
Definition or_null (field : string) : jsval := js_or (VStr field) VNull.

(** The object literal [handleSave] passes to [updateAccount]. *)
Definition changes_of (form : Form) : gmap string jsval :=
  <["email" := VStr (email form)]>
  (<["pharmacyName" := VStr (pharmacyName form)]>
  (<["pharmacyPhone" := or_null (pharmacyPhone form)]>
  (<["address1" := or_null (address1 form)]>
  (<["city" := or_null (city form)]>
  (<["state" := or_null (state form)]>
  (<["zipcode" := or_null (zipcode form)]> ∅)))))).

(** The toast shown: [toast.success] with its fixed text, or
    [toast.error] with the message of what was caught. *)
Inductive Toast : Type :=
| ToastSuccess
| ToastError.

(** [handleSave]: the awaited [updateAccount] is wrapped in [try]/[catch],
    and the mapped account it returns is an object, hence truthy. *)
Definition handleSave (U : Updater) (form : Form) (w : World)
    : Toast * World :=
  match updateAccount U (changes_of form) w with
  | (Returned _, w') => (ToastSuccess, w')
  | (ThrewError _, w') => (ToastError, w')
  | (Threw _, w') => (ToastError, w')
  end.

End AccountPage.

(** ** The storage items an action may touch *)

Module Footprint.
Import Profiles.

(** The account whose snapshot a call may read or write: the one it is
    called with, or for [setCurrentProfile] the one loaded. *)
Definition target (w : World) (a : Lineage.Action) : option string :=
  match a with
  | Lineage.Ensure u | Lineage.Add u _ | Lineage.Update u _ _
  | Lineage.Remove u _ => Some u
  | Lineage.Select _ => loadedForUserId (store w)
  | Lineage.Reset => None
  end.

Definition call_key (c : StorageCall) : string :=
  match c with
  | GetItem k => k
  | SetItem k _ => k
  end.

(** From [w] to [w'] only the item under [key] was read or written, and
    nothing at all when there is no [key]. *)
Definition touches (key : option string) (w w' : World) : Prop :=
  (forall k, key <> Some k -> localStorage w' !! k = localStorage w !! k)
  /\ exists l,
       calls w' = (calls w ++ l)%list
       /\ Forall (fun c => key = Some (call_key c)) l.

End Footprint.

(** ** Calls made for other accounts *)

Module Others.
Import Profiles.

(** None of the calls [acts], made in turn from [w], is for account [A]. *)
Fixpoint avoids (E : Env) (A : string) (acts : list Lineage.Action)
    (w : World) : bool :=
  match acts with
  | [] => true
  | a :: acts' =>
      negb (bool_decide (Footprint.target w a = Some A))
      && avoids E A acts' (after (Lineage.perform E a) w)
  end.

End Others.

(** ** A snapshot whose collection holds null *)

Module NullSnapshot.
Import Profiles.

(** The JSON text of [{ profiles: [null] }]. *)
Definition text : string :=
  RefJSON.stringify (VObj {["profiles" := VArr [VNull]]}).

(** The store after [ensureLoaded] read that snapshot. *)
Definition hydrated : World :=
  after (ensureLoaded (Ref.env Ref.ticking) "acct-1") (RefSnapshots.holding text).

End NullSnapshot.

(** ** The lookups of [findAccountRow], in their order *)

Module Lookup.
Import Auth.

Definition strategies (u : User) : list ProviderCall :=
  [CallSelect "id" (user_id u); CallSelect "user_id" (user_id u)]
  ++ match user_email u with
     | Some e => if bool_decide (e = "") then [] else [CallSelect "email" e]
     | None => []
     end.

End Lookup.

(** ** The identifiers held by the collection *)

Module Ids.
Import Profiles.

(** [profiles.map(p => p.id)] *)
Definition ids (ps : list jsval) : list jsval :=
  map (fun p => lookup_prop p "id") ps.

(** What [uid] takes from the environment in world [w]: the reading of
    [Date.now()] and the characters 2 to 7 of [Math.random().toString(36)]. *)
Definition stamp (E : Env) (w : World) : N * string :=
  (clock E (ticks w), slice 2 8 (random36 E (draws w))).

(** The identifier [uid] makes of them. *)
Definition identifier (s : N * string) : jsval :=
  VStr (toString36 s.1 +:+ "-" +:+ s.2).

(** The stamps taken by the [addProfile] calls among [acts], made in turn
    from [w]. *)
Fixpoint stamps (E : Env) (acts : list Lineage.Action) (w : World)
    : list (N * string) :=
  match acts with
  | [] => []
  | a :: acts' =>
      match a with
      | Lineage.Add _ _ => [stamp E w]
      | _ => []
      end ++ stamps E acts' (after (Lineage.perform E a) w)
  end.

(** The stamps of the calls [acts] are new: pairwise distinct, and none
    makes an id of the collection of [w], whose profiles are typed and
    have pairwise distinct ids. *)
Definition fresh (E : Env) (acts : list Lineage.Action) (w : World) : Prop :=
  Typed.typed_all (profiles (store w)) = true
  /\ NoDup (ids (profiles (store w)))
  /\ NoDup (stamps E acts w)
  /\ forall s, s ∈ stamps E acts w ->
               identifier s ∉ ids (profiles (store w)).

End Ids.

(** An environment whose clock stands still while [Math.random] draws
    different numbers. *)
Module Dice.
Import Profiles.

Definition env : Env :=
  {| JSON_parse := RefJSON.parse;
     JSON_stringify := RefJSON.stringify;
     clock := Ref.frozen;
     random36 := fun d =>
       match d with
       | O => "0.4fzyo82mvyr"
       | _ => "0.9k2mx71qpzt"
       end;
     quota_ok := fun _ _ _ => true |}.

End Dice.

(** ** Values with undefined properties

    An optional field of a profile that was left out may be held as a
    property whose value is undefined; [JSON.stringify] leaves such
    properties out. *)

Module Storable.
Import Profiles.

(** [v === undefined] *)
Definition absent (v : jsval) : bool :=
  match v with
  | VUndef => true
  | _ => false
  end.

(** The properties of an object that [JSON.stringify] writes. *)
Definition kept (o : gmap string jsval) : list (string * jsval) :=
  filter (fun kx => absent kx.2 = false) (map_to_list o).

(** Values built from null, booleans, strings, arrays and objects, the
    properties of the objects being such values or undefined: what a
    snapshot of typed profiles is made of. *)
Fixpoint storable (v : jsval) : bool :=
  match v with
  | VUndef | VNum _ => false
  | VNull | VBool _ | VStr _ => true
  | VArr xs => forallb storable xs
  | VObj o =>
      map_fold
        (fun _ x acc =>
           match x with
           | VUndef => acc
           | _ => storable x && acc
           end)
        true o
  end.

(** [v] without the properties whose value is undefined, at every depth. *)
Fixpoint prune (v : jsval) : jsval :=
  match v with
  | VArr xs => VArr (map prune xs)
  | VObj o =>
      VObj (map_fold
              (fun k x acc =>
                 match x with
                 | VUndef => acc
                 | _ => <[k := prune x]> acc
                 end)
              ∅ o)
  | _ => v
  end.

(** The number of nodes of a value, undefined properties not counted. *)
Fixpoint weight (v : jsval) : nat :=
  match v with
  | VUndef => 0
  | VArr xs => S (list_sum (map weight xs))
  | VObj o => S (map_fold (fun _ x acc => weight x + acc) 0 o)
  | _ => 1
  end.

(** [a] and [b] are equal field for field: the same value, or arrays of
    the same length whose elements are, or objects every property of
    which reads the same in both, a property that is absent reading as
    undefined. *)
#[warnings="-register-all"]
Inductive field_equal : jsval -> jsval -> Prop :=
| field_equal_same (v : jsval) : field_equal v v
| field_equal_array (xs ys : list jsval) :
    Forall2 field_equal xs ys -> field_equal (VArr xs) (VArr ys)
| field_equal_object (o o' : gmap string jsval) :
    (forall k, field_equal (lookup_prop (VObj o) k) (lookup_prop (VObj o') k)) ->
    field_equal (VObj o) (VObj o').

(** What the store needs of the platform's JSON codec: reading back what
    was written gives the value without its undefined properties, and the
    empty text is no JSON. *)
Definition lawful (E : Env) : Prop :=
  (forall v, storable v = true ->
             JSON_parse E (JSON_stringify E v) = Some (prune v))
  /\ JSON_parse E "" = None.

(** The selection as its type has it, or as [ensureLoaded] may have taken
    it from a snapshot that carries none: a string, null or undefined. *)
Definition selection_like (v : jsval) : bool :=
  match v with
  | VStr _ | VNull | VUndef => true
  | _ => false
  end.

End Storable.

(** ** A profile created through the add-profile dialog *)

Module ModalScenario.
Import Profiles.

(** The values of the form when only the required fields are filled in:
    the phone number is the empty string, the other optional fields are
    absent. *)
Definition values : gmap string jsval :=
  <["phoneNumber" := VStr ""]> Ref.ada.

(** The call of [addProfile] that [onSubmit] makes with these values. *)
Definition create : Lineage.Action :=
  Lineage.Add "acct-1" (AddProfileModal.new_data "acct-1" values).

(** The store after it, on a page that has just been loaded. *)
Definition created : World :=
  after (Lineage.perform (Ref.env Ref.ticking) create) Ref.fresh.

End ModalScenario.

(** ** The actions of the authentication store as asynchronous functions

    Each action is an [async] function: it runs until its next [await],
    where it is suspended while other code runs, and goes on when the
    awaited promise is settled.  Calls of the store may therefore overlap:
    between two awaits of one call, another call may start, go on or set
    the state. *)

Module Async.
Import Auth AccountUpdate AuthActions.

(** A call to the provider, with the type of what its promise resolves
    to. *)
Inductive Request : Type -> Type :=
| GetSession : Request (option Session)
| SignInWithPassword (email password : string) : Request SignInResponse
| SignOut : Request (option string)
| Select (column value : string) : Request QueryResponse
| Update (c : UpdateCall) : Request UpdateResponse.

(** How a call of an action ends. *)
Inductive Result : Type :=
| Returned
| ReturnedBool (b : bool)
| ReturnedAccount (a : Account)
| Thrown (e : Exn)
| ThrownError (message : string).

(** What is left to run of a call. *)
Inductive Task : Type :=
| Finished (r : Result)
(** suspended at [await] of a provider call *)
| Await {A : Type} (r : Request A) (k : Outcome A -> Task)
(** suspended at [await] of the promise of [findAccountRow], which is
    already resolved *)
| Resume (k : Task)
(** [get()] *)
| GetState (k : AuthState -> Task)
(** [set(...)] *)
| SetState (f : AuthState -> AuthState) (k : Task).

(** [findAccountRow(user)], continued by [k] on what it returns: a
    rejected lookup is caught and null returned. *)
Definition findAccountRow (user : option User) (k : jsval -> Task) : Task :=
  match user with
  | None => k VNull
  | Some u =>
      Await (Select "id" (user_id u)) (fun byId =>
        match byId with
        | Rejected _ => k VNull
        | Resolved byId =>
            if hit byId then k (first_row byId)
            else
              Await (Select "user_id" (user_id u)) (fun byUserId =>
                match byUserId with
                | Rejected _ => k VNull
                | Resolved byUserId =>
                    if hit byUserId then k (first_row byUserId)
                    else
                      match user_email u with
                      | Some e =>
                          if bool_decide (e = "") then k VNull
                          else
                            Await (Select "email" e) (fun byEmail =>
                              match byEmail with
                              | Rejected _ => k VNull
                              | Resolved byEmail =>
                                  if hit byEmail then k (first_row byEmail)
                                  else k VNull
                              end)
                      | None => k VNull
                      end
                end)
        end)
  end.

Definition checkSession : Task :=
  Await GetSession (fun answer =>
    match answer with
    | Rejected e => Finished (Thrown e)
    | Resolved None => SetState (fun _ => cleared) (Finished Returned)
    | Resolved (Some s) =>
        findAccountRow (Some (session_user s)) (fun accountRow =>
          Resume
            (SetState
               (fun _ => {| session := Some s;
                            user := Some (session_user s);
                            account := enrich accountRow;
                            isAuthenticated := true |})
               (Finished Returned)))
    end).

Definition login (email password : string) : Task :=
  Await (SignInWithPassword email password) (fun answer =>
    match answer with
    | Rejected e => Finished (Thrown e)
    | Resolved r =>
        match r_error r with
        | Some msg => Finished (Thrown (ProviderError msg))
        | None =>
            match r_session r with
            | None =>
                SetState (fun _ => cleared) (Finished (ReturnedBool false))
            | Some s =>
                findAccountRow (r_user r) (fun accountRow =>
                  Resume
                    (SetState
                       (fun _ => {| session := Some s;
                                    user := r_user r;
                                    account := enrich accountRow;
                                    isAuthenticated := true |})
                       (Finished (ReturnedBool true))))
            end
        end
    end).

Definition logout : Task :=
  Await SignOut (fun answer =>
    match answer with
    | Rejected e => Finished (Thrown e)
    | Resolved _ => SetState (fun _ => cleared) (Finished Returned)
    end).

(** [set({ account: mappedAccount })] *)
Definition set_account (a : Account) (st : AuthState) : AuthState :=
  {| session := session st;
     user := user st;
     account := Some a;
     isAuthenticated := isAuthenticated st |}.

Definition updateAccount (changes : gmap string jsval) : Task :=
  GetState (fun st =>
    match user st with
    | None => Finished (ThrownError "Not authenticated")
    | Some u =>
        match account st with
        | None => Finished (ThrownError "Account not loaded")
        | Some a =>
            Await (Update {| patch := patch_of changes;
                             filter := filter_for u a |})
              (fun answer =>
                 match answer with
                 | Rejected e => Finished (Thrown e)
                 | Resolved r =>
                     match u_error r with
                     | Some msg => Finished (Thrown (ProviderError msg))
                     | None =>
                         if nullish (u_data r) then Finished (Thrown TypeError)
                         else
                           SetState (set_account (mapRowToAccount (u_data r)))
                             (Finished
                                (ReturnedAccount (mapRowToAccount (u_data r))))
                     end
                 end)
        end
    end).

Definition task_of (a : Action) : Task :=
  match a with
  | CheckSession => checkSession
  | Login email password => login email password
  | Logout => logout
  | UpdateAccount changes => updateAccount changes
  end.

(** Running a task up to its next suspension, or to its end. *)
Fixpoint advance (t : Task) (st : AuthState) : AuthState * Task :=
  match t with
  | GetState k => advance (k st) st
  | SetState f k => advance k (f st)
  | _ => (st, t)
  end.

(** The state of the store with the calls that are under way. *)
Record System : Type := {
  state : AuthState;
  calls : list Task;
}.

(** The call at position [i] goes on as [t], up to its next suspension. *)
Definition resumed (t : Task) (i : nat) (s : System) : System :=
  {| state := (advance t (state s)).1;
     calls := <[i := (advance t (state s)).2]> (calls s) |}.

(** What may happen next: an action is called and runs up to its first
    await; the provider settles the promise a call is waiting for, in
    either way, and the call goes on; a call that awaits the result of
    [findAccountRow] goes on. *)
Inductive step : System -> System -> Prop :=
| step_call (a : Action) (s : System) :
    step s {| state := (advance (task_of a) (state s)).1;
              calls := (calls s ++ [(advance (task_of a) (state s)).2])%list |}
| step_settle (i : nat) (A : Type) (r : Request A) (k : Outcome A -> Task)
    (answer : Outcome A) (s : System) :
    calls s !! i = Some (Await r k) ->
    step s (resumed (k answer) i s)
| step_resume (i : nat) (k : Task) (s : System) :
    calls s !! i = Some (Resume k) ->
    step s (resumed k i s).

(** [isAuthenticated] tells whether a session is held, and a user is held
    only with a session. *)
Definition session_coherent (st : AuthState) : bool :=
  Bool.eqb (isAuthenticated st) (is_some (session st))
  && implb (is_some (user st)) (is_some (session st)).

(** Every [set] the task may still make keeps [session_coherent]. *)
Fixpoint safe (t : Task) : Prop :=
  match t with
  | Finished _ => True
  | Await _ k => forall answer, safe (k answer)
  | Resume k => safe k
  | GetState k => forall st, safe (k st)
  | SetState f k =>
      (forall st, session_coherent st = true -> session_coherent (f st) = true)
      /\ safe k
  end.

(** *** A call that runs alone

    When no other call runs between its awaits, a call sees the answers
    the provider gives to its own requests one after the other. *)

Definition answer (P : Provider) (U : Updater) {A : Type} (r : Request A)
    (w : World) : Outcome A :=
  match r in Request T return Outcome T with
  | GetSession => getSession P (history (base w))
  | SignInWithPassword email password =>
      signInWithPassword P (history (base w)) email password
  | SignOut => signOut P (history (base w))
  | Select column value => select_eq P (history (base w)) column value
  | Update c => U (history (base w)) (updates w) c
  end.

Definition logged {A : Type} (r : Request A) (w : World) : World :=
  match r with
  | GetSession => on_base (AuthRuns.called CallGetSession) w
  | SignInWithPassword email password =>
      on_base (AuthRuns.called (CallSignIn email password)) w
  | SignOut => on_base (AuthRuns.called CallSignOut) w
  | Select column value => on_base (AuthRuns.called (CallSelect column value)) w
  | Update c => sent c w
  end.

Definition put (f : AuthState -> AuthState) (w : World) : World :=
  on_base (fun b => {| auth := f (auth b); history := history b |}) w.

Fixpoint run (P : Provider) (U : Updater) (t : Task) (w : World)
    : Result * World :=
  match t with
  | Finished r => (r, w)
  | Await r k => run P U (k (answer P U r w)) (logged r w)
  | Resume k => run P U k w
  | GetState k => run P U (k (auth (base w))) w
  | SetState f k => run P U k (put f w)
  end.

(** Calls made one after the other, each awaited before the next is
    made. *)
Fixpoint sequence (P : Provider) (U : Updater) (acts : list Action)
    (w : World) : World :=
  match acts with
  | [] => w
  | a :: acts' => sequence P U acts' (run P U (task_of a) w).2
  end.

End Async.

(** * Properties *)

(** ** The platform functions on known values *)

Example RefJSON_parse_empty : RefJSON.parse "" = None.
Proof. reflexivity. Qed.

Example RefJSON_parse_garbage : RefJSON.parse "{not json" = None.
Proof. vm_compute. reflexivity. Qed.

Example RefJSON_parse_array :
  RefJSON.parse "[1, true, null, [ ], {}]"
  = Some (VArr [VNum 1; VBool true; VNull; VArr []; VObj ∅]).
Proof. vm_compute. reflexivity. Qed.

Example RefJSON_roundtrip_object :
  let v := VObj (<["profiles" := VArr [VObj {["id" := VStr "a-1"]}]]>
                (<["currentProfileId" := VNull]>
                (<["updatedAt" := VStr "2024-02-29T12:34:56.789Z"]> ∅))) in
  RefJSON.parse (RefJSON.stringify v) = Some v.
Proof. vm_compute. reflexivity. Qed.

Example RefJSON_roundtrip_escapes :
  let v := VStr (String RefJSON.dquote (String RefJSON.backslash
                  (String (ascii_of_nat 10) (String (ascii_of_nat 1) "x")))) in
  RefJSON.parse (RefJSON.stringify v) = Some v.
Proof. vm_compute. reflexivity. Qed.

Example toString36_35 : toString36 35 = "z".
Proof. reflexivity. Qed.

Example toString36_1296 : toString36 1296 = "100".
Proof. reflexivity. Qed.

Example toISOString_epoch : toISOString 0 = "1970-01-01T00:00:00.000Z".
Proof. vm_compute. reflexivity. Qed.

Example toISOString_2023 :
  toISOString 1700000000123 = "2023-11-14T22:13:20.123Z".
Proof. vm_compute. reflexivity. Qed.

Example toISOString_leap :
  toISOString 1709210096789 = "2024-02-29T12:34:56.789Z".
Proof. vm_compute. reflexivity. Qed.

Example slice_short : slice 2 8 "0.4fzy" = "4fzy".
Proof. reflexivity. Qed.

(** ** Sequencing *)

Lemma bind_Ok {W A B} (m : M W A) (k : A -> M W B) w a w' :
  m w = (Ok a, w') -> bind m k w = k a w'.
Proof. intros Hm. unfold bind. rewrite Hm. reflexivity. Qed.

Lemma bind_Throw {W A B} (m : M W A) (k : A -> M W B) w e w' :
  m w = (Throw e, w') -> bind m k w = (Throw e, w').
Proof. intros Hm. unfold bind. rewrite Hm. reflexivity. Qed.

(** ** The persistence adapter never throws *)

Section AdapterRuns.

Import Profiles Adapter.

Variable E : Env.

Lemma saveToStorage_run userId payload w :
  saveToStorage E userId payload w
  = (Ok tt, saved E (storageKey userId) (JSON_stringify E payload) w).
Proof.
  unfold saveToStorage, try_catch, setItem, saved.
  destruct (quota_ok E _ _ _); reflexivity.
Qed.

Lemma loadFromStorage_run userId w :
  loadFromStorage E userId w
  = (Ok (loaded E (localStorage w !! storageKey userId)),
     read (storageKey userId) w).
Proof.
  unfold loadFromStorage, try_catch, bind, getItem, loaded, read, parse.
  destruct (localStorage w !! storageKey userId) as [raw|]; [|reflexivity].
  destruct (bool_decide (raw = "")); [reflexivity|].
  destruct (JSON_parse E raw) as [parsed|]; [|reflexivity].
  unfold ret at 1.
  destruct parsed as [| |b|n|s|xs|o]; simpl; try reflexivity.
  - destruct b; reflexivity.
  - destruct (n =? 0)%Z; reflexivity.
  - destruct (bool_decide (s = "")); reflexivity.
  - destruct (default VUndef (o !! "profiles")); reflexivity.
Qed.

Lemma new_Date_toISOString_run w :
  new_Date_toISOString E w = (Ok (toISOString (clock E (ticks w))), ticked w).
Proof. reflexivity. Qed.

End AdapterRuns.

(** ** Hydration *)

Section HydrationRuns.

Import Profiles Adapter Hydration.

Variable E : Env.

Lemma ensureLoaded_same userId w :
  loadedForUserId (store w) = Some userId ->
  ensureLoaded E userId w = (Ok tt, w).
Proof.
  intros Hl. unfold ensureLoaded, bind, get, gets.
  rewrite bool_decide_eq_true_2 by exact Hl. reflexivity.
Qed.

Lemma ensureLoaded_other userId w :
  loadedForUserId (store w) <> Some userId ->
  ensureLoaded E userId w = (Ok tt, ensured E userId w).
Proof.
  intros Hl. unfold ensureLoaded, bind at 1, get, gets.
  rewrite bool_decide_eq_false_2 by exact Hl.
  unfold bind at 1. rewrite loadFromStorage_run. unfold ensured.
  destruct (loaded E (localStorage w !! storageKey userId)) as [p|].
  - reflexivity.
  - unfold bind, set, modify. rewrite new_Date_toISOString_run.
    rewrite saveToStorage_run. reflexivity.
Qed.

Lemma ensured_loadedFor userId w :
  loadedForUserId (store (ensured E userId w)) = Some userId.
Proof.
  unfold ensured.
  destruct (loaded E (localStorage w !! storageKey userId)); reflexivity.
Qed.

End HydrationRuns.

(** C1. Idempotent hydration: when [loadedForUserId] already equals the
    account id, [ensureLoaded] returns and leaves the whole world as it
    was: the store, the storage and the log of storage calls, so no
    [getItem] was issued.  Hence, from any world, the first call returns and
    leaves the account loaded, and a second call in succession changes
    nothing: twice is the same as once. *)
Theorem ensureLoaded_idempotent (E : Profiles.Env) (A : string)
    (w : Profiles.World) :
  (Profiles.loadedForUserId (Profiles.store w) = Some A ->
   Profiles.ensureLoaded E A w = (Ok tt, w))
  /\ (let w1 := after (Profiles.ensureLoaded E A) w in
      result (Profiles.ensureLoaded E A) w = Ok tt
      /\ Profiles.loadedForUserId (Profiles.store w1) = Some A
      /\ Profiles.ensureLoaded E A w1 = (Ok tt, w1)
      /\ Profiles.calls (after (Profiles.ensureLoaded E A) w1) = Profiles.calls w1).
Proof.
  split; [apply ensureLoaded_same|].
  assert (Hfirst : Profiles.ensureLoaded E A w
                   = (Ok tt, after (Profiles.ensureLoaded E A) w)
                   /\ Profiles.loadedForUserId
                        (Profiles.store (after (Profiles.ensureLoaded E A) w))
                      = Some A).
  { unfold after.
    destruct (decide (Profiles.loadedForUserId (Profiles.store w) = Some A))
      as [Hl|Hl].
    - rewrite (ensureLoaded_same E A w Hl). split; [reflexivity|exact Hl].
    - rewrite (ensureLoaded_other E A w Hl). split; [reflexivity|].
      apply ensured_loadedFor. }
  destruct Hfirst as [Hrun Hl]. cbv zeta.
  pose proof (ensureLoaded_same E A _ Hl) as Hsecond.
  repeat split.
  - unfold result. rewrite Hrun. reflexivity.
  - exact Hl.
  - exact Hsecond.
  - unfold after at 1. rewrite Hsecond. reflexivity.
Qed.

Lemma ensureLoaded_idempotent_witness :
  Profiles.ensureLoaded (Ref.env Ref.ticking) "acct-1" Scenario.one_profile
  = (Ok tt, Scenario.one_profile).
Proof.
  apply (proj1 (ensureLoaded_idempotent (Ref.env Ref.ticking) "acct-1"
                  Scenario.one_profile)).
  reflexivity.
Defined.

(** ** Adding profiles *)

(** Runs the store's monadic code up to the calls of the adapter. *)
Ltac run_store :=
  unfold Profiles.new_Date_toISOString, bind, ret, Profiles.get, gets,
    Profiles.set, modify, Profiles.Date_now, Profiles.Math_random_toString36;
  cbn -[Profiles.saveToStorage Profiles.loadFromStorage toISOString
        toString36 slice Profiles.PersistedProfiles coalesce lookup_prop
        String.append].

Section AddRuns.

Import Profiles Adapter Runs.

Variable E : Env.

Lemma addProfile_run userId data w :
  addProfile E userId data w = (Ok (newProfile E data w), added E userId data w).
Proof.
  unfold addProfile, uid. run_store.
  rewrite saveToStorage_run. reflexivity.
Qed.

Lemma newProfile_id data w :
  data !! "id" = None ->
  lookup_prop (newProfile E data w) "id" = VStr (uidAt E w).
Proof.
  intros Hd. unfold newProfile, lookup_prop.
  rewrite !lookup_insert_ne by discriminate.
  rewrite lookup_union_r by exact Hd.
  rewrite lookup_singleton_eq. reflexivity.
Qed.

Lemma added_selection userId data w :
  currentProfileId (store (added E userId data w))
  = coalesce (currentProfileId (store w)) (lookup_prop (newProfile E data w) "id").
Proof. reflexivity. Qed.

Lemma added_keeps_selection userId data w :
  nullish (currentProfileId (store w)) = false ->
  currentProfileId (store (added E userId data w)) = currentProfileId (store w).
Proof.
  intros Hn. rewrite added_selection. unfold coalesce. rewrite Hn. reflexivity.
Qed.

Lemma addAll_keeps_selection reqs w :
  nullish (currentProfileId (store w)) = false ->
  (exists ps, result (addAll E reqs) w = Ok ps /\ length ps = length reqs)
  /\ currentProfileId (store (after (addAll E reqs) w))
     = currentProfileId (store w).
Proof.
  revert w. induction reqs as [|[u d] reqs IH]; intros w Hn.
  - split; [exists []; split; reflexivity|reflexivity].
  - assert (Hstep : addAll E ((u, d) :: reqs) w
                    = bind (addAll E reqs)
                        (fun ps => ret (newProfile E d w :: ps))
                        (added E u d w)).
    { unfold addAll. cbn [mapM fst snd].
      rewrite (bind_Ok _ _ _ _ _ (addProfile_run u d w)). reflexivity. }
    pose proof (added_keeps_selection u d w Hn) as Hk.
    assert (Hn' : nullish (currentProfileId (store (added E u d w))) = false)
      by (rewrite Hk; exact Hn).
    destruct (IH _ Hn') as [[ps [Hr Hlen]] Hcur].
    unfold result, after in *. rewrite Hstep. unfold bind.
    destruct (addAll E reqs (added E u d w)) as [[ps'|e] w'];
      cbn [fst snd] in *; [|discriminate].
    inversion Hr; subst ps'. unfold ret. cbn [fst snd]. split.
    + exists (newProfile E d w :: ps). split; [reflexivity|].
      cbn [length]. rewrite Hlen. reflexivity.
    + rewrite Hcur. exact Hk.
Qed.

End AddRuns.

(** C4. First-profile-is-default selection: in a sequence of [addProfile]
    calls that starts with no selection ([currentProfileId] null), the
    first call, whose data carries no [id] of its own as its type demands,
    returns a profile with a generated identifier and selects it; all the
    calls that follow return, and the selection is still that identifier
    after them. *)
Theorem addProfile_first_is_default (E : Profiles.Env) (w : Profiles.World)
    (u : string) (d : gmap string jsval)
    (rest : list (string * gmap string jsval)) :
  Profiles.currentProfileId (Profiles.store w) = VNull ->
  d !! "id" = None ->
  let w1 := after (Profiles.addProfile E u d) w in
  exists p i,
    result (Profiles.addProfile E u d) w = Ok p
    /\ lookup_prop p "id" = VStr i
    /\ Profiles.currentProfileId (Profiles.store w1) = VStr i
    /\ (exists ps, result (Runs.addAll E rest) w1 = Ok ps
                   /\ length ps = length rest)
    /\ Profiles.currentProfileId (Profiles.store (after (Runs.addAll E rest) w1))
       = VStr i.
Proof.
  intros Hnull Hd w1. subst w1. unfold result, after.
  rewrite addProfile_run. cbn [fst snd].
  exists (Runs.newProfile E d w), (Runs.uidAt E w).
  assert (Hsel : Profiles.currentProfileId
                   (Profiles.store (Runs.added E u d w))
                 = VStr (Runs.uidAt E w)).
  { rewrite added_selection, Hnull, newProfile_id by exact Hd. reflexivity. }
  assert (Hn : nullish (Profiles.currentProfileId
                          (Profiles.store (Runs.added E u d w))) = false)
    by (rewrite Hsel; reflexivity).
  destruct (addAll_keeps_selection E rest _ Hn) as [Hps Hkeep].
  repeat split.
  - apply newProfile_id, Hd.
  - exact Hsel.
  - exact Hps.
  - unfold after in Hkeep. rewrite Hkeep. exact Hsel.
Qed.

Lemma addProfile_first_is_default_witness :
  exists p i,
    result (Profiles.addProfile (Ref.env Ref.ticking) "acct-1" Ref.ada_owned)
      Ref.fresh = Ok p
    /\ lookup_prop p "id" = VStr i
    /\ Profiles.currentProfileId
         (Profiles.store
            (after (Profiles.addProfile (Ref.env Ref.ticking) "acct-1"
                      Ref.ada_owned) Ref.fresh))
       = VStr i
    /\ (exists ps,
          result (Runs.addAll (Ref.env Ref.ticking) [("acct-1", Ref.grace)])
            (after (Profiles.addProfile (Ref.env Ref.ticking) "acct-1"
                      Ref.ada_owned) Ref.fresh) = Ok ps
          /\ length ps = 1)
    /\ Profiles.currentProfileId
         (Profiles.store
            (after (Runs.addAll (Ref.env Ref.ticking) [("acct-1", Ref.grace)])
               (after (Profiles.addProfile (Ref.env Ref.ticking) "acct-1"
                         Ref.ada_owned) Ref.fresh)))
       = VStr i.
Proof.
  apply (addProfile_first_is_default (Ref.env Ref.ticking) Ref.fresh "acct-1"
           Ref.ada_owned [("acct-1", Ref.grace)]).
  - reflexivity.
  - vm_compute. reflexivity.
Defined.

(** C10. [addProfile] rebinds the collection to the account id it is
    given: whatever account was loaded before (or none), it returns, the
    store is then marked as loaded for the supplied id and holds the
    profiles that were in memory followed by the new one; exactly one
    storage call is made, a write of that whole collection under the
    supplied account's key, and the storage holds it there unless it
    refuses the write. *)
Theorem addProfile_rebinds (E : Profiles.Env) (u : string)
    (d : gmap string jsval) (w : Profiles.World) :
  let w' := after (Profiles.addProfile E u d) w in
  let p := Runs.newProfile E d w in
  let next := (Profiles.profiles (Profiles.store w) ++ [p])%list in
  let text :=
    Profiles.JSON_stringify E
      (Profiles.PersistedProfiles next
         (Profiles.currentProfileId (Profiles.store w'))
         (toISOString (Profiles.clock E (3 + Profiles.ticks w)))) in
  result (Profiles.addProfile E u d) w = Ok p
  /\ Profiles.loadedForUserId (Profiles.store w') = Some u
  /\ Profiles.profiles (Profiles.store w') = next
  /\ Profiles.calls w'
     = (Profiles.calls w ++ [Profiles.SetItem (Profiles.storageKey u) text])%list
  /\ Profiles.localStorage w'
     = (if Profiles.quota_ok E (Profiles.localStorage w)
             (Profiles.storageKey u) text
        then <[Profiles.storageKey u := text]> (Profiles.localStorage w)
        else Profiles.localStorage w)
  /\ (Profiles.quota_ok E (Profiles.localStorage w) (Profiles.storageKey u) text
      = true ->
      Profiles.localStorage w' !! Profiles.storageKey u = Some text).
Proof.
  cbv zeta. unfold result, after. rewrite addProfile_run. cbn [fst snd].
  repeat split.
  intros Hq. rewrite added_selection in Hq |- *.
  unfold Runs.added, Adapter.saved. cbn [Profiles.localStorage].
  rewrite Hq. apply lookup_insert_eq.
Qed.

Lemma addProfile_rebinds_witness :
  Profiles.loadedForUserId (Profiles.store Rebinding.other_loaded)
  = Some "acct-2"
  /\ Profiles.loadedForUserId (Profiles.store Rebinding.rebound) = Some "acct-1"
  /\ map Typed.owner (Profiles.profiles (Profiles.store Rebinding.rebound))
     = [VStr "acct-2"; VStr "acct-1"]
  /\ Rebinding.stored_owners "acct-1" Rebinding.rebound
     = Some [VStr "acct-2"; VStr "acct-1"].
Proof.
  pose proof (addProfile_rebinds (Ref.env Ref.ticking) "acct-1" Ref.ada_owned
                Rebinding.other_loaded) as H.
  cbv zeta in H. destruct H as (_ & Hl & Hps & _ & _ & Hstored).
  split; [reflexivity|]. split; [exact Hl|].
  split; [unfold Rebinding.rebound; rewrite Hps; vm_compute; reflexivity|].
  unfold Rebinding.stored_owners, Rebinding.rebound.
  rewrite (Hstored eq_refl). vm_compute. reflexivity.
Defined.

(** ** The reference codec reads back what it writes *)

(** Decides the tests on a known character at the head of the goal. *)
Ltac known_char :=
  repeat match goal with
         | |- context [(N_of_ascii ?c =? ?n)%N] =>
             let b := eval vm_compute in (N_of_ascii c =? n)%N in
             change (N_of_ascii c =? n)%N with b; cbv beta iota
         end.

Section Codec.

Import RefJSON JSONValues.

Lemma append_assoc (a b c : string) : (a +:+ b) +:+ c = a +:+ (b +:+ c).
Proof.
  induction a as [|x a IH]; [reflexivity|].
  change (String x ((a +:+ b) +:+ c) = String x (a +:+ (b +:+ c))).
  f_equal. exact IH.
Qed.

Lemma parse_chars_step c t s rest :
  parse_chars t = Some (s, rest) ->
  parse_chars (escape_char c +:+ t) = Some (String c s, rest).
Proof.
  intros Ht.
  destruct c as [[] [] [] [] [] [] [] []]; simpl;
    change (EmptyString +:+ t) with t; rewrite Ht; reflexivity.
Qed.

Lemma parse_chars_escape s rest :
  parse_chars (escape s +:+ String dquote rest) = Some (s, rest).
Proof.
  induction s as [|c s IH]; [reflexivity|].
  cbn [escape]. rewrite append_assoc. apply parse_chars_step, IH.
Qed.

Lemma length_append (a b : string) :
  String.length (a +:+ b) = String.length a + String.length b.
Proof.
  induction a as [|x a IH]; [reflexivity|].
  change (S (String.length (a +:+ b)) = S (String.length a + String.length b)).
  rewrite IH. reflexivity.
Qed.

Lemma append_nil_r (a : string) : a +:+ "" = a.
Proof.
  induction a as [|x a IH]; [reflexivity|].
  change (String x (a +:+ "") = String x a). rewrite IH. reflexivity.
Qed.

Lemma clean_obj o :
  clean (VObj o) = forallb (fun kx => clean kx.2) (map_to_list o).
Proof.
  cbn [clean]. rewrite map_fold_foldr.
  induction (map_to_list o) as [|[k x] l IH]; [reflexivity|].
  cbn [foldr forallb uncurry snd]. rewrite IH. reflexivity.
Qed.

Lemma size_obj o :
  size (VObj o) = S (list_sum (map (fun kx => size kx.2) (map_to_list o))).
Proof.
  cbn [size]. rewrite map_fold_foldr. f_equal.
  induction (map_to_list o) as [|[k x] l IH]; [reflexivity|].
  cbn [foldr map list_sum uncurry snd]. rewrite IH. reflexivity.
Qed.

Lemma clean_defined x : clean x = true -> x <> VUndef.
Proof. intros Hc ->. discriminate Hc. Qed.

Lemma stringify_obj o :
  clean (VObj o) = true ->
  stringify (VObj o) = "{" +:+ join "," (map member (map_to_list o)) +:+ "}".
Proof.
  rewrite clean_obj. intros Hc. cbn [stringify]. rewrite map_fold_foldr.
  f_equal. f_equal. f_equal.
  induction (map_to_list o) as [|[k x] l IH]; [reflexivity|].
  cbn [forallb snd] in Hc. apply andb_true_iff in Hc as [Hx Hl].
  cbn [foldr map uncurry]. rewrite (IH Hl).
  destruct x; try reflexivity. discriminate Hx.
Qed.

Lemma stringify_head v :
  clean v = true ->
  exists c t, stringify v = String c t
              /\ is_ws c = false
              /\ (N_of_ascii c =? 93)%N = false.
Proof.
  intros Hc. destruct v as [| |b|n|s|xs|o]; try discriminate Hc.
  - eexists _, _. repeat split; reflexivity.
  - destruct b; eexists _, _; repeat split; reflexivity.
  - eexists _, _. repeat split; reflexivity.
  - eexists _, _. repeat split; reflexivity.
  - rewrite (stringify_obj o Hc). eexists _, _. repeat split; reflexivity.
Qed.

Lemma skip_ws_head c t : is_ws c = false -> skip_ws (String c t) = String c t.
Proof. intros Hc. cbn [skip_ws]. rewrite Hc. reflexivity. Qed.

Section Sequences.

Variable value : string -> option (jsval * string).

Lemma parse_elements_join xs :
  forall acc fuel rest,
    xs <> [] ->
    length xs <= fuel ->
    (forall x, x ∈ xs -> forall r, value (stringify x +:+ r) = Some (x, r)) ->
    parse_elements value fuel
      (join "," (map stringify xs) +:+ String "]" rest) acc
    = Some ((rev acc ++ xs)%list, rest).
Proof.
  induction xs as [|x xs IH]; intros acc fuel rest Hne Hlen Hval; [done|].
  destruct fuel as [|fuel]; [cbn [length] in Hlen; lia|].
  cbn [length] in Hlen.
  destruct xs as [|y xs].
  - cbn [map join parse_elements].
    rewrite (Hval x) by (apply list_elem_of_here).
    cbn [mbind option_bind]. rewrite skip_ws_head by reflexivity.
    known_char. reflexivity.
  - change (join "," (map stringify (x :: y :: xs)))
      with (stringify x +:+ "," +:+ join "," (map stringify (y :: xs))).
    rewrite !append_assoc. cbn [parse_elements].
    rewrite (Hval x) by (apply list_elem_of_here).
    change ("," +:+ join "," (map stringify (y :: xs)) +:+ String "]" rest)
      with (String "," (join "," (map stringify (y :: xs)) +:+ String "]" rest)).
    cbn [mbind option_bind]. rewrite skip_ws_head by reflexivity.
    known_char.
    rewrite (IH (x :: acc) fuel rest); [| done | lia |].
    + cbn [rev]. rewrite <- app_assoc. reflexivity.
    + intros z Hz. apply Hval. apply list_elem_of_further, Hz.
Qed.

Lemma parse_members_join l :
  forall acc fuel rest,
    l <> [] ->
    length l <= fuel ->
    (forall kx, kx ∈ l ->
       forall r, value (stringify kx.2 +:+ r) = Some (kx.2, r)) ->
    parse_members value fuel
      (join "," (map member l) +:+ String "}" rest) acc
    = Some (fold_left (fun m kx => <[kx.1 := kx.2]> m) l acc, rest).
Proof.
  induction l as [|[k x] l IH]; intros acc fuel rest Hne Hlen Hval; [done|].
  destruct fuel as [|fuel]; [cbn [length] in Hlen; lia|].
  cbn [length] in Hlen.
  assert (Hstep : forall tail,
            parse_members value (S fuel) (member (k, x) +:+ tail) acc
            = match skip_ws tail with
              | String c rest' =>
                  if (N_of_ascii c =? 44)%N
                  then parse_members value fuel rest' (<[k := x]> acc)
                  else if (N_of_ascii c =? 125)%N
                       then Some (<[k := x]> acc, rest')
                       else None
              | EmptyString => None
              end).
  { intros tail. unfold member, quote. cbn [fst snd].
    change (String dquote (escape k +:+ String dquote "") +:+ ":" +:+ stringify x)
      with (String dquote ((escape k +:+ String dquote "") +:+ ":" +:+ stringify x)).
    change (String dquote ((escape k +:+ String dquote "") +:+ ":" +:+ stringify x)
            +:+ tail)
      with (String dquote (((escape k +:+ String dquote "") +:+ ":" +:+ stringify x)
                           +:+ tail)).
    rewrite !append_assoc.
    change (String dquote "" +:+ ":" +:+ stringify x +:+ tail)
      with (String dquote (String ":" (stringify x +:+ tail))).
    cbn [parse_members]. rewrite skip_ws_head by reflexivity.
    known_char. rewrite parse_chars_escape. cbn [mbind option_bind].
    rewrite skip_ws_head by reflexivity. known_char.
    rewrite (Hval (k, x)) by (apply list_elem_of_here).
    reflexivity. }
  destruct l as [|[k' y] l].
  - cbn [map join]. rewrite Hstep. rewrite skip_ws_head by reflexivity.
    known_char. reflexivity.
  - change (join "," (map member ((k, x) :: (k', y) :: l)))
      with (member (k, x) +:+ "," +:+ join "," (map member ((k', y) :: l))).
    rewrite !append_assoc. rewrite Hstep.
    change ("," +:+ join "," (map member ((k', y) :: l)) +:+ String "}" rest)
      with (String "," (join "," (map member ((k', y) :: l))
                        +:+ String "}" rest)).
    rewrite skip_ws_head by reflexivity. known_char.
    rewrite (IH (<[k := x]> acc) fuel rest); [reflexivity | done | lia |].
    intros z Hz. apply Hval. apply list_elem_of_further, Hz.
Qed.

End Sequences.

Lemma fold_left_insert_lookup (l : list (string * jsval)) :
  forall (acc : gmap string jsval) k,
    NoDup l.*1 ->
    fold_left (fun m kx => <[kx.1 := kx.2]> m) l acc !! k
    = match (list_to_map l : gmap string jsval) !! k with
      | Some x => Some x
      | None => acc !! k
      end.
Proof.
  induction l as [|[k' x] l IH]; intros acc k Hnd; [reflexivity|].
  cbn [fold_left fmap list_fmap fst snd] in *.
  apply NoDup_cons in Hnd as [Hk' Hnd].
  rewrite (IH _ _ Hnd).
  change (list_to_map ((k', x) :: l)) with (<[k' := x]> (list_to_map l : gmap string jsval)).
  destruct (decide (k' = k)) as [->|Hne].
  - rewrite (lookup_insert_eq (list_to_map l)).
    rewrite (not_elem_of_list_to_map_1 l k Hk'). apply lookup_insert_eq.
  - rewrite !lookup_insert_ne by exact Hne. reflexivity.
Qed.

Lemma fold_left_insert_map_to_list (o : gmap string jsval) :
  fold_left (fun m kx => <[kx.1 := kx.2]> m) (map_to_list o) ∅ = o.
Proof.
  apply map_eq. intros k.
  rewrite fold_left_insert_lookup by apply NoDup_fst_map_to_list.
  rewrite list_to_map_to_list, lookup_empty.
  destruct (o !! k); reflexivity.
Qed.

Lemma length_join_ge (parts : list string) :
  Forall (fun p => 1 <= String.length p) parts ->
  length parts <= String.length (join "," parts).
Proof.
  induction 1 as [|p parts Hp _ IH]; [reflexivity|].
  destruct parts as [|q parts]; [cbn [join length]; lia|].
  change (join "," (p :: q :: parts)) with (p +:+ "," +:+ join "," (q :: parts)).
  rewrite !length_append. cbn [length] in *. lia.
Qed.

Lemma stringify_nonempty v : clean v = true -> 1 <= String.length (stringify v).
Proof.
  intros Hc. destruct (stringify_head v Hc) as (c & t & -> & _).
  cbn [String.length]. lia.
Qed.

Lemma size_elem x xs : x ∈ xs -> size x <= list_sum (map size xs).
Proof.
  induction 1 as [x xs|x y xs _ IH]; simpl; lia.
Qed.

Lemma size_member (kx : string * jsval) l :
  kx ∈ l -> size kx.2 <= list_sum (map (fun kx => size kx.2) l).
Proof.
  induction 1 as [x xs|x y xs _ IH]; simpl; lia.
Qed.

Lemma parse_value_stringify fuel :
  forall v rest,
    clean v = true ->
    size v <= fuel ->
    parse_value fuel (stringify v +:+ rest) = Some (v, rest).
Proof.
  induction fuel as [|fuel IH]; intros v rest Hc Hsize.
  { destruct v; cbn [size] in Hsize; lia. }
  destruct v as [| |b|n|s|xs|o]; try discriminate Hc.
  - reflexivity.
  - destruct b; reflexivity.
  - cbn [stringify]. unfold quote.
    change (String dquote (escape s +:+ String dquote "") +:+ rest)
      with (String dquote ((escape s +:+ String dquote "") +:+ rest)).
    rewrite append_assoc.
    change (String dquote "" +:+ rest) with (String dquote rest).
    cbn [parse_value]. rewrite skip_ws_head by reflexivity. cbv zeta.
    known_char. rewrite parse_chars_escape. reflexivity.
  - destruct xs as [|x xs]; [reflexivity|].
    cbn [clean] in Hc. cbn [size] in Hsize.
    cbn [stringify].
    change ("[" +:+ join "," (map stringify (x :: xs)) +:+ "]")
      with (String "[" (join "," (map stringify (x :: xs)) +:+ "]")).
    change (String "[" (join "," (map stringify (x :: xs)) +:+ "]") +:+ rest)
      with (String "[" ((join "," (map stringify (x :: xs)) +:+ "]") +:+ rest)).
    rewrite append_assoc. change ("]" +:+ rest) with (String "]" rest).
    cbn [parse_value]. rewrite skip_ws_head by reflexivity. cbv zeta.
    known_char.
    assert (Hx : clean x = true)
      by (cbn [forallb] in Hc; apply andb_true_iff in Hc; tauto).
    destruct (stringify_head x Hx) as (c & t & Hhead & Hws & Hbr).
    assert (Hjoin : exists t', join "," (map stringify (x :: xs))
                               +:+ String "]" rest = String c t').
    { destruct xs as [|y xs].
      - cbn [map join]. rewrite Hhead. eexists. reflexivity.
      - change (join "," (map stringify (x :: y :: xs)))
          with (stringify x +:+ "," +:+ join "," (map stringify (y :: xs))).
        rewrite Hhead. eexists. reflexivity. }
    destruct Hjoin as [t' Hjoin].
    rewrite Hjoin at 1. rewrite skip_ws_head by exact Hws. rewrite Hbr.
    rewrite parse_elements_join; [reflexivity | done | |].
    + rewrite length_append. cbn [String.length].
      pose proof (length_join_ge (map stringify (x :: xs))) as Hlen.
      rewrite length_map in Hlen. cut (length (x :: xs)
        <= String.length (join "," (map stringify (x :: xs)))); [lia|].
      apply Hlen. apply Forall_map, Forall_forall. intros y Hy.
      apply stringify_nonempty.
      apply (proj1 (forallb_forall clean (x :: xs)) Hc).
      apply list_elem_of_In, Hy.
    + intros y Hy r. apply IH.
      * apply (proj1 (forallb_forall clean (x :: xs)) Hc).
        apply list_elem_of_In, Hy.
      * pose proof (size_elem y (x :: xs) Hy). lia.
  - rewrite (stringify_obj o Hc). rewrite size_obj in Hsize.
    pose proof Hc as Hcl. rewrite clean_obj in Hcl.
    destruct (map_to_list o) as [|[k x] l] eqn:Hl.
    + apply map_to_list_empty_iff in Hl. subst o. reflexivity.
    + change ("{" +:+ join "," (map member ((k, x) :: l)) +:+ "}")
        with (String "{" (join "," (map member ((k, x) :: l)) +:+ "}")).
      change (String "{" (join "," (map member ((k, x) :: l)) +:+ "}") +:+ rest)
        with (String "{" ((join "," (map member ((k, x) :: l)) +:+ "}") +:+ rest)).
      rewrite append_assoc. change ("}" +:+ rest) with (String "}" rest).
      cbn [parse_value]. rewrite skip_ws_head by reflexivity. cbv zeta.
      known_char.
      assert (Hjoin : exists t', join "," (map member ((k, x) :: l))
                                 +:+ String "}" rest = String dquote t').
      { destruct l as [|[k' y] l]; eexists; reflexivity. }
      destruct Hjoin as [t' Hjoin].
      rewrite Hjoin at 1. rewrite skip_ws_head by reflexivity. known_char.
      rewrite parse_members_join; [| done | |].
      * rewrite <- Hl, fold_left_insert_map_to_list. reflexivity.
      * rewrite length_append. cbn [String.length].
        pose proof (length_join_ge (map member ((k, x) :: l))) as Hlen.
        rewrite length_map in Hlen. cut (length ((k, x) :: l)
          <= String.length (join "," (map member ((k, x) :: l)))); [lia|].
        apply Hlen. apply Forall_map, Forall_forall. intros kx _.
        unfold member, quote. rewrite !length_append. cbn [String.length]. lia.
      * intros kx Hkx r. apply IH.
        -- apply (proj1 (forallb_forall _ ((k, x) :: l)) Hcl kx).
           apply list_elem_of_In, Hkx.
        -- pose proof (size_member kx ((k, x) :: l) Hkx). lia.
Qed.

Lemma sum_le_join (ws : list nat) (parts : list string) :
  Forall2 (fun w p => w <= String.length p) ws parts ->
  list_sum ws <= String.length (join "," parts).
Proof.
  induction 1 as [|w p ws parts Hw Hrest IH]; [reflexivity|].
  destruct parts as [|q parts].
  - apply Forall2_nil_inv_r in Hrest. subst ws. simpl. lia.
  - change (join "," (p :: q :: parts)) with (p +:+ "," +:+ join "," (q :: parts)).
    rewrite !length_append. simpl in *. lia.
Qed.

Lemma size_le_length n :
  forall v, size v <= n -> clean v = true ->
            size v <= String.length (stringify v).
Proof.
  induction n as [|n IH]; intros v Hn Hc.
  { destruct v; cbn [size] in Hn; lia. }
  destruct v as [| |b|m|s|xs|o]; try discriminate Hc.
  - cbn. lia.
  - destruct b; cbn; lia.
  - cbn [size stringify]. unfold quote. cbn [String.length]. lia.
  - cbn [size stringify] in *. rewrite !length_append. cbn [String.length].
    cut (list_sum (map size xs)
         <= String.length (join "," (map stringify xs))); [lia|].
    apply sum_le_join. apply Forall2_fmap, Forall2_same_length_lookup_2;
      [reflexivity|].
    intros i x y Hx Hy. assert (x = y) by congruence. subst y.
    apply list_elem_of_lookup_2 in Hx. apply IH.
    + pose proof (size_elem x xs Hx). lia.
    + apply (proj1 (forallb_forall clean xs) Hc). apply list_elem_of_In, Hx.
  - rewrite (stringify_obj o Hc). rewrite size_obj in *.
    rewrite clean_obj in Hc.
    rewrite !length_append. cbn [String.length].
    cut (list_sum (map (fun kx => size kx.2) (map_to_list o))
         <= String.length (join "," (map member (map_to_list o)))); [lia|].
    apply sum_le_join. apply Forall2_fmap, Forall2_same_length_lookup_2;
      [reflexivity|].
    intros i x y Hx Hy. assert (x = y) by congruence. subst y.
    apply list_elem_of_lookup_2 in Hx.
    unfold member. rewrite !length_append.
    cut (size x.2 <= String.length (stringify x.2)); [lia|].
    apply IH.
    + pose proof (size_member x _ Hx). lia.
    + apply (proj1 (forallb_forall _ _) Hc x). apply list_elem_of_In, Hx.
Qed.

Lemma parse_stringify v :
  clean v = true -> RefJSON.parse (stringify v) = Some v.
Proof.
  intros Hc.
  pose proof (parse_value_stringify (S (String.length (stringify v))) v "" Hc)
    as Hp.
  rewrite append_nil_r in Hp. unfold RefJSON.parse. rewrite Hp; [reflexivity|].
  pose proof (size_le_length (size v) v (le_n _) Hc). lia.
Qed.

Lemma clean_snapshot ps current t :
  forallb clean ps = true ->
  clean (Profiles.PersistedProfiles ps (of_nullable current) t) = true.
Proof.
  intros Hps. unfold Profiles.PersistedProfiles.
  rewrite clean_obj.
  vm_compute (map_to_list _).
  cbn [forallb snd clean]. rewrite Hps. destruct current; reflexivity.
Qed.

End Codec.

(** ** Loading and saving snapshots *)

(** C5. Malformed-storage tolerance: [loadFromStorage] always returns, it
    never throws; and it returns null when no value is stored under the
    account's key, when the stored text is not valid JSON ([JSON.parse]
    throws), and when it is valid JSON whose [profiles] is not an array. *)
Theorem loadFromStorage_tolerates (E : Profiles.Env) (A : string)
    (w : Profiles.World) :
  (exists r, result (Profiles.loadFromStorage E A) w = Ok r)
  /\ (Profiles.localStorage w !! Profiles.storageKey A = None ->
      result (Profiles.loadFromStorage E A) w = Ok None)
  /\ (forall raw,
        Profiles.localStorage w !! Profiles.storageKey A = Some raw ->
        Profiles.JSON_parse E raw = None ->
        result (Profiles.loadFromStorage E A) w = Ok None)
  /\ (forall raw v,
        Profiles.localStorage w !! Profiles.storageKey A = Some raw ->
        Profiles.JSON_parse E raw = Some v ->
        isArray (lookup_prop v "profiles") = false ->
        result (Profiles.loadFromStorage E A) w = Ok None).
Proof.
  unfold result. rewrite loadFromStorage_run. cbn [fst].
  split; [eexists; reflexivity|].
  split; [intros ->; reflexivity|].
  split.
  - intros raw -> Hp. unfold Adapter.loaded. rewrite Hp.
    destruct (bool_decide (raw = "")); reflexivity.
  - intros raw v -> Hp Harr. unfold Adapter.loaded. rewrite Hp, Harr.
    rewrite andb_false_r. destruct (bool_decide (raw = "")); reflexivity.
Qed.

Lemma loadFromStorage_tolerates_witness :
  result (Profiles.loadFromStorage (Ref.env Ref.ticking) "acct-1") Ref.fresh
  = Ok None
  /\ result (Profiles.loadFromStorage (Ref.env Ref.ticking) "acct-1")
       (RefSnapshots.holding "{not json") = Ok None
  /\ result (Profiles.loadFromStorage (Ref.env Ref.ticking) "acct-1")
       (RefSnapshots.holding RefSnapshots.profiles_is_number) = Ok None.
Proof.
  split; [|split].
  - apply (proj1 (proj2 (loadFromStorage_tolerates
                           (Ref.env Ref.ticking) "acct-1" Ref.fresh))).
    reflexivity.
  - apply (proj1 (proj2 (proj2 (loadFromStorage_tolerates
                                  (Ref.env Ref.ticking) "acct-1"
                                  (RefSnapshots.holding "{not json"))))
             "{not json").
    + reflexivity.
    + vm_compute. reflexivity.
  - apply (proj2 (proj2 (proj2 (loadFromStorage_tolerates
                                  (Ref.env Ref.ticking) "acct-1"
                                  (RefSnapshots.holding
                                     RefSnapshots.profiles_is_number))))
             RefSnapshots.profiles_is_number
             (VObj {["profiles" := VNum 3]})).
    + reflexivity.
    + vm_compute. reflexivity.
    + reflexivity.
Defined.

(** Writing a snapshot and reading it back, as far as the store's own
    code is concerned: the key is the same, and none of the guards of
    [loadFromStorage] rejects the snapshot. *)
Lemma save_then_load (E : Profiles.Env) (A : string) (S : jsval)
    (w w2 : Profiles.World) :
  isArray (lookup_prop S "profiles") = true ->
  Profiles.JSON_parse E (Profiles.JSON_stringify E S) = Some S ->
  Profiles.JSON_parse E "" = None ->
  Profiles.quota_ok E (Profiles.localStorage w) (Profiles.storageKey A)
    (Profiles.JSON_stringify E S) = true ->
  Profiles.localStorage w2 !! Profiles.storageKey A
  = Profiles.localStorage (after (Profiles.saveToStorage E A S) w)
    !! Profiles.storageKey A ->
  result (Profiles.saveToStorage E A S) w = Ok tt
  /\ result (Profiles.loadFromStorage E A)
       (after (Profiles.saveToStorage E A S) w) = Ok (Some S)
  /\ result (Profiles.loadFromStorage E A) w2 = Ok (Some S).
Proof.
  intros Harr Hrt Hempty Hq. unfold result, after.
  rewrite saveToStorage_run. cbn [fst snd].
  rewrite !loadFromStorage_run. cbn [fst].
  assert (Hitem : Profiles.localStorage
                    (Adapter.saved E (Profiles.storageKey A)
                       (Profiles.JSON_stringify E S) w)
                  !! Profiles.storageKey A
                  = Some (Profiles.JSON_stringify E S)).
  { unfold Adapter.saved. cbn [Profiles.localStorage].
    rewrite Hq. apply lookup_insert_eq. }
  assert (Hload : Adapter.loaded E (Some (Profiles.JSON_stringify E S))
                  = Some S).
  { unfold Adapter.loaded.
    rewrite bool_decide_eq_false_2.
    - rewrite Hrt, Harr.
      destruct S; try discriminate Harr. reflexivity.
    - intros Hnil. rewrite Hnil, Hempty in Hrt. discriminate. }
  intros Hsame. rewrite Hsame, Hitem, Hload. repeat split.
Qed.

(** On the reference codec the round trip needs no assumption on the
    codec: every snapshot whose profiles are built from null, booleans,
    strings, arrays and objects comes back as it was written, for every
    account, world and clock. *)
Corollary save_load_roundtrip_reference (clk : nat -> N) (A : string)
    (ps : list jsval) (current : option string) (updatedAt : string)
    (w : Profiles.World) :
  forallb JSONValues.clean ps = true ->
  result (Profiles.loadFromStorage (Ref.env clk) A)
    (after (Profiles.saveToStorage (Ref.env clk) A
              (Profiles.PersistedProfiles ps (of_nullable current) updatedAt))
       w)
  = Ok (Some (Profiles.PersistedProfiles ps (of_nullable current) updatedAt)).
Proof.
  intros Hps.
  apply (save_then_load (Ref.env clk) A _ w
           (after (Profiles.saveToStorage (Ref.env clk) A
                     (Profiles.PersistedProfiles ps (of_nullable current)
                        updatedAt)) w)); try reflexivity.
  apply parse_stringify, clean_snapshot, Hps.
Qed.

(** ** Updating and removing profiles *)

Section EditRuns.

Import Profiles Adapter Runs Typed.

Variable E : Env.

Lemma typed_all_defined ps : typed_all ps = true -> defined_all ps = true.
Proof.
  unfold typed_all, defined_all. induction ps as [|p ps IH]; [reflexivity|].
  cbn [forallb]. intros [Hp Hps]%andb_true_iff.
  rewrite (IH Hps), andb_true_r.
  destruct p; try reflexivity; discriminate Hp.
Qed.

Lemma prop_defined (p : jsval) (k : string) (w : World) :
  nullish p = false -> prop p k w = (Ok (lookup_prop p k), w).
Proof. intros Hp. unfold prop. rewrite Hp. reflexivity. Qed.

Lemma updateOne_run id changes p w :
  nullish p = false ->
  updateOne E id changes p w
  = if has_id id p
    then (Ok (VObj (<["updatedAt" := VStr (toISOString (clock E (ticks w)))]>
                      (changes ∪ own_props p))), ticked w)
    else (Ok p, w).
Proof.
  intros Hp. unfold updateOne.
  rewrite (bind_Ok _ _ _ _ _ (prop_defined p "id" w Hp)).
  unfold has_id. destruct (strict_eq_str (lookup_prop p "id") id); reflexivity.
Qed.

Lemma advance_ticked n w : advance n (ticked w) = advance (S n) w.
Proof.
  unfold advance, ticked. cbn [store localStorage calls ticks draws].
  f_equal. lia.
Qed.

Lemma mapM_updateOne_run id changes ps w :
  defined_all ps = true ->
  mapM (updateOne E id changes) ps w
  = (Ok (updatedList E id changes (ticks w) ps), advance (matching id ps) w).
Proof.
  revert w. induction ps as [|p ps IH]; intros w Hps.
  - destruct w; reflexivity.
  - cbn [defined_all forallb] in Hps. apply andb_true_iff in Hps as [Hp Hps].
    apply negb_true_iff in Hp.
    cbn [mapM updatedList]. unfold matching. rewrite filter_cons.
    unfold bind at 1. rewrite (updateOne_run id changes p w Hp).
    destruct (has_id id p) eqn:Hid.
    + rewrite decide_True by reflexivity. cbn [length].
      unfold bind. rewrite (IH (ticked w) Hps). unfold ret.
      rewrite advance_ticked. reflexivity.
    + rewrite decide_False by discriminate.
      unfold bind. rewrite (IH w Hps). reflexivity.
Qed.

Lemma updateProfile_run userId id changes w :
  defined_all (profiles (store w)) = true ->
  updateProfile E userId id changes w = (Ok tt, updated E userId id changes w).
Proof.
  intros Hps. unfold updateProfile.
  unfold bind at 1, get, gets.
  rewrite (bind_Ok _ _ _ _ _ (mapM_updateOne_run id changes _ w Hps)).
  run_store. rewrite saveToStorage_run. reflexivity.
Qed.

Lemma keepOne_run id p w :
  nullish p = false -> keepOne id p w = (Ok (negb (has_id id p)), w).
Proof.
  intros Hp. unfold keepOne.
  rewrite (bind_Ok _ _ _ _ _ (prop_defined p "id" w Hp)). reflexivity.
Qed.

Lemma filterM_keepOne_run id ps w :
  defined_all ps = true ->
  filterM (keepOne id) ps w = (Ok (remaining id ps), w).
Proof.
  induction ps as [|p ps IH]; intros Hps; [reflexivity|].
  cbn [defined_all forallb] in Hps. apply andb_true_iff in Hps as [Hp Hps].
  apply negb_true_iff in Hp.
  cbn [filterM]. rewrite (bind_Ok _ _ _ _ _ (keepOne_run id p w Hp)).
  rewrite (bind_Ok _ _ _ _ _ (IH Hps)).
  unfold remaining, ret. rewrite filter_cons.
  destruct (has_id id p).
  - rewrite decide_False by discriminate. reflexivity.
  - rewrite decide_True by reflexivity. reflexivity.
Qed.

Lemma removeProfile_run userId id w :
  defined_all (profiles (store w)) = true ->
  removeProfile E userId id w = (Ok tt, removed E userId id w).
Proof.
  intros Hps. unfold removeProfile.
  unfold bind at 1, get, gets.
  rewrite (bind_Ok _ _ _ _ _ (filterM_keepOne_run id _ w Hps)).
  run_store. rewrite saveToStorage_run. reflexivity.
Qed.

End EditRuns.

(** ** Selection fallback on removal *)

Section Fallback.

Import Profiles Runs Typed.

Lemma remaining_typed id ps :
  typed_all ps = true -> typed_all (remaining id ps) = true.
Proof.
  unfold typed_all, remaining. induction ps as [|p ps IH]; [reflexivity|].
  cbn [forallb]. intros [Hp Hps]%andb_true_iff. rewrite filter_cons.
  destruct (decide (has_id id p = false)); [|exact (IH Hps)].
  cbn [forallb]. rewrite Hp. exact (IH Hps).
Qed.

Lemma fallback_first id next :
  typed_all next = true ->
  fallback id (VStr id) next = of_nullable (head next ≫= profile_id).
Proof.
  intros Ht. unfold fallback, strict_eq_str.
  rewrite bool_decide_eq_true_2 by reflexivity.
  destruct next as [|p next]; [reflexivity|].
  cbn [typed_all forallb] in Ht. apply andb_true_iff in Ht as [Hp _].
  change (first_elem (p :: next)) with p.
  change (head (p :: next) ≫= profile_id) with (profile_id p).
  unfold typed_profile, profile_id, opt_prop in *.
  destruct p; try discriminate Hp. cbn [nullish].
  destruct (lookup_prop (VObj o) "id"); try discriminate Hp. reflexivity.
Qed.

Lemma fallback_other id current next :
  current <> VStr id -> fallback id current next = current.
Proof.
  intros Hne. unfold fallback, strict_eq_str.
  destruct current; try reflexivity.
  rewrite bool_decide_eq_false_2; [reflexivity|]. congruence.
Qed.

End Fallback.

(** C3, as the code has it.  On a collection of typed profiles,
    [removeProfile] returns and removes the profiles whose identifier
    equals [id], keeping the others in order.  If [currentProfileId] equals
    [id], which is the case whenever a removed profile was the selection,
    the selection becomes the identifier of the first remaining profile, or
    null if none remains; if [currentProfileId] differs from [id], it is
    unchanged. *)
Theorem removeProfile_selection (E : Profiles.Env) (u id : string)
    (w : Profiles.World) :
  Typed.typed_all (Profiles.profiles (Profiles.store w)) = true ->
  let w' := after (Profiles.removeProfile E u id) w in
  result (Profiles.removeProfile E u id) w = Ok tt
  /\ Profiles.profiles (Profiles.store w')
     = filter (fun p => Runs.profile_id p <> Some id)
         (Profiles.profiles (Profiles.store w))
  /\ (Profiles.currentProfileId (Profiles.store w) = VStr id ->
      Profiles.currentProfileId (Profiles.store w')
      = of_nullable (head (Profiles.profiles (Profiles.store w'))
                       ≫= Runs.profile_id))
  /\ (Profiles.currentProfileId (Profiles.store w) <> VStr id ->
      Profiles.currentProfileId (Profiles.store w')
      = Profiles.currentProfileId (Profiles.store w)).
Proof.
  intros Ht w'. subst w'. unfold result, after.
  rewrite (removeProfile_run E u id w (typed_all_defined _ Ht)).
  cbn [fst snd]. split; [reflexivity|].
  unfold Runs.removed, Adapter.saved.
  cbn [Profiles.store Profiles.profiles Profiles.currentProfileId].
  split; [|split].
  - unfold Runs.remaining. apply list_filter_iff. intros p.
    unfold Runs.has_id, Runs.profile_id, strict_eq_str.
    destruct (lookup_prop p "id"); try (split; [discriminate|reflexivity]).
    rewrite bool_decide_eq_false. split; congruence.
  - intros Hcur. rewrite Hcur.
    apply fallback_first, remaining_typed, Ht.
  - intros Hcur. apply fallback_other, Hcur.
Qed.

Lemma removeProfile_selection_witness :
  result (Profiles.removeProfile (Ref.env Ref.ticking) "acct-1"
            "loyw3v28-4fzyo8") Scenario.one_profile = Ok tt
  /\ Profiles.profiles
       (Profiles.store
          (after (Profiles.removeProfile (Ref.env Ref.ticking) "acct-1"
                    "loyw3v28-4fzyo8") Scenario.one_profile))
     = filter (fun p => Runs.profile_id p <> Some "loyw3v28-4fzyo8")
         (Profiles.profiles (Profiles.store Scenario.one_profile))
  /\ (Profiles.currentProfileId (Profiles.store Scenario.one_profile)
      = VStr "loyw3v28-4fzyo8" ->
      Profiles.currentProfileId
        (Profiles.store
           (after (Profiles.removeProfile (Ref.env Ref.ticking) "acct-1"
                     "loyw3v28-4fzyo8") Scenario.one_profile))
      = of_nullable
          (head (Profiles.profiles
                   (Profiles.store
                      (after (Profiles.removeProfile (Ref.env Ref.ticking)
                                "acct-1" "loyw3v28-4fzyo8")
                         Scenario.one_profile)))
             ≫= Runs.profile_id))
  /\ (Profiles.currentProfileId (Profiles.store Scenario.one_profile)
      <> VStr "loyw3v28-4fzyo8" ->
      Profiles.currentProfileId
        (Profiles.store
           (after (Profiles.removeProfile (Ref.env Ref.ticking) "acct-1"
                     "loyw3v28-4fzyo8") Scenario.one_profile))
      = Profiles.currentProfileId (Profiles.store Scenario.one_profile)).
Proof.
  apply (removeProfile_selection (Ref.env Ref.ticking) "acct-1"
           "loyw3v28-4fzyo8" Scenario.one_profile).
  vm_compute. reflexivity.
Defined.

(** C3 as stated fails where the selection names no profile of the
    collection.  After [addProfile] and [setCurrentProfile("ghost")] the
    collection holds one typed profile and the selection is [ghost];
    [removeProfile(_, "ghost")] matches no profile and removes none, yet
    the selection moves to the identifier of the first profile. *)
Lemma removeProfile_moves_dangling_selection :
  Typed.typed_all (Profiles.profiles (Profiles.store Scenario.dangling)) = true
  /\ Profiles.currentProfileId (Profiles.store Scenario.dangling) = VStr "ghost"
  /\ map Runs.profile_id (Profiles.profiles (Profiles.store Scenario.dangling))
     = [Some "loyw3v28-4fzyo8"]
  /\ result (Profiles.removeProfile (Ref.env Ref.ticking) "acct-1" "ghost")
       Scenario.dangling = Ok tt
  /\ Profiles.profiles
       (Profiles.store
          (after (Profiles.removeProfile (Ref.env Ref.ticking) "acct-1" "ghost")
             Scenario.dangling))
     = Profiles.profiles (Profiles.store Scenario.dangling)
  /\ Profiles.currentProfileId
       (Profiles.store
          (after (Profiles.removeProfile (Ref.env Ref.ticking) "acct-1" "ghost")
             Scenario.dangling))
     = VStr "loyw3v28-4fzyo8".
Proof. vm_compute. repeat split. Qed.

(** ** The add-then-update scenario *)

Section ScenarioRuns.

Import Profiles Runs Typed.

Variable E : Env.

Lemma matching_app id ps qs :
  matching id (ps ++ qs) = (matching id ps + matching id qs)%nat.
Proof. unfold matching. rewrite filter_app, length_app. reflexivity. Qed.

Lemma updatedList_app id changes k ps qs :
  updatedList E id changes k (ps ++ qs)
  = (updatedList E id changes k ps
     ++ updatedList E id changes (matching id ps + k) qs)%list.
Proof.
  revert k. induction ps as [|p ps IH]; intros k; [reflexivity|].
  cbn [app updatedList]. unfold matching. rewrite filter_cons.
  destruct (has_id id p) eqn:Hid.
  - rewrite decide_True by reflexivity. rewrite IH. cbn [length app].
    unfold matching. rewrite Nat.add_succ_r. reflexivity.
  - rewrite decide_False by discriminate. rewrite IH. reflexivity.
Qed.

Lemma defined_all_app ps qs :
  defined_all (ps ++ qs) = defined_all ps && defined_all qs.
Proof. unfold defined_all. apply forallb_app. Qed.

Lemma uidAt_nonempty w : uidAt E w <> "".
Proof.
  unfold uidAt. destruct (toString36 (clock E (ticks w))); discriminate.
Qed.

Lemma newProfile_ada_fields w :
  dom (own_props (newProfile E Ref.ada w)) = AdaScenario.fields.
Proof.
  unfold newProfile, own_props, Ref.ada, AdaScenario.fields.
  repeat first [rewrite dom_insert_L | rewrite dom_union_L
               | rewrite dom_singleton_L | rewrite dom_empty_L].
  set_solver.
Qed.

End ScenarioRuns.

(** C7, as the code has it.  In any world whose collection has no null
    element, [addProfile("acct-1", {roleType: "Pharmacy Technician",
    firstName: "Ada", lastName: "Lovelace"})] returns a profile with a
    non-empty generated [id], the three fields as supplied, and no other
    field than these and the two timestamps: no optional field, and no
    [accountId] either, since the profile takes it from the data and not
    from the account id argument.  [createdAt] and [updatedAt] render two
    successive readings of the clock.  The following
    [updateProfile("acct-1", id, {licenseNumber: "TX-12345"})] returns and
    leaves in the last profile of the collection the same [id],
    [firstName] and [lastName], the license number, and as [updatedAt] the
    rendering of the clock reading taken for that profile during the
    update. *)
Theorem add_then_update_scenario (E : Profiles.Env) (w : Profiles.World) :
  Typed.defined_all (Profiles.profiles (Profiles.store w)) = true ->
  let w1 := after (Profiles.addProfile E "acct-1" Ref.ada) w in
  exists p i,
    result (Profiles.addProfile E "acct-1" Ref.ada) w = Ok p
    /\ lookup_prop p "id" = VStr i
    /\ i <> ""
    /\ dom (own_props p) = AdaScenario.fields
    /\ lookup_prop p "roleType" = VStr "Pharmacy Technician"
    /\ lookup_prop p "firstName" = VStr "Ada"
    /\ lookup_prop p "lastName" = VStr "Lovelace"
    /\ lookup_prop p "createdAt"
       = VStr (toISOString (Profiles.clock E (1 + Profiles.ticks w)))
    /\ lookup_prop p "updatedAt"
       = VStr (toISOString (Profiles.clock E (2 + Profiles.ticks w)))
    /\ Profiles.ticks w1 = 4 + Profiles.ticks w
    /\ result (Profiles.updateProfile E "acct-1" i AdaScenario.licence) w1
       = Ok tt
    /\ exists p',
         last (Profiles.profiles
                 (Profiles.store
                    (after (Profiles.updateProfile E "acct-1" i
                              AdaScenario.licence) w1)))
         = Some p'
         /\ lookup_prop p' "id" = VStr i
         /\ lookup_prop p' "firstName" = VStr "Ada"
         /\ lookup_prop p' "lastName" = VStr "Lovelace"
         /\ lookup_prop p' "licenseNumber" = VStr "TX-12345"
         /\ lookup_prop p' "updatedAt"
            = VStr (toISOString
                      (Profiles.clock E
                         (Runs.matching i (Profiles.profiles (Profiles.store w))
                          + Profiles.ticks w1))).
Proof.
  intros Hdef w1. subst w1. unfold result, after.
  rewrite addProfile_run. cbn [fst snd].
  exists (Runs.newProfile E Ref.ada w), (Runs.uidAt E w).
  assert (Hid : lookup_prop (Runs.newProfile E Ref.ada w) "id"
                = VStr (Runs.uidAt E w))
    by (apply newProfile_id; reflexivity).
  assert (Hdef1 : Typed.defined_all
                    (Profiles.profiles (Profiles.store
                       (Runs.added E "acct-1" Ref.ada w))) = true).
  { unfold Runs.added, Adapter.saved. cbn [Profiles.store Profiles.profiles].
    rewrite defined_all_app, Hdef. reflexivity. }
  rewrite (updateProfile_run E "acct-1" _ AdaScenario.licence _ Hdef1).
  cbn [fst snd].
  split; [reflexivity|]. split; [exact Hid|].
  split; [apply uidAt_nonempty|]. split; [apply newProfile_ada_fields|].
  split; [reflexivity|]. split; [reflexivity|]. split; [reflexivity|].
  split; [reflexivity|]. split; [reflexivity|]. split; [reflexivity|].
  split; [reflexivity|].
  unfold Runs.updated, Adapter.saved. cbn [Profiles.store Profiles.profiles].
  unfold Runs.added at 2 3, Adapter.saved.
  cbn [Profiles.store Profiles.profiles].
  rewrite updatedList_app. cbn [Runs.updatedList].
  assert (Hhas : Runs.has_id (Runs.uidAt E w) (Runs.newProfile E Ref.ada w)
                 = true).
  { unfold Runs.has_id. rewrite Hid. cbn [strict_eq_str].
    apply bool_decide_eq_true_2. reflexivity. }
  rewrite Hhas. eexists. split; [apply last_snoc|].
  unfold lookup_prop, own_props, Runs.newProfile, AdaScenario.licence, Ref.ada.
  repeat split; simplify_map_eq; reflexivity.
Qed.

Lemma add_then_update_scenario_witness :
  exists p i,
    result (Profiles.addProfile (Ref.env Ref.ticking) "acct-1" Ref.ada)
      Ref.fresh = Ok p
    /\ lookup_prop p "id" = VStr i
    /\ i <> ""
    /\ result (Profiles.updateProfile (Ref.env Ref.ticking) "acct-1" i
                 AdaScenario.licence)
         (after (Profiles.addProfile (Ref.env Ref.ticking) "acct-1" Ref.ada)
            Ref.fresh)
       = Ok tt.
Proof.
  destruct (add_then_update_scenario (Ref.env Ref.ticking) Ref.fresh eq_refl)
    as (p & i & Hp & Hid & Hne & _ & _ & _ & _ & _ & _ & _ & Hupd & _).
  exists p, i. repeat split; assumption.
Defined.

(** C7 as stated fails at three places.  With a clock that advances by a
    millisecond between two readings, the profile [addProfile("acct-1",
    ...)] returns has no [accountId], and its [createdAt] and [updatedAt]
    differ.  With a clock read several times within one millisecond, the
    [updatedAt] that [updateProfile] sets equals the prior value, so it is
    not strictly greater. *)
Lemma scenario_as_stated_fails :
  (exists p,
     result (Profiles.addProfile (Ref.env Ref.ticking) "acct-1" Ref.ada)
       Ref.fresh = Ok p
     /\ lookup_prop p "accountId" = VUndef
     /\ lookup_prop p "createdAt" = VStr "2023-11-14T22:13:20.001Z"
     /\ lookup_prop p "updatedAt" = VStr "2023-11-14T22:13:20.002Z")
  /\ map (fun q => (lookup_prop q "id", lookup_prop q "updatedAt"))
       (Profiles.profiles (Profiles.store AdaScenario.added_frozen))
     = [(VStr "loyw3v28-4fzyo8", VStr "2023-11-14T22:13:20.000Z")]
  /\ map (fun q => (lookup_prop q "id", lookup_prop q "licenseNumber",
                    lookup_prop q "updatedAt"))
       (Profiles.profiles (Profiles.store AdaScenario.updated_frozen))
     = [(VStr "loyw3v28-4fzyo8", VStr "TX-12345",
         VStr "2023-11-14T22:13:20.000Z")].
Proof.
  split.
  - exists (Runs.newProfile (Ref.env Ref.ticking) Ref.ada Ref.fresh).
    vm_compute. repeat split.
  - vm_compute. repeat split.
Qed.

(** ** The owning account of a profile *)

Section Owners.

Import Profiles Runs Typed.

Variable E : Env.

Lemma updateOne_owner id changes p w :
  changes !! "accountId" = None ->
  store (snd (updateOne E id changes p w)) = store w
  /\ match fst (updateOne E id changes p w) with
     | Ok p' => owner p' = owner p
     | Throw _ => True
     end.
Proof.
  intros Hc. destruct (nullish p) eqn:Hn.
  - unfold updateOne, prop. rewrite Hn. split; [reflexivity|exact I].
  - rewrite (updateOne_run E id changes p w Hn).
    destruct (has_id id p); cbn [fst snd]; (split; [reflexivity|]);
      [|reflexivity].
    unfold owner, lookup_prop at 1.
    rewrite lookup_insert_ne by discriminate.
    rewrite lookup_union_r by exact Hc.
    destruct p; reflexivity.
Qed.

Lemma mapM_updateOne_owner id changes ps w :
  changes !! "accountId" = None ->
  store (snd (mapM (updateOne E id changes) ps w)) = store w
  /\ match fst (mapM (updateOne E id changes) ps w) with
     | Ok ps' => Forall2 (fun p p' => owner p' = owner p) ps ps'
     | Throw _ => True
     end.
Proof.
  intros Hc. revert w. induction ps as [|p ps IH]; intros w.
  - split; [reflexivity|constructor].
  - cbn [mapM].
    destruct (updateOne_owner id changes p w Hc) as [Hs Ho].
    destruct (updateOne E id changes p w) as [[p'|e] w1] eqn:Hu;
      cbn [fst snd] in *.
    + rewrite (bind_Ok _ _ _ _ _ Hu). destruct (IH w1) as [Hs' Hf].
      destruct (mapM (updateOne E id changes) ps w1) as [[ps'|e] w2] eqn:Hm;
        cbn [fst snd] in *.
      * rewrite (bind_Ok _ _ _ _ _ Hm). cbn [ret fst snd].
        split; [congruence|]. constructor; assumption.
      * rewrite (bind_Throw _ _ _ _ _ Hm). cbn [fst snd].
        split; [congruence|exact I].
    + rewrite (bind_Throw _ _ _ _ _ Hu). cbn [fst snd].
      split; [exact Hs|exact I].
Qed.

Lemma filterM_keepOne_sublist id ps (w : World) :
  snd (filterM (keepOne id) ps w) = w
  /\ match fst (filterM (keepOne id) ps w) with
     | Ok ps' => sublist ps' ps
     | Throw _ => True
     end.
Proof.
  induction ps as [|p ps IH]; [split; [reflexivity|constructor]|].
  cbn [filterM]. destruct (nullish p) eqn:Hn.
  - assert (Hk : keepOne id p w = (Throw TypeError, w))
      by (unfold keepOne, prop; rewrite Hn; reflexivity).
    rewrite (bind_Throw _ _ _ _ _ Hk). split; [reflexivity|exact I].
  - rewrite (bind_Ok _ _ _ _ _ (keepOne_run id p w Hn)).
    destruct IH as [Hw Hsub].
    destruct (filterM (keepOne id) ps w) as [[ps'|e] w1] eqn:Hm;
      cbn [fst snd] in *.
    + rewrite (bind_Ok _ _ _ _ _ Hm). cbn [ret fst snd].
      split; [exact Hw|].
      destruct (negb (has_id id p)).
      * apply sublist_skip, Hsub.
      * apply sublist_cons, Hsub.
    + rewrite (bind_Throw _ _ _ _ _ Hm). cbn [fst snd].
      split; [exact Hw|exact I].
Qed.

Lemma updateProfile_owner userId id changes w :
  changes !! "accountId" = None ->
  Forall2 (fun p p' => owner p' = owner p)
    (profiles (store w))
    (profiles (store (after (updateProfile E userId id changes) w))).
Proof.
  intros Hc. unfold after, updateProfile. unfold bind at 1, get, gets.
  destruct (mapM_updateOne_owner id changes (profiles (store w)) w Hc)
    as [Hs Hf].
  destruct (mapM (updateOne E id changes) (profiles (store w)) w)
    as [[ps'|e] w1] eqn:Hm; cbn [fst snd] in *.
  - rewrite (bind_Ok _ _ _ _ _ Hm). run_store.
    rewrite saveToStorage_run. cbn [snd]. exact Hf.
  - rewrite (bind_Throw _ _ _ _ _ Hm). cbn [snd]. rewrite Hs.
    apply Forall2_same_length_lookup_2; [reflexivity|].
    intros i x y Hx Hy. congruence.
Qed.

Lemma removeProfile_sublist userId id w :
  sublist (profiles (store (after (removeProfile E userId id) w)))
    (profiles (store w)).
Proof.
  unfold after, removeProfile. unfold bind at 1, get, gets.
  destruct (filterM_keepOne_sublist id (profiles (store w)) w) as [Hw Hsub].
  destruct (filterM (keepOne id) (profiles (store w)) w)
    as [[ps'|e] w1] eqn:Hm; cbn [fst snd] in *; subst w1.
  - rewrite (bind_Ok _ _ _ _ _ Hm). run_store.
    rewrite saveToStorage_run. cbn [snd]. exact Hsub.
  - rewrite (bind_Throw _ _ _ _ _ Hm). reflexivity.
Qed.

Lemma setCurrentProfile_profiles profileId w :
  profiles (store (after (setCurrentProfile E profileId) w))
  = profiles (store w).
Proof.
  unfold after, setCurrentProfile. run_store.
  destruct (loadedForUserId (store w)) as [u|]; [|reflexivity].
  destruct (bool_decide (u = "")); [reflexivity|].
  cbn. rewrite saveToStorage_run. reflexivity.
Qed.

End Owners.

(** Action by action: [ensureLoaded] for the loaded account and
    [setCurrentProfile] leave the collection as it is, [ensureLoaded] for
    another account replaces it by what is stored for that account,
    [addProfile] appends the new profile to it, [removeProfile] leaves a
    sublist of it, [reset] empties it, and [updateProfile] with changes
    that have no [accountId] property leaves, position by position,
    profiles with the same [accountId]. *)
Lemma each_action_keeps_owner (E : Profiles.Env) (w : Profiles.World) :
  (forall u,
     Profiles.profiles (Profiles.store (after (Profiles.ensureLoaded E u) w))
     = if bool_decide (Profiles.loadedForUserId (Profiles.store w) = Some u)
       then Profiles.profiles (Profiles.store w)
       else match Adapter.loaded E
                    (Profiles.localStorage w !! Profiles.storageKey u) with
            | Some s => Profiles.elements_of (lookup_prop s "profiles")
            | None => []
            end)
  /\ (forall profileId,
        Profiles.profiles
          (Profiles.store (after (Profiles.setCurrentProfile E profileId) w))
        = Profiles.profiles (Profiles.store w))
  /\ (forall u d,
        Profiles.profiles
          (Profiles.store (after (Profiles.addProfile E u d) w))
        = (Profiles.profiles (Profiles.store w) ++ [Runs.newProfile E d w])%list)
  /\ (forall u id changes,
        changes !! "accountId" = None ->
        Forall2 (fun p p' => Typed.owner p' = Typed.owner p)
          (Profiles.profiles (Profiles.store w))
          (Profiles.profiles
             (Profiles.store (after (Profiles.updateProfile E u id changes) w))))
  /\ (forall u id,
        sublist
          (Profiles.profiles
             (Profiles.store (after (Profiles.removeProfile E u id) w)))
          (Profiles.profiles (Profiles.store w)))
  /\ Profiles.profiles (Profiles.store (after Profiles.reset w)) = [].
Proof.
  split; [|split; [|split; [|split; [|split]]]].
  - intros u. unfold after. case_bool_decide as Hl.
    + rewrite (ensureLoaded_same E u w Hl). reflexivity.
    + rewrite (ensureLoaded_other E u w Hl). cbn [snd]. unfold Hydration.ensured.
      destruct (Adapter.loaded E _); reflexivity.
  - intros profileId. apply setCurrentProfile_profiles.
  - intros u d. unfold after. rewrite addProfile_run. reflexivity.
  - intros u id changes Hc. apply updateProfile_owner, Hc.
  - intros u id. apply removeProfile_sublist.
  - reflexivity.
Qed.

(** ** The owning account along sequences of calls *)

Section Descent.

Import Profiles Runs Typed Lineage.

Lemma evolves_owner p p' : evolves p p' -> owner p' = owner p.
Proof.
  induction 1 as [|q changes t _ IH Hc]; [reflexivity|].
  rewrite <- IH. unfold owner, lookup_prop at 1.
  rewrite lookup_insert_ne by discriminate.
  rewrite lookup_union_r by exact Hc.
  destruct q; reflexivity.
Qed.

Lemma evolves_trans p q r : evolves p q -> evolves q r -> evolves p r.
Proof.
  intros Hpq Hqr. induction Hqr as [|r changes t _ IH Hc]; [exact Hpq|].
  apply evolves_merge; assumption.
Qed.

Lemma kept_from_same p : kept_from p p.
Proof. split; [apply evolves_same|reflexivity]. Qed.

Lemma kept_from_evolves p p' : evolves p p' -> kept_from p p'.
Proof. intros He. split; [exact He|apply evolves_owner, He]. Qed.

Lemma kept_from_trans p q r : kept_from p q -> kept_from q r -> kept_from p r.
Proof.
  intros [He1 Ho1] [He2 Ho2]. split; [eapply evolves_trans; eassumption|].
  congruence.
Qed.

Lemma kept_from_all ps : Forall2 kept_from ps ps.
Proof.
  apply Forall2_same_length_lookup_2; [reflexivity|].
  intros i x y Hx Hy. assert (x = y) by congruence. subst y.
  apply kept_from_same.
Qed.

Lemma descend_refl ps : descend ps ps.
Proof. exists ps. split; [reflexivity|apply kept_from_all]. Qed.

Lemma descend_nil ps : descend ps [].
Proof. exists []. split; [apply sublist_nil_l|constructor]. Qed.

Lemma descend_sublist ps ps' : sublist ps' ps -> descend ps ps'.
Proof. intros Hs. exists ps'. split; [exact Hs|apply kept_from_all]. Qed.

Lemma descend_app ps1 ps2 qs1 qs2 :
  descend ps1 qs1 -> descend ps2 qs2 -> descend (ps1 ++ ps2) (qs1 ++ qs2).
Proof.
  intros (k1 & Hs1 & Hf1) (k2 & Hs2 & Hf2). exists (k1 ++ k2)%list. split.
  - apply sublist_app; assumption.
  - apply Forall2_app; assumption.
Qed.

Lemma descend_app_inv ps1 ps2 qs :
  descend (ps1 ++ ps2) qs ->
  exists qs1 qs2, qs = (qs1 ++ qs2)%list /\ descend ps1 qs1 /\ descend ps2 qs2.
Proof.
  intros (k & Hs & Hf).
  apply sublist_app_r in Hs as (k1 & k2 & -> & Hs1 & Hs2).
  apply Forall2_app_inv_l in Hf as (qs1 & qs2 & Hf1 & Hf2 & ->).
  exists qs1, qs2. split; [reflexivity|]. split; eexists; eauto.
Qed.

Lemma kept_from_sublist (qs ps' rs : list jsval) :
  Forall2 kept_from qs ps' ->
  sublist rs ps' ->
  exists qs', sublist qs' qs /\ Forall2 kept_from qs' rs.
Proof.
  intros Hf Hs. revert qs Hf.
  induction Hs as [|x rs ps' _ IH|x rs ps' _ IH]; intros qs Hf.
  - exists []. split; [apply sublist_nil_l|constructor].
  - apply Forall2_cons_inv_r in Hf as (q & qs0 & Hq & Hf & ->).
    destruct (IH _ Hf) as (qs' & Hs' & Hf').
    exists (q :: qs'). split; [apply sublist_skip, Hs'|constructor; assumption].
  - apply Forall2_cons_inv_r in Hf as (q & qs0 & Hq & Hf & ->).
    destruct (IH _ Hf) as (qs' & Hs' & Hf').
    exists qs'. split; [apply sublist_cons, Hs'|exact Hf'].
Qed.

Lemma descend_trans ps1 ps2 ps3 :
  descend ps1 ps2 -> descend ps2 ps3 -> descend ps1 ps3.
Proof.
  intros (k1 & Hs1 & Hf1) (k2 & Hs2 & Hf2).
  destruct (kept_from_sublist _ _ _ Hf1 Hs2) as (k & Hk & Hfk).
  exists k. split; [etrans; eassumption|].
  clear - Hfk Hf2. revert ps3 Hf2.
  induction Hfk as [|a b k k2 Hab _ IH]; intros ps3 Hf2.
  - apply Forall2_nil_inv_l in Hf2. subst. constructor.
  - apply Forall2_cons_inv_l in Hf2 as (c & ps & Hbc & Hf2 & ->).
    constructor; [eapply kept_from_trans; eassumption|apply IH, Hf2].
Qed.

Variable E : Env.

Lemma updateOne_evolves id changes p w :
  changes !! "accountId" = None ->
  store (snd (updateOne E id changes p w)) = store w
  /\ match fst (updateOne E id changes p w) with
     | Ok p' => evolves p p'
     | Throw _ => True
     end.
Proof.
  intros Hc. destruct (nullish p) eqn:Hn.
  - unfold updateOne, prop. rewrite Hn. split; [reflexivity|exact I].
  - rewrite (updateOne_run E id changes p w Hn).
    destruct (has_id id p); cbn [fst snd]; (split; [reflexivity|]).
    + apply evolves_merge; [apply evolves_same|exact Hc].
    + apply evolves_same.
Qed.

Lemma mapM_updateOne_evolves id changes ps w :
  changes !! "accountId" = None ->
  store (snd (mapM (updateOne E id changes) ps w)) = store w
  /\ match fst (mapM (updateOne E id changes) ps w) with
     | Ok ps' => Forall2 evolves ps ps'
     | Throw _ => True
     end.
Proof.
  intros Hc. revert w. induction ps as [|p ps IH]; intros w.
  - split; [reflexivity|constructor].
  - cbn [mapM].
    destruct (updateOne_evolves id changes p w Hc) as [Hs Ho].
    destruct (updateOne E id changes p w) as [[p'|e] w1] eqn:Hu;
      cbn [fst snd] in *.
    + rewrite (bind_Ok _ _ _ _ _ Hu). destruct (IH w1) as [Hs' Hf].
      destruct (mapM (updateOne E id changes) ps w1) as [[ps'|e] w2] eqn:Hm;
        cbn [fst snd] in *.
      * rewrite (bind_Ok _ _ _ _ _ Hm). cbn [ret fst snd].
        split; [congruence|]. constructor; assumption.
      * rewrite (bind_Throw _ _ _ _ _ Hm). cbn [fst snd].
        split; [congruence|exact I].
    + rewrite (bind_Throw _ _ _ _ _ Hu). cbn [fst snd].
      split; [exact Hs|exact I].
Qed.

Lemma updateProfile_descend userId id changes w :
  changes !! "accountId" = None ->
  descend (profiles (store w))
    (profiles (store (after (updateProfile E userId id changes) w))).
Proof.
  intros Hc. unfold after, updateProfile. unfold bind at 1, get, gets.
  destruct (mapM_updateOne_evolves id changes (profiles (store w)) w Hc)
    as [Hs Hf].
  destruct (mapM (updateOne E id changes) (profiles (store w)) w)
    as [[ps'|e] w1] eqn:Hm; cbn [fst snd] in *.
  - rewrite (bind_Ok _ _ _ _ _ Hm). run_store.
    rewrite saveToStorage_run. cbn [snd].
    exists (profiles (store w)). split; [reflexivity|].
    eapply Forall2_impl; [exact Hf|]. intros x y. apply kept_from_evolves.
  - rewrite (bind_Throw _ _ _ _ _ Hm). cbn [snd]. rewrite Hs.
    apply descend_refl.
Qed.

(** What one call does to the collection. *)
Lemma perform_step a w :
  keeps_owner a = true ->
  exists kept,
    profiles (store (after (perform E a) w)) = (kept ++ brought E a w)%list
    /\ descend (profiles (store w)) kept.
Proof.
  intros Hk. destruct a as [u|p|u d|u id changes|u id|]; cbn [perform brought].
  - unfold after. case_bool_decide as Hl.
    + rewrite (ensureLoaded_same E u w Hl). exists (profiles (store w)).
      split; [symmetry; apply app_nil_r|apply descend_refl].
    + rewrite (ensureLoaded_other E u w Hl). exists []. split; [|apply descend_nil].
      cbn [snd app]. unfold Hydration.ensured.
      destruct (Adapter.loaded E _); reflexivity.
  - exists (profiles (store w)). rewrite setCurrentProfile_profiles.
    split; [symmetry; apply app_nil_r|apply descend_refl].
  - exists (profiles (store w)). split; [|apply descend_refl].
    unfold after. rewrite (bind_Ok _ _ _ _ _ (addProfile_run E u d w)).
    reflexivity.
  - cbn [keeps_owner] in Hk. apply bool_decide_eq_true in Hk.
    exists (profiles (store (after (updateProfile E u id changes) w))).
    split; [symmetry; apply app_nil_r|].
    apply updateProfile_descend, Hk.
  - exists (profiles (store (after (removeProfile E u id) w))).
    split; [symmetry; apply app_nil_r|].
    apply descend_sublist, removeProfile_sublist.
  - exists []. split; [reflexivity|apply descend_nil].
Qed.

End Descent.

(** C8, as the code has it.  Along any sequence of calls of the store's
    actions in which no [updateProfile] has changes that carry an
    [accountId], no profile changes its owning account: the collection in
    the end is made of some of the profiles held at the start, in their
    order, followed by some of the profiles the calls brought in (created
    by [addProfile], or read from the storage by an [ensureLoaded] for
    another account), each changed at most by merges that leave its
    [accountId] alone, and each with the [accountId] it had at the start or
    when it was brought in. *)
Theorem owner_never_reassigned (E : Profiles.Env) (acts : list Lineage.Action)
    (w : Profiles.World) :
  forallb Lineage.keeps_owner acts = true ->
  exists kept fresh,
    Profiles.profiles (Profiles.store (Lineage.performAll E acts w))
    = (kept ++ fresh)%list
    /\ Lineage.descend (Profiles.profiles (Profiles.store w)) kept
    /\ Lineage.descend (Lineage.introduced E acts w) fresh.
Proof.
  revert w. induction acts as [|a acts IH]; intros w Hk.
  - exists (Profiles.profiles (Profiles.store w)), [].
    split; [symmetry; apply app_nil_r|].
    split; [apply descend_refl|apply descend_nil].
  - cbn [forallb] in Hk. apply andb_true_iff in Hk as [Ha Hk].
    destruct (perform_step E a w Ha) as (kept1 & Hstep & Hd1).
    destruct (IH (after (Lineage.perform E a) w) Hk)
      as (kept & fresh & Hfinal & Hd & Hi).
    rewrite Hstep in Hd.
    apply descend_app_inv in Hd as (k1 & k2 & -> & Hk1 & Hk2).
    exists k1, (k2 ++ fresh)%list. cbn [Lineage.performAll Lineage.introduced].
    split; [rewrite Hfinal; symmetry; apply app_assoc|].
    split; [apply (descend_trans _ _ _ Hd1 Hk1)|].
    apply descend_app; assumption.
Qed.

Lemma owner_never_reassigned_witness :
  exists kept fresh,
    Profiles.profiles
      (Profiles.store
         (Lineage.performAll (Ref.env Ref.ticking) Lineage.edits
            Scenario.one_profile))
    = (kept ++ fresh)%list
    /\ Lineage.descend (Profiles.profiles (Profiles.store Scenario.one_profile))
         kept
    /\ Lineage.descend
         (Lineage.introduced (Ref.env Ref.ticking) Lineage.edits
            Scenario.one_profile) fresh.
Proof.
  apply (owner_never_reassigned (Ref.env Ref.ticking) Lineage.edits
           Scenario.one_profile).
  reflexivity.
Defined.

Example edits_run :
  map (fun p => (lookup_prop p "firstName", Typed.owner p))
    (Profiles.profiles
       (Profiles.store
          (Lineage.performAll (Ref.env Ref.ticking) Lineage.edits
             Scenario.one_profile)))
  = [(VStr "Grace", VStr "acct-1")].
Proof. vm_compute. reflexivity. Qed.

(** C8 as stated fails for [updateProfile]: its changes may carry an
    [accountId].  The profile added for [acct-1] belongs to [acct-1];
    after [updateProfile("acct-1", id, {accountId: "acct-2"})] the profile
    with that very [id] belongs to [acct-2]. *)
Lemma updateProfile_reassigns_owner :
  map (fun p => (lookup_prop p "id", Typed.owner p))
    (Profiles.profiles (Profiles.store Scenario.one_profile))
  = [(VStr "loyw3v28-4fzyo8", VStr "acct-1")]
  /\ result (Profiles.updateProfile (Ref.env Ref.ticking) "acct-1"
               "loyw3v28-4fzyo8" AdaScenario.reassign) Scenario.one_profile
     = Ok tt
  /\ map (fun p => (lookup_prop p "id", Typed.owner p))
       (Profiles.profiles (Profiles.store AdaScenario.reassigned))
     = [(VStr "loyw3v28-4fzyo8", VStr "acct-2")].
Proof. vm_compute. repeat split. Qed.

(** ** Account resolution *)

Section Resolution.

Import Auth AuthRuns.

Variable P : Provider.

Lemma select_run column value w :
  select P column value w
  = match select_eq P (history w) column value with
    | Resolved r => (Ok r, called (CallSelect column value) w)
    | Rejected e => (Throw e, called (CallSelect column value) w)
    end.
Proof. reflexivity. Qed.

(** [findAccountRow] returns in every case, and does not touch the store. *)
Lemma findAccountRow_returns user w :
  exists row w',
    findAccountRow P user w = (Ok row, w') /\ auth w' = auth w.
Proof.
  unfold findAccountRow, try_catch.
  destruct user as [u|]; [|eexists _, _; split; reflexivity].
  unfold bind at 1. rewrite select_run.
  destruct (select_eq P (history w) "id" (user_id u)) as [r1|e1];
    [|eexists _, _; split; reflexivity].
  destruct (hit r1); [eexists _, _; split; reflexivity|].
  unfold bind at 1. rewrite select_run.
  destruct (select_eq P _ "user_id" (user_id u)) as [r2|e2];
    [|eexists _, _; split; reflexivity].
  destruct (hit r2); [eexists _, _; split; reflexivity|].
  destruct (user_email u) as [e|]; [|eexists _, _; split; reflexivity].
  destruct (bool_decide (e = "")); [eexists _, _; split; reflexivity|].
  unfold bind at 1. rewrite select_run.
  destruct (select_eq P _ "email" e) as [r3|e3];
    [|eexists _, _; split; reflexivity].
  destruct (hit r3); eexists _, _; split; reflexivity.
Qed.

(** When every lookup misses, the result is null. *)
Lemma findAccountRow_absent user w :
  (forall h column value, misses (select_eq P h column value) = true) ->
  result (findAccountRow P user) w = Ok VNull.
Proof.
  intros Hmiss. unfold result, findAccountRow, try_catch.
  destruct user as [u|]; [|reflexivity].
  unfold bind at 1. rewrite select_run.
  pose proof (Hmiss (history w) "id" (user_id u)) as H1.
  destruct (select_eq P (history w) "id" (user_id u)) as [r1|e1];
    [|reflexivity].
  cbn [misses] in H1. apply negb_true_iff in H1. rewrite H1.
  unfold bind at 1. rewrite select_run.
  pose proof (Hmiss (history (called (CallSelect "id" (user_id u)) w))
                "user_id" (user_id u)) as H2.
  destruct (select_eq P _ "user_id" (user_id u)) as [r2|e2]; [|reflexivity].
  cbn [misses] in H2. apply negb_true_iff in H2. rewrite H2.
  destruct (user_email u) as [e|]; [|reflexivity].
  destruct (bool_decide (e = "")); [reflexivity|].
  unfold bind at 1. rewrite select_run.
  match goal with
  | |- context [select_eq P ?h "email" e] =>
      pose proof (Hmiss h "email" e) as H3;
      destruct (select_eq P h "email" e) as [r3|e3]; [|reflexivity]
  end.
  cbn [misses] in H3. apply negb_true_iff in H3. rewrite H3. reflexivity.
Qed.

Lemma checkSession_run s w :
  getSession P (history w) = Resolved (Some s) ->
  exists row w',
    findAccountRow P (Some (session_user s)) (called CallGetSession w)
    = (Ok row, w')
    /\ checkSession P w
       = (Ok tt,
          {| auth := {| session := Some s;
                        user := Some (session_user s);
                        account := enrich row;
                        isAuthenticated := true |};
             history := history w' |}).
Proof.
  intros Hs.
  destruct (findAccountRow_returns (Some (session_user s))
              (called CallGetSession w)) as (row & w' & Hrow & _).
  exists row, w'. split; [exact Hrow|].
  unfold checkSession. unfold bind at 1, await. rewrite Hs.
  fold (called CallGetSession w).
  rewrite (bind_Ok _ _ _ _ _ Hrow). reflexivity.
Qed.

Lemma login_run email password r s w :
  signInWithPassword P (history w) email password = Resolved r ->
  r_error r = None ->
  r_session r = Some s ->
  exists row w',
    findAccountRow P (r_user r) (called (CallSignIn email password) w)
    = (Ok row, w')
    /\ login P email password w
       = (Ok true,
          {| auth := {| session := Some s;
                        user := r_user r;
                        account := enrich row;
                        isAuthenticated := true |};
             history := history w' |}).
Proof.
  intros Hr He Hs.
  destruct (findAccountRow_returns (r_user r)
              (called (CallSignIn email password) w)) as (row & w' & Hrow & _).
  exists row, w'. split; [exact Hrow|].
  unfold login. unfold bind at 1, await. rewrite Hr.
  fold (called (CallSignIn email password) w). rewrite He, Hs.
  rewrite (bind_Ok _ _ _ _ _ Hrow). reflexivity.
Qed.

End Resolution.

(** C2. Authentication is independent of account linkage.
    [findAccountRow] returns in every case, it never throws, and it returns
    null when every lookup misses: rejected, resolved with an error, or
    resolved without a row.  When the provider has a session,
    [checkSession] returns and sets [isAuthenticated] to true whatever the
    resolution gave; [account] is what the returned row maps to, and it is
    null whenever the resolution returned nothing (a falsy row), so in
    particular when all lookups miss.  The same holds for [login] when the
    provider signs in without an error and with a session. *)
Theorem authentication_independent_of_account (P : Auth.Provider)
    (w : Auth.World) :
  (forall user, exists row, result (Auth.findAccountRow P user) w = Ok row)
  /\ (forall user,
        (forall h column value,
           AuthRuns.misses (Auth.select_eq P h column value) = true) ->
        result (Auth.findAccountRow P user) w = Ok VNull)
  /\ (forall s,
        Auth.getSession P (Auth.history w) = Auth.Resolved (Some s) ->
        exists row,
          result (Auth.findAccountRow P (Some (Auth.session_user s)))
            (AuthRuns.called Auth.CallGetSession w) = Ok row
          /\ result (Auth.checkSession P) w = Ok tt
          /\ Auth.auth (after (Auth.checkSession P) w)
             = {| Auth.session := Some s;
                  Auth.user := Some (Auth.session_user s);
                  Auth.account := Auth.enrich row;
                  Auth.isAuthenticated := true |}
          /\ (truthy row = false ->
              Auth.account (Auth.auth (after (Auth.checkSession P) w)) = None
              /\ Auth.isAuthenticated (Auth.auth (after (Auth.checkSession P) w))
                 = true)
          /\ ((forall h column value,
                 AuthRuns.misses (Auth.select_eq P h column value) = true) ->
              row = VNull))
  /\ (forall email password r s,
        Auth.signInWithPassword P (Auth.history w) email password
        = Auth.Resolved r ->
        Auth.r_error r = None ->
        Auth.r_session r = Some s ->
        exists row,
          result (Auth.findAccountRow P (Auth.r_user r))
            (AuthRuns.called (Auth.CallSignIn email password) w) = Ok row
          /\ result (Auth.login P email password) w = Ok true
          /\ Auth.auth (after (Auth.login P email password) w)
             = {| Auth.session := Some s;
                  Auth.user := Auth.r_user r;
                  Auth.account := Auth.enrich row;
                  Auth.isAuthenticated := true |}
          /\ (truthy row = false ->
              Auth.account (Auth.auth (after (Auth.login P email password) w))
              = None
              /\ Auth.isAuthenticated
                   (Auth.auth (after (Auth.login P email password) w)) = true)
          /\ ((forall h column value,
                 AuthRuns.misses (Auth.select_eq P h column value) = true) ->
              row = VNull)).
Proof.
  split; [|split; [|split]].
  - intros user.
    destruct (findAccountRow_returns P user w) as (row & w' & Hrow & _).
    exists row. unfold result. rewrite Hrow. reflexivity.
  - intros user Hmiss. apply findAccountRow_absent, Hmiss.
  - intros s Hs.
    destruct (checkSession_run P s w Hs) as (row & w' & Hrow & Hrun).
    exists row. unfold result, after. rewrite Hrow, Hrun. cbn [fst snd Auth.auth].
    split; [reflexivity|]. split; [reflexivity|]. split; [reflexivity|].
    split.
    + intros Hrowf. cbn [Auth.account Auth.isAuthenticated].
      unfold Auth.enrich. rewrite Hrowf. split; reflexivity.
    + intros Hmiss.
      pose proof (findAccountRow_absent P (Some (Auth.session_user s))
                    (AuthRuns.called Auth.CallGetSession w) Hmiss) as Habs.
      unfold result in Habs. rewrite Hrow in Habs. cbn [fst] in Habs.
      congruence.
  - intros email password r s Hr He Hs.
    destruct (login_run P email password r s w Hr He Hs)
      as (row & w' & Hrow & Hrun).
    exists row. unfold result, after. rewrite Hrow, Hrun. cbn [fst snd Auth.auth].
    split; [reflexivity|]. split; [reflexivity|]. split; [reflexivity|].
    split.
    + intros Hrowf. cbn [Auth.account Auth.isAuthenticated].
      unfold Auth.enrich. rewrite Hrowf. split; reflexivity.
    + intros Hmiss.
      pose proof (findAccountRow_absent P (Auth.r_user r)
                    (AuthRuns.called (Auth.CallSignIn email password) w) Hmiss)
        as Habs.
      unfold result in Habs. rewrite Hrow in Habs. cbn [fst] in Habs.
      congruence.
Qed.

(** With the provider of [RefAuth.unlinked], whose three lookups find no
    row each in its own way, [checkSession] authenticates and leaves the
    account null. *)
Lemma authentication_independent_of_account_witness :
  exists row,
    result (Auth.checkSession (RefAuth.unlinked (Auth.Resolved None)))
      RefAuth.start = Ok tt
    /\ Auth.auth (after (Auth.checkSession (RefAuth.unlinked (Auth.Resolved None)))
                    RefAuth.start)
       = {| Auth.session := Some RefAuth.ada_session;
            Auth.user := Some RefAuth.ada_user;
            Auth.account := Auth.enrich row;
            Auth.isAuthenticated := true |}
    /\ row = VNull.
Proof.
  destruct (proj1 (proj2 (proj2
              (authentication_independent_of_account
                 (RefAuth.unlinked (Auth.Resolved None)) RefAuth.start)))
              RefAuth.ada_session eq_refl)
    as (row & _ & Hrun & Hauth & _ & Hnull).
  exists row. split; [exact Hrun|]. split; [exact Hauth|].
  apply Hnull. intros h column value. unfold RefAuth.unlinked.
  cbn [Auth.select_eq].
  destruct (bool_decide (column = "id")); [reflexivity|].
  destruct (bool_decide (column = "user_id")); reflexivity.
Defined.

Example checkSession_unlinked :
  Auth.auth (RefAuth.signed_in (Auth.Resolved None))
  = {| Auth.session := Some RefAuth.ada_session;
       Auth.user := Some RefAuth.ada_user;
       Auth.account := None;
       Auth.isAuthenticated := true |}
  /\ Auth.history (RefAuth.signed_in (Auth.Resolved None))
     = [Auth.CallGetSession;
        Auth.CallSelect "id" "7f3c2a";
        Auth.CallSelect "user_id" "7f3c2a";
        Auth.CallSelect "email" "ada@example.org"].
Proof. vm_compute. split; reflexivity. Qed.

(** ** Logout *)

(** C9, as the code has it.  Every [logout] calls the provider's
    [signOut].  When that call returns, with or without an error in its
    result, [logout] returns and the session, the user and the account are
    null and [isAuthenticated] is false.  When the call throws (the promise
    is rejected), [logout] throws the same and leaves the state of the
    store as it was. *)
Theorem logout_clears_when_signOut_returns (P : Auth.Provider)
    (w : Auth.World) :
  Auth.history (after (Auth.logout P) w)
  = (Auth.history w ++ [Auth.CallSignOut])%list
  /\ (forall err,
        Auth.signOut P (Auth.history w) = Auth.Resolved err ->
        result (Auth.logout P) w = Ok tt
        /\ Auth.auth (after (Auth.logout P) w) = Auth.cleared)
  /\ (forall e,
        Auth.signOut P (Auth.history w) = Auth.Rejected e ->
        result (Auth.logout P) w = Throw e
        /\ Auth.auth (after (Auth.logout P) w) = Auth.auth w).
Proof.
  unfold result, after, Auth.logout, bind, Auth.await.
  destruct (Auth.signOut P (Auth.history w)) as [err|e]; cbn [fst snd].
  - split; [reflexivity|]. split.
    + intros err' _. split; reflexivity.
    + intros e He. discriminate He.
  - split; [reflexivity|]. split.
    + intros err He. discriminate He.
    + intros e' He. inversion He; subst. split; reflexivity.
Qed.

Lemma logout_clears_when_signOut_returns_witness :
  result (Auth.logout (RefAuth.unlinked (Auth.Resolved (Some "session_not_found"))))
    (RefAuth.signed_in (Auth.Resolved (Some "session_not_found"))) = Ok tt
  /\ Auth.auth
       (after (Auth.logout (RefAuth.unlinked (Auth.Resolved (Some "session_not_found"))))
          (RefAuth.signed_in (Auth.Resolved (Some "session_not_found"))))
     = Auth.cleared.
Proof.
  apply (proj1 (proj2 (logout_clears_when_signOut_returns
                         (RefAuth.unlinked (Auth.Resolved (Some "session_not_found")))
                         (RefAuth.signed_in (Auth.Resolved (Some "session_not_found")))))
           (Some "session_not_found")).
  reflexivity.
Defined.

(** C9 as stated fails when the provider's [signOut] throws: the signed-in
    store stays authenticated, with its session, and [logout] throws. *)
Lemma logout_keeps_state_when_signOut_throws :
  Auth.isAuthenticated
    (Auth.auth (RefAuth.signed_in (Auth.Rejected (ProviderError "network"))))
  = true
  /\ result (Auth.logout (RefAuth.unlinked (Auth.Rejected (ProviderError "network"))))
       (RefAuth.signed_in (Auth.Rejected (ProviderError "network")))
     = Throw (ProviderError "network")
  /\ Auth.auth
       (after (Auth.logout (RefAuth.unlinked (Auth.Rejected (ProviderError "network"))))
          (RefAuth.signed_in (Auth.Rejected (ProviderError "network"))))
     = {| Auth.session := Some RefAuth.ada_session;
          Auth.user := Some RefAuth.ada_user;
          Auth.account := None;
          Auth.isAuthenticated := true |}.
Proof. vm_compute. repeat split. Qed.

(** * Further properties of the stores *)

(** ** Hydration of an account that is not loaded *)

(** X1. When another account or none is loaded, [ensureLoaded] reads the
    storage once, under the account's key.  If the adapter finds a
    snapshot, the store takes its profiles and its selection as they are
    stored, and nothing is written; the selection is the snapshot's
    [currentProfileId] read as is, hence undefined, not null, when the
    snapshot carries none.  If it finds none (nothing stored, or
    text that is not a snapshot), the store becomes the empty collection
    for the account, and an empty snapshot is written under the key: text
    that was stored there and could not be read is replaced. *)
Theorem ensureLoaded_hydrates (E : Profiles.Env) (A : string)
    (w : Profiles.World) :
  Profiles.loadedForUserId (Profiles.store w) <> Some A ->
  let key := Profiles.storageKey A in
  let w' := after (Profiles.ensureLoaded E A) w in
  let text :=
    Profiles.JSON_stringify E
      (Profiles.PersistedProfiles [] VNull
         (toISOString (Profiles.clock E (Profiles.ticks w)))) in
  result (Profiles.ensureLoaded E A) w = Ok tt
  /\ (forall s,
        result (Profiles.loadFromStorage E A) w = Ok (Some s) ->
        Profiles.store w'
        = {| Profiles.profiles := Profiles.elements_of (lookup_prop s "profiles");
             Profiles.currentProfileId := lookup_prop s "currentProfileId";
             Profiles.loadedForUserId := Some A |}
        /\ (forall o,
              s = VObj o -> o !! "currentProfileId" = None ->
              Profiles.currentProfileId (Profiles.store w') = VUndef)
        /\ Profiles.calls w' = (Profiles.calls w ++ [Profiles.GetItem key])%list
        /\ Profiles.localStorage w' = Profiles.localStorage w)
  /\ (result (Profiles.loadFromStorage E A) w = Ok None ->
        Profiles.store w'
        = {| Profiles.profiles := [];
             Profiles.currentProfileId := VNull;
             Profiles.loadedForUserId := Some A |}
        /\ Profiles.calls w'
           = (Profiles.calls w
              ++ [Profiles.GetItem key; Profiles.SetItem key text])%list
        /\ (Profiles.quota_ok E (Profiles.localStorage w) key text = true ->
            Profiles.localStorage w' !! key = Some text)).
Proof.
  intros Hl key w' text. subst key w' text. unfold result, after.
  rewrite (ensureLoaded_other E A w Hl), loadFromStorage_run. cbn [fst snd].
  unfold Hydration.ensured.
  split; [reflexivity|]. split.
  - intros s Hs. inversion Hs as [Hs']. rewrite Hs'.
    split; [reflexivity|]. split; [|split; reflexivity].
    intros o -> Ho. unfold Profiles.with_store, Hydration.hydrated.
    cbn [Profiles.store Profiles.currentProfileId lookup_prop].
    rewrite Ho. reflexivity.
  - intros Hs. inversion Hs as [Hs']. rewrite Hs'.
    unfold Adapter.saved, Adapter.ticked, Adapter.read, Profiles.with_store.
    cbn [Profiles.store Profiles.calls Profiles.localStorage Profiles.ticks].
    split; [reflexivity|]. split; [rewrite <- app_assoc; reflexivity|].
    intros Hq. rewrite Hq. apply lookup_insert_eq.
Qed.

Lemma ensureLoaded_hydrates_witness :
  result (Profiles.ensureLoaded (Ref.env Ref.ticking) "acct-1")
    (RefSnapshots.holding "{not json") = Ok tt
  /\ Profiles.profiles
       (Profiles.store
          (after (Profiles.ensureLoaded (Ref.env Ref.ticking) "acct-1")
             (RefSnapshots.holding "{not json"))) = []
  /\ RefJSON.parse
       (default "" (Profiles.localStorage
                      (after (Profiles.ensureLoaded (Ref.env Ref.ticking) "acct-1")
                         (RefSnapshots.holding "{not json"))
                    !! Profiles.storageKey "acct-1"))
     = Some (Profiles.PersistedProfiles [] VNull "2023-11-14T22:13:20.000Z").
Proof.
  pose proof (ensureLoaded_hydrates (Ref.env Ref.ticking) "acct-1"
                (RefSnapshots.holding "{not json")
                ltac:(discriminate)) as H.
  cbv zeta in H. destruct H as (Hr & _ & Hmiss).
  destruct (Hmiss ltac:(vm_compute; reflexivity)) as (Hst & _ & Hq).
  split; [exact Hr|]. split; [rewrite Hst; reflexivity|].
  rewrite (Hq eq_refl). vm_compute. reflexivity.
Defined.

(** ** What is written is what the next session reads *)

Section Restore.

Import Profiles Adapter Runs Typed Lineage StoreFacts.

Variable E : Env.

(** The callbacks of [updateProfile] and [removeProfile] change nothing in
    the world but the number of clock readings. *)
Lemma mapM_updateOne_world id changes ps w :
  exists n, snd (mapM (updateOne E id changes) ps w) = advance n w.
Proof.
  revert w. induction ps as [|p ps IH]; intros w.
  - exists 0. destruct w; reflexivity.
  - cbn [mapM]. destruct (nullish p) eqn:Hn.
    + assert (Hu : updateOne E id changes p w = (Throw TypeError, w))
        by (unfold updateOne, prop; rewrite Hn; reflexivity).
      rewrite (bind_Throw _ _ _ _ _ Hu). exists 0. destruct w; reflexivity.
    + pose proof (updateOne_run E id changes p w Hn) as Hu.
      destruct (has_id id p).
      * rewrite (bind_Ok _ _ _ _ _ Hu). destruct (IH (ticked w)) as [n Hw].
        exists (S n).
        destruct (mapM (updateOne E id changes) ps (ticked w)) as [[ps'|e] w1] eqn:Hm;
          cbn [snd] in Hw; subst w1.
        -- rewrite (bind_Ok _ _ _ _ _ Hm). cbn [ret snd]. apply advance_ticked.
        -- rewrite (bind_Throw _ _ _ _ _ Hm). cbn [snd]. apply advance_ticked.
      * rewrite (bind_Ok _ _ _ _ _ Hu). destruct (IH w) as [n Hw].
        exists n.
        destruct (mapM (updateOne E id changes) ps w) as [[ps'|e] w1] eqn:Hm;
          cbn [snd] in Hw; subst w1.
        -- rewrite (bind_Ok _ _ _ _ _ Hm). reflexivity.
        -- rewrite (bind_Throw _ _ _ _ _ Hm). reflexivity.
Qed.

Lemma perform_synced A a w :
  (forall ls k v, quota_ok E ls k v = true) ->
  writes_for A w a = true ->
  result (perform E a) w = Ok tt ->
  synced E A (after (perform E a) w).
Proof.
  intros Hq Hw Hr. unfold synced, after, result in *.
  destruct a as [u|p|u d|u id changes|u id|]; cbn [writes_for perform] in *;
    try discriminate Hw.
  - apply andb_true_iff in Hw as [Hl Hne].
    apply bool_decide_eq_true in Hl. apply negb_true_iff in Hne.
    unfold setCurrentProfile. run_store. rewrite Hl, Hne.
    cbn. rewrite saveToStorage_run. cbn [snd]. eexists.
    unfold saved. cbn [localStorage store profiles currentProfileId].
    rewrite Hq. apply lookup_insert_eq.
  - apply bool_decide_eq_true in Hw. subst u.
    rewrite (bind_Ok _ _ _ _ _ (addProfile_run E A d w)). cbn [ret snd].
    eexists. unfold added, saved.
    cbn [localStorage store profiles currentProfileId].
    rewrite Hq. apply lookup_insert_eq.
  - apply bool_decide_eq_true in Hw. subst u.
    destruct (mapM_updateOne_world id changes (profiles (store w)) w) as [n Hn].
    destruct (mapM (updateOne E id changes) (profiles (store w)) w)
      as [[ps'|e] w1] eqn:Hm; cbn [snd] in Hn; subst w1.
    + eassert (Hrun : updateProfile E A id changes w = (Ok tt, _)).
      { unfold updateProfile. unfold bind at 1, get, gets.
        rewrite (bind_Ok _ _ _ _ _ Hm). run_store.
        rewrite saveToStorage_run. reflexivity. }
      rewrite Hrun. cbn [snd]. eexists.
      unfold saved, advance, with_store.
      cbn [localStorage store profiles currentProfileId].
      rewrite Hq. apply lookup_insert_eq.
    + exfalso. revert Hr. unfold updateProfile. unfold bind at 1, get, gets.
      rewrite (bind_Throw _ _ _ _ _ Hm). discriminate.
  - apply bool_decide_eq_true in Hw. subst u.
    destruct (filterM_keepOne_sublist id (profiles (store w)) w) as [Hw1 _].
    destruct (filterM (keepOne id) (profiles (store w)) w)
      as [[ps'|e] w1] eqn:Hm; cbn [snd] in Hw1; subst w1.
    + eassert (Hrun : removeProfile E A id w = (Ok tt, _)).
      { unfold removeProfile. unfold bind at 1, get, gets.
        rewrite (bind_Ok _ _ _ _ _ Hm). run_store.
        rewrite saveToStorage_run. reflexivity. }
      rewrite Hrun. cbn [snd]. eexists.
      unfold saved, with_store.
      cbn [localStorage store profiles currentProfileId].
      rewrite Hq. apply lookup_insert_eq.
    + exfalso. revert Hr. unfold removeProfile. unfold bind at 1, get, gets.
      rewrite (bind_Throw _ _ _ _ _ Hm). discriminate.
Qed.

End Restore.

(** ** The store in memory does not depend on the storage accepting writes *)

Section Quota.

Import Profiles Adapter Runs Typed Lineage StoreFacts RemoveRuns.

Lemma updateProfile_mapped E u id changes w ps' w1 :
  mapM (updateOne E id changes) (profiles (store w)) w = (Ok ps', w1) ->
  updateProfile E u id changes w
  = (Ok tt,
     saved E (storageKey u)
       (JSON_stringify E
          (PersistedProfiles ps' (currentProfileId (store w))
             (toISOString (clock E (ticks w1)))))
       (ticked
          (with_store
             (fun s => {| profiles := ps';
                          currentProfileId := currentProfileId s;
                          loadedForUserId := loadedForUserId s |}) w1))).
Proof.
  intros Hm. unfold updateProfile. unfold bind at 1, get, gets.
  rewrite (bind_Ok _ _ _ _ _ Hm). run_store.
  rewrite saveToStorage_run. reflexivity.
Qed.

Lemma updateProfile_thrown E u id changes w e w1 :
  mapM (updateOne E id changes) (profiles (store w)) w = (Throw e, w1) ->
  updateProfile E u id changes w = (Throw e, w1).
Proof.
  intros Hm. unfold updateProfile. unfold bind at 1, get, gets.
  rewrite (bind_Throw _ _ _ _ _ Hm). reflexivity.
Qed.

Lemma removeProfile_filtered E u id w ps' :
  filterM (keepOne id) (profiles (store w)) w = (Ok ps', w) ->
  removeProfile E u id w = (Ok tt, removed_to E u id ps' w).
Proof.
  intros Hm. unfold removeProfile. unfold bind at 1, get, gets.
  rewrite (bind_Ok _ _ _ _ _ Hm). run_store.
  rewrite saveToStorage_run. reflexivity.
Qed.

Lemma removeProfile_thrown E u id w e w1 :
  filterM (keepOne id) (profiles (store w)) w = (Throw e, w1) ->
  removeProfile E u id w = (Throw e, w1).
Proof.
  intros Hm. unfold removeProfile. unfold bind at 1, get, gets.
  rewrite (bind_Throw _ _ _ _ _ Hm). reflexivity.
Qed.

Variable E : Env.
Variable q : gmap string string -> string -> string -> bool.


End Quota.


Example addProfile_with_storage_full :
  map (fun p => lookup_prop p "firstName")
    (Profiles.profiles
       (Profiles.store
          (after (Profiles.addProfile
                    (StoreFacts.with_quota (Ref.env Ref.ticking) (fun _ _ _ => false))
                    "acct-1" Ref.ada_owned) Ref.fresh)))
  = [VStr "Ada"]
  /\ Profiles.localStorage
       (after (Profiles.addProfile
                 (StoreFacts.with_quota (Ref.env Ref.ticking) (fun _ _ _ => false))
                 "acct-1" Ref.ada_owned) Ref.fresh)
     = ∅.
Proof. vm_compute. split; reflexivity. Qed.

(** ** Updating an unknown profile, removing twice *)

Section Edits.

Import Profiles Adapter Runs Typed StoreFacts.

Variable E : Env.

Lemma updatedList_unmatched id changes k ps :
  forallb (fun p => negb (has_id id p)) ps = true ->
  updatedList E id changes k ps = ps /\ matching id ps = 0.
Proof.
  induction ps as [|p ps IH]; [split; reflexivity|].
  cbn [forallb]. intros [Hp Hps]%andb_true_iff. apply negb_true_iff in Hp.
  destruct (IH Hps) as [Hu Hm]. unfold matching in *.
  cbn [updatedList]. rewrite filter_cons, Hp, Hu.
  rewrite decide_False by discriminate. split; [reflexivity|exact Hm].
Qed.

Lemma remaining_unmatched id ps :
  forallb (fun p => negb (has_id id (p : jsval))) (remaining id ps) = true.
Proof.
  unfold remaining. induction ps as [|p ps IH]; [reflexivity|].
  rewrite filter_cons. destruct (decide (has_id id p = false)) as [Hp|Hp];
    [|exact IH].
  cbn [forallb]. rewrite Hp. exact IH.
Qed.

Lemma remaining_remaining id ps : remaining id (remaining id ps) = remaining id ps.
Proof.
  unfold remaining. induction ps as [|p ps IH]; [reflexivity|].
  rewrite filter_cons. destruct (decide (has_id id p = false)) as [Hp|Hp];
    [|exact IH].
  rewrite filter_cons, decide_True by exact Hp. rewrite IH. reflexivity.
Qed.

Lemma fallback_settled id current next :
  typed_all next = true ->
  forallb (fun p => negb (has_id id p)) next = true ->
  fallback id (fallback id current next) next = fallback id current next.
Proof.
  intros Ht Hn.
  assert (Hcur : current = VStr id \/ current <> VStr id).
  { destruct current as [| | | |s| |]; try (right; discriminate).
    destruct (decide (s = id)) as [->|Hs]; [left; reflexivity|].
    right. congruence. }
  destruct Hcur as [->|Hne].
  - rewrite (fallback_first id next Ht).
    destruct next as [|p next]; [reflexivity|].
    cbn [forallb typed_all] in *.
    apply andb_true_iff in Ht as [Hp _]. apply andb_true_iff in Hn as [Hq _].
    apply negb_true_iff in Hq.
    change (head (p :: next) ≫= profile_id) with (profile_id p).
    unfold typed_profile, has_id, profile_id in *.
    destruct (lookup_prop p "id") as [| | | |i| |]; try discriminate Hp.
    apply fallback_other. cbn [of_nullable]. cbn [strict_eq_str] in Hq.
    apply bool_decide_eq_false in Hq. congruence.
  - rewrite (fallback_other id current next Hne).
    apply fallback_other, Hne.
Qed.

End Edits.

(** X4. On a collection that holds no null or undefined element,
    [updateProfile] with an identifier no profile of the collection has
    changes nothing in memory: profiles, selection and loaded account
    stay as they were.  It still reads the clock once and writes the
    snapshot under the key of the account it was called with.  (With a
    null element it throws instead, before any reading or writing.) *)
Theorem updateProfile_unknown_id (E : Profiles.Env) (u id : string)
    (changes : gmap string jsval) (w : Profiles.World) :
  Typed.defined_all (Profiles.profiles (Profiles.store w)) = true ->
  forallb (fun p => negb (Runs.has_id id p))
    (Profiles.profiles (Profiles.store w)) = true ->
  let w' := after (Profiles.updateProfile E u id changes) w in
  result (Profiles.updateProfile E u id changes) w = Ok tt
  /\ Profiles.store w' = Profiles.store w
  /\ Profiles.ticks w' = S (Profiles.ticks w)
  /\ Profiles.calls w'
     = (Profiles.calls w
        ++ [Profiles.SetItem (Profiles.storageKey u)
              (Profiles.JSON_stringify E
                 (Profiles.PersistedProfiles
                    (Profiles.profiles (Profiles.store w))
                    (Profiles.currentProfileId (Profiles.store w))
                    (toISOString (Profiles.clock E (Profiles.ticks w)))))])%list.
Proof.
  intros Hdef Hno w'. subst w'. unfold result, after.
  rewrite (updateProfile_run E u id changes w Hdef). cbn [fst snd].
  unfold Runs.updated, Adapter.saved.
  destruct (updatedList_unmatched E id changes (Profiles.ticks w) _ Hno)
    as [Hu Hm].
  rewrite Hu, Hm. cbn [Profiles.store Profiles.ticks Profiles.calls].
  split; [reflexivity|]. split; [destruct (Profiles.store w); reflexivity|].
  split; reflexivity.
Qed.

Lemma updateProfile_unknown_id_witness :
  Profiles.store
    (after (Profiles.updateProfile (Ref.env Ref.ticking) "acct-1" "ghost"
              AdaScenario.licence) Scenario.one_profile)
  = Profiles.store Scenario.one_profile.
Proof.
  apply (updateProfile_unknown_id (Ref.env Ref.ticking) "acct-1" "ghost"
           AdaScenario.licence Scenario.one_profile); reflexivity.
Defined.

(** X5. After [removeProfile(_, id)] on a collection of typed profiles no
    profile of the collection has the identifier [id], and removing the
    same identifier once more changes neither the collection nor the
    selection: in memory, removing twice is removing once. *)
Theorem removeProfile_twice (E : Profiles.Env) (u u' id : string)
    (w : Profiles.World) :
  Typed.typed_all (Profiles.profiles (Profiles.store w)) = true ->
  let w1 := after (Profiles.removeProfile E u id) w in
  forallb (fun p => negb (Runs.has_id id p))
    (Profiles.profiles (Profiles.store w1)) = true
  /\ result (Profiles.removeProfile E u' id) w1 = Ok tt
  /\ Profiles.store (after (Profiles.removeProfile E u' id) w1)
     = Profiles.store w1.
Proof.
  intros Ht w1. subst w1. unfold result, after.
  rewrite (removeProfile_run E u id w (typed_all_defined _ Ht)). cbn [snd].
  assert (Ht1 : Typed.typed_all
                  (Profiles.profiles (Profiles.store (Runs.removed E u id w)))
                = true) by (apply remaining_typed, Ht).
  rewrite (removeProfile_run E u' id _ (typed_all_defined _ Ht1)).
  cbn [fst snd]. split; [apply remaining_unmatched|]. split; [reflexivity|].
  unfold Runs.removed at 1, Adapter.saved. cbn [Profiles.store].
  unfold Runs.removed, Adapter.saved.
  cbn [Profiles.store Profiles.profiles Profiles.currentProfileId
       Profiles.loadedForUserId].
  rewrite remaining_remaining.
  rewrite fallback_settled;
    [reflexivity | apply remaining_typed, Ht | apply remaining_unmatched].
Qed.

Lemma removeProfile_twice_witness :
  Profiles.store
    (after (Profiles.removeProfile (Ref.env Ref.ticking) "acct-1" "loyw3v28-4fzyo8")
       (after (Profiles.removeProfile (Ref.env Ref.ticking) "acct-1"
                 "loyw3v28-4fzyo8") Scenario.one_profile))
  = Profiles.store
      (after (Profiles.removeProfile (Ref.env Ref.ticking) "acct-1"
                "loyw3v28-4fzyo8") Scenario.one_profile).
Proof.
  apply (removeProfile_twice (Ref.env Ref.ticking) "acct-1" "acct-1"
           "loyw3v28-4fzyo8" Scenario.one_profile).
  reflexivity.
Defined.

(** X6. A selection made while no account is loaded is kept in memory
    only: [setCurrentProfile] then makes no storage call at all, and the
    next [ensureLoaded] discards it, leaving the world it would have left
    without that selection. *)
Theorem selection_without_account_is_lost (E : Profiles.Env)
    (profileId : option string) (A : string) (w : Profiles.World) :
  Profiles.loadedForUserId (Profiles.store w) = None ->
  let w1 := after (Profiles.setCurrentProfile E profileId) w in
  Profiles.currentProfileId (Profiles.store w1) = of_nullable profileId
  /\ Profiles.calls w1 = Profiles.calls w
  /\ Profiles.localStorage w1 = Profiles.localStorage w
  /\ after (Profiles.ensureLoaded E A) w1 = after (Profiles.ensureLoaded E A) w.
Proof.
  intros Hl w1. subst w1.
  assert (Hrun : Profiles.setCurrentProfile E profileId w
                 = (Ok tt,
                    Profiles.with_store
                      (fun s =>
                         {| Profiles.profiles := Profiles.profiles s;
                            Profiles.currentProfileId := of_nullable profileId;
                            Profiles.loadedForUserId :=
                              Profiles.loadedForUserId s |}) w)).
  { unfold Profiles.setCurrentProfile. run_store. rewrite Hl. reflexivity. }
  unfold after. rewrite Hrun. cbn [snd].
  split; [reflexivity|]. split; [reflexivity|]. split; [reflexivity|].
  rewrite (ensureLoaded_other E A w) by congruence.
  rewrite ensureLoaded_other
    by (unfold Profiles.with_store; simpl; congruence).
  reflexivity.
Qed.

Lemma selection_without_account_is_lost_witness :
  Profiles.currentProfileId
    (Profiles.store
       (after (Profiles.setCurrentProfile (Ref.env Ref.ticking) (Some "p1"))
          Ref.fresh)) = VStr "p1"
  /\ after (Profiles.ensureLoaded (Ref.env Ref.ticking) "acct-1")
       (after (Profiles.setCurrentProfile (Ref.env Ref.ticking) (Some "p1"))
          Ref.fresh)
     = after (Profiles.ensureLoaded (Ref.env Ref.ticking) "acct-1") Ref.fresh.
Proof.
  destruct (selection_without_account_is_lost (Ref.env Ref.ticking) (Some "p1")
              "acct-1" Ref.fresh eq_refl) as (Hc & _ & _ & He).
  split; assumption.
Defined.

(** ** The selection names a profile *)

Section SelectionValid.

Import Profiles Adapter Runs Typed Lineage StoreFacts Selection.

Variable E : Env.

Lemma merged_id (changes : gmap string jsval) (t : string) (p : jsval) :
  changes !! "id" = None ->
  lookup_prop (VObj (<["updatedAt" := VStr t]> (changes ∪ own_props p))) "id"
  = lookup_prop (VObj (own_props p)) "id".
Proof.
  intros Hc. unfold lookup_prop.
  rewrite lookup_insert_ne by discriminate.
  rewrite lookup_union_r by exact Hc. reflexivity.
Qed.

Lemma typed_own_props p : typed_profile p = true -> VObj (own_props p) = p.
Proof. destruct p; try discriminate. reflexivity. Qed.

Lemma updatedList_typed id changes k ps :
  changes !! "id" = None ->
  typed_all ps = true -> typed_all (updatedList E id changes k ps) = true.
Proof.
  intros Hc. unfold typed_all. revert k.
  induction ps as [|p ps IH]; intros k; [reflexivity|].
  cbn [forallb updatedList]. intros [Hp Hps]%andb_true_iff.
  destruct (has_id id p); cbn [forallb]; rewrite (IH _ Hps), andb_true_r;
    [|exact Hp].
  unfold typed_profile, profile_id. rewrite (merged_id _ _ _ Hc).
  rewrite (typed_own_props p Hp). exact Hp.
Qed.

Lemma updatedList_has id changes k ps i p :
  changes !! "id" = None ->
  typed_all ps = true ->
  p ∈ ps -> has_id i p = true ->
  exists p', p' ∈ updatedList E id changes k ps /\ has_id i p' = true.
Proof.
  intros Hc. unfold typed_all. revert k.
  induction ps as [|q ps IH]; intros k Ht Hin Hi;
    [apply elem_of_nil in Hin; contradiction|].
  cbn [forallb] in Ht. apply andb_true_iff in Ht as [Hq Hps].
  cbn [updatedList]. apply elem_of_cons in Hin as [->|Hin].
  - destruct (has_id id q).
    + eexists. split; [apply list_elem_of_here|].
      unfold has_id. rewrite (merged_id _ _ _ Hc).
      rewrite (typed_own_props q Hq). exact Hi.
    + exists q. split; [apply list_elem_of_here|exact Hi].
  - destruct (has_id id q).
    + destruct (IH (S k) Hps Hin Hi) as (p' & Hp' & Hh).
      exists p'. split; [apply list_elem_of_further, Hp'|exact Hh].
    + destruct (IH k Hps Hin Hi) as (p' & Hp' & Hh).
      exists p'. split; [apply list_elem_of_further, Hp'|exact Hh].
Qed.

Lemma newProfile_typed data w :
  data !! "id" = None -> typed_profile (newProfile E data w) = true.
Proof.
  intros Hd. unfold typed_profile, profile_id.
  rewrite (newProfile_id E data w Hd). reflexivity.
Qed.

Lemma added_well_formed u data w :
  data !! "id" = None ->
  well_formed (store w) -> well_formed (store (added E u data w)).
Proof.
  intros Hd [Ht Hs]. unfold added, saved, well_formed, selection_ok in *.
  cbn [store profiles currentProfileId]. split.
  - unfold typed_all in *. rewrite forallb_app, Ht. cbn [forallb].
    rewrite (newProfile_typed data w Hd). reflexivity.
  - rewrite (newProfile_id E data w Hd).
    destruct (currentProfileId (store w)) as [| | | |i| |];
      cbn [coalesce nullish]; try contradiction.
    + exists (newProfile E data w). split; [set_solver|].
      unfold has_id. rewrite (newProfile_id E data w Hd).
      cbn [strict_eq_str]. apply bool_decide_eq_true_2. reflexivity.
    + destruct Hs as (p & Hp & Hi). exists p. split; [set_solver|exact Hi].
Qed.

Lemma updated_well_formed u id changes w :
  changes !! "id" = None ->
  well_formed (store w) -> well_formed (store (updated E u id changes w)).
Proof.
  intros Hc [Ht Hs]. unfold updated, saved, well_formed, selection_ok in *.
  cbn [store profiles currentProfileId]. split.
  - apply updatedList_typed; assumption.
  - destruct (currentProfileId (store w)) as [| | | |i| |]; try exact Hs.
    destruct Hs as (p & Hp & Hi).
    apply (updatedList_has id changes _ _ i p Hc Ht Hp Hi).
Qed.

Lemma has_id_unique i j p :
  has_id i p = true -> i <> j -> has_id j p = false.
Proof.
  unfold has_id. destruct (lookup_prop p "id"); try discriminate.
  cbn [strict_eq_str]. intros ->%bool_decide_eq_true Hne.
  apply bool_decide_eq_false_2, Hne.
Qed.

Lemma removed_well_formed u id w :
  well_formed (store w) -> well_formed (store (removed E u id w)).
Proof.
  intros [Ht Hs]. unfold removed, saved, well_formed, selection_ok in *.
  cbn [store profiles currentProfileId].
  split; [apply remaining_typed, Ht|].
  pose proof (remaining_typed id _ Ht) as Hr.
  destruct (currentProfileId (store w)) as [| | | |i| |] eqn:Hcur;
    try contradiction.
  - rewrite fallback_other by discriminate. exact I.
  - destruct (decide (i = id)) as [->|Hne].
    + rewrite (fallback_first id _ Hr).
      destruct (remaining id (profiles (store w))) as [|q qs] eqn:Hq;
        [exact I|].
      change (head (q :: qs) ≫= profile_id) with (profile_id q).
      cbn [typed_all forallb] in Hr. apply andb_true_iff in Hr as [Hty _].
      unfold typed_profile in Hty.
      destruct (profile_id q) as [j|] eqn:Hj; [|discriminate].
      cbn [of_nullable]. exists q. split; [apply list_elem_of_here|].
      unfold has_id, profile_id in *.
      destruct (lookup_prop q "id"); try discriminate Hj.
      injection Hj as ->. cbn [strict_eq_str].
      apply bool_decide_eq_true_2. reflexivity.
    + rewrite fallback_other by congruence.
      destruct Hs as (p & Hp & Hi). exists p. split; [|exact Hi].
      unfold remaining. apply list_elem_of_filter. split; [|exact Hp].
      apply (has_id_unique i id p Hi Hne).
Qed.

Lemma mutation_well_formed a w :
  mutation a = true ->
  well_formed (store w) ->
  result (perform E a) w = Ok tt
  /\ well_formed (store (after (perform E a) w)).
Proof.
  intros Hm Hw. pose proof Hw as [Ht _].
  pose proof (typed_all_defined _ Ht) as Hd.
  destruct a as [u|pid|u d|u id changes|u id|]; try discriminate Hm;
    cbn [mutation] in Hm; unfold result, after; cbn [perform].
  - apply bool_decide_eq_true in Hm.
    rewrite (bind_Ok _ _ _ _ _ (addProfile_run E u d w)). cbn [ret fst snd].
    split; [reflexivity|]. apply added_well_formed; assumption.
  - apply bool_decide_eq_true in Hm.
    rewrite (updateProfile_run E u id changes w Hd). cbn [fst snd].
    split; [reflexivity|]. apply updated_well_formed; assumption.
  - rewrite (removeProfile_run E u id w Hd). cbn [fst snd].
    split; [reflexivity|]. apply removed_well_formed; assumption.
  - unfold reset, set, modify. cbn [fst snd store profiles].
    split; [reflexivity|]. split; [reflexivity|exact I].
Qed.

End SelectionValid.

(** X7. A store in which every profile carries a string id and the
    selection is null or the id of a profile of the collection stays so
    across any sequence of [addProfile], [updateProfile], [removeProfile]
    and [reset] whose data and changes carry no [id]: after such calls
    [currentProfileId] never names a profile that is not there. *)
Theorem mutations_keep_selection_valid (E : Profiles.Env)
    (acts : list Lineage.Action) (w : Profiles.World) :
  forallb Selection.mutation acts = true ->
  Selection.well_formed (Profiles.store w) ->
  Selection.well_formed (Profiles.store (Lineage.performAll E acts w)).
Proof.
  revert w. induction acts as [|a acts IH]; intros w Hm Hw; [exact Hw|].
  cbn [forallb] in Hm. apply andb_true_iff in Hm as [Ha Hm].
  cbn [Lineage.performAll]. apply IH; [exact Hm|].
  apply (mutation_well_formed E a w Ha Hw).
Qed.

Lemma mutations_keep_selection_valid_witness :
  Selection.well_formed
    (Profiles.store
       (Lineage.performAll (Ref.env Ref.ticking)
          [Lineage.Add "acct-1" Ref.ada;
           Lineage.Add "acct-1" Ref.grace;
           Lineage.Update "acct-1" "loyw3v28-4fzyo8" AdaScenario.licence;
           Lineage.Remove "acct-1" "loyw3v28-4fzyo8"]
          Ref.fresh)).
Proof.
  apply (mutations_keep_selection_valid (Ref.env Ref.ticking)).
  - vm_compute. reflexivity.
  - split; [reflexivity|exact I].
Defined.

(** ** Generated identifiers *)

Section Identifiers.

Import Profiles Base36.

Lemma digit_value (d : N) :
  (d < 36)%N ->
  value (digit_of alphabet d) = d
  /\ Ascii.eqb (digit_of alphabet d) "-" = false.
Proof.
  intros Hd.
  assert (Hall : forallb
                   (fun k => (value (digit_of alphabet (N.of_nat k))
                              =? N.of_nat k)%N
                             && negb (Ascii.eqb
                                        (digit_of alphabet (N.of_nat k)) "-"))
                   (seq 0 36) = true) by (vm_compute; reflexivity).
  rewrite forallb_forall in Hall.
  specialize (Hall (N.to_nat d)). rewrite N2Nat.id in Hall.
  assert (Hin : In (N.to_nat d) (seq 0 36)) by (apply in_seq; lia).
  apply Hall in Hin. apply andb_true_iff in Hin as [Hv Hn].
  apply N.eqb_eq in Hv. apply negb_true_iff in Hn. split; assumption.
Qed.

Lemma decode_app s t k : decode (s +:+ t) k = decode t (decode s k).
Proof.
  revert k. induction s as [|c s IH]; intros k; [reflexivity|].
  cbn [String.append decode]. apply IH.
Qed.

Lemma dashless_app s t : dashless (s +:+ t) = dashless s && dashless t.
Proof.
  induction s as [|c s IH]; [reflexivity|].
  change (String c s +:+ t) with (String c (s +:+ t)).
  cbn [dashless]. rewrite IH, andb_assoc. reflexivity.
Qed.

Lemma radix_digits_numeral fuel n acc :
  (n < 36 ^ N.of_nat fuel)%N ->
  exists s,
    radix_digits fuel 36 alphabet n acc = s +:+ acc
    /\ decode s 0 = n /\ dashless s = true.
Proof.
  revert n acc. induction fuel as [|fuel IH]; intros n acc Hn.
  - exists EmptyString. cbn in Hn. repeat split. cbn [decode]. lia.
  - cbn [radix_digits].
    assert (Hmod : (n mod 36 < 36)%N) by (apply N.mod_lt; discriminate).
    destruct (digit_value _ Hmod) as [Hv Hd].
    destruct (n / 36 =? 0)%N eqn:Hq.
    + apply N.eqb_eq in Hq.
      exists (String (digit_of alphabet (n mod 36)) EmptyString).
      split; [reflexivity|]. cbn [decode dashless]. rewrite Hv, Hd.
      split; [|reflexivity].
      pose proof (N.div_mod n 36 ltac:(discriminate)). lia.
    + assert (Hdiv : (n / 36 < 36 ^ N.of_nat fuel)%N).
      { apply N.Div0.div_lt_upper_bound.
        rewrite Nat2N.inj_succ, N.pow_succ_r' in Hn. exact Hn. }
      destruct (IH (n / 36)%N (String (digit_of alphabet (n mod 36)) acc) Hdiv)
        as (s & Hs & Hdec & Hdash).
      exists (s +:+ String (digit_of alphabet (n mod 36)) EmptyString).
      split; [|split].
      * rewrite Hs, append_assoc. reflexivity.
      * rewrite decode_app, Hdec. cbn [decode]. rewrite Hv.
        pose proof (N.div_mod n 36 ltac:(discriminate)). lia.
      * rewrite dashless_app, Hdash. cbn [dashless]. rewrite Hd. reflexivity.
Qed.

Lemma toString36_numeral n :
  decode (toString36 n) 0 = n /\ dashless (toString36 n) = true.
Proof.
  assert (Hn : (n < 36 ^ N.of_nat (S (N.to_nat (N.log2 n))))%N).
  { rewrite Nat2N.inj_succ, N2Nat.id.
    destruct (N.eq_dec n 0%N) as [->|Hpos]; [reflexivity|].
    apply N.lt_le_trans with (2 ^ N.succ (N.log2 n))%N.
    - apply N.log2_spec. lia.
    - apply N.pow_le_mono_l. lia. }
  destruct (radix_digits_numeral _ n EmptyString Hn) as (s & Hs & Hdec & Hd).
  unfold toString36. change "0123456789abcdefghijklmnopqrstuvwxyz" with alphabet.
  rewrite Hs.
  assert (Hnil : s +:+ EmptyString = s).
  { clear. induction s as [|c s IH]; [reflexivity|].
    change (String c s +:+ EmptyString) with (String c (s +:+ EmptyString)).
    rewrite IH. reflexivity. }
  rewrite Hnil. split; assumption.
Qed.

Lemma dash_splits s1 s2 r1 r2 :
  dashless s1 = true -> dashless s2 = true ->
  s1 +:+ String "-" r1 = s2 +:+ String "-" r2 -> s1 = s2.
Proof.
  revert s2. induction s1 as [|c s1 IH]; intros [|d s2] H1 H2 Heq;
    simpl in *.
  - reflexivity.
  - injection Heq as <- _. discriminate H2.
  - injection Heq as -> _. discriminate H1.
  - injection Heq as -> Heq.
    apply andb_true_iff in H1 as [_ H1]. apply andb_true_iff in H2 as [_ H2].
    rewrite (IH s2 H1 H2 Heq). reflexivity.
Qed.

Lemma uid_run (E : Env) (w : World) :
  result (uid E) w = Ok (Runs.uidAt E w).
Proof. reflexivity. Qed.

Lemma uidAt_separates (E : Env) (w1 w2 : World) :
  Runs.uidAt E w1 = Runs.uidAt E w2 ->
  clock E (ticks w1) = clock E (ticks w2).
Proof.
  unfold Runs.uidAt. intros Heq.
  destruct (toString36_numeral (clock E (ticks w1))) as [Hd1 Hl1].
  destruct (toString36_numeral (clock E (ticks w2))) as [Hd2 Hl2].
  apply (dash_splits _ _ _ _ Hl1 Hl2) in Heq.
  rewrite <- Hd1, <- Hd2, Heq. reflexivity.
Qed.

End Identifiers.

(** X8. [uid] always returns, and the identifiers it generates at two
    different readings of the clock differ, whatever [Math.random] draws:
    the part before the first hyphen is the base-36 numeral of the
    reading, which contains no hyphen and determines the reading. *)
Theorem uid_distinct_at_distinct_instants (E : Profiles.Env)
    (w1 w2 : Profiles.World) :
  Profiles.clock E (Profiles.ticks w1) <> Profiles.clock E (Profiles.ticks w2) ->
  exists i1 i2,
    result (Profiles.uid E) w1 = Ok i1
    /\ result (Profiles.uid E) w2 = Ok i2
    /\ i1 <> i2.
Proof.
  intros Hne. exists (Runs.uidAt E w1), (Runs.uidAt E w2).
  split; [apply uid_run|]. split; [apply uid_run|].
  intros Heq. apply Hne, (uidAt_separates E w1 w2 Heq).
Qed.

Lemma uid_distinct_at_distinct_instants_witness :
  exists i1 i2,
    result (Profiles.uid (Ref.env Ref.ticking)) Ref.fresh = Ok i1
    /\ result (Profiles.uid (Ref.env Ref.ticking)) (Typed.advance 1 Ref.fresh)
       = Ok i2
    /\ i1 <> i2.
Proof.
  apply (uid_distinct_at_distinct_instants (Ref.env Ref.ticking) Ref.fresh
           (Typed.advance 1 Ref.fresh)).
  vm_compute. discriminate.
Defined.

(** * Further properties of the authentication store *)

Section Lookups.

Import Auth AuthRuns.

Variable P : Provider.




End Lookups.



(** ** What the actions leave of the state *)

Section Coherence.

Import Auth AuthRuns AccountUpdate AuthActions.

Variable P : Provider.
Variable U : Updater.

Lemma checkSession_coherent w :
  coherent (auth w) = true ->
  coherent (auth (after (checkSession P) w)) = true.
Proof.
  intros Hc. destruct (getSession P (history w)) as [[s|]|e] eqn:Hs.
  - destruct (checkSession_run P s w Hs) as (row & w' & _ & Hrun).
    unfold after. rewrite Hrun. cbn [snd auth]. unfold coherent.
    cbn [session user account isAuthenticated is_some].
    destruct (enrich row); reflexivity.
  - unfold after, checkSession. unfold bind at 1, await. rewrite Hs.
    reflexivity.
  - unfold after, checkSession. unfold bind at 1, await. rewrite Hs.
    exact Hc.
Qed.

Lemma login_coherent email password w :
  coherent (auth w) = true ->
  coherent (auth (after (login P email password) w)) = true.
Proof.
  intros Hc.
  destruct (signInWithPassword P (history w) email password) as [r|e] eqn:Hr.
  - destruct (r_error r) as [msg|] eqn:He.
    + unfold after, login. unfold bind at 1, await. rewrite Hr, He. exact Hc.
    + destruct (r_session r) as [s|] eqn:Hs.
      * destruct (login_run P email password r s w Hr He Hs)
          as (row & w' & _ & Hrun).
        unfold after. rewrite Hrun. cbn [snd auth]. unfold coherent.
        cbn [session user account isAuthenticated is_some].
        destruct (r_user r), (enrich row); reflexivity.
      * unfold after, login. unfold bind at 1, await. rewrite Hr, He, Hs.
        reflexivity.
  - unfold after, login. unfold bind at 1, await. rewrite Hr. exact Hc.
Qed.

Lemma logout_coherent w :
  coherent (auth w) = true ->
  coherent (auth (after (logout P) w)) = true.
Proof.
  intros Hc. unfold after, logout. unfold bind at 1, await.
  destruct (signOut P (history w)); [reflexivity|exact Hc].
Qed.

(** What [updateAccount] does to the world, case by case. *)
Lemma updateAccount_cases changes w :
  (fst (updateAccount U changes w) = ThrewError "Not authenticated"
   /\ user (auth (base w)) = None
   /\ snd (updateAccount U changes w) = w)
  \/ (fst (updateAccount U changes w) = ThrewError "Account not loaded"
      /\ account (auth (base w)) = None
      /\ snd (updateAccount U changes w) = w)
  \/ (exists u a,
        user (auth (base w)) = Some u
        /\ account (auth (base w)) = Some a
        /\ let c := {| patch := patch_of changes; filter := filter_for u a |} in
           ((exists e, fst (updateAccount U changes w) = Threw e)
            /\ snd (updateAccount U changes w) = sent c w
            \/ exists r,
                 U (history (base w)) (updates w) c = Resolved r
                 /\ u_error r = None
                 /\ nullish (u_data r) = false
                 /\ fst (updateAccount U changes w)
                    = Returned (mapRowToAccount (u_data r))
                 /\ snd (updateAccount U changes w)
                    = with_account (mapRowToAccount (u_data r)) (sent c w))).
Proof.
  unfold updateAccount.
  destruct (user (auth (base w))) as [u|]; [|left; auto].
  destruct (account (auth (base w))) as [a|]; [|right; left; auto].
  right. right. exists u, a. split; [reflexivity|]. split; [reflexivity|].
  cbv zeta.
  destruct (U (history (base w)) (updates w) _) as [r|e];
    [|left; split; [eexists|]; reflexivity].
  destruct (u_error r) as [msg|] eqn:He;
    [left; split; [eexists|]; reflexivity|].
  destruct (nullish (u_data r)) eqn:Hn;
    [left; split; [eexists|]; reflexivity|].
  right. exists r. repeat split; assumption.
Qed.

Lemma updateAccount_coherent changes w :
  coherent (auth (base w)) = true ->
  coherent (auth (base (snd (updateAccount U changes w)))) = true.
Proof.
  intros Hc.
  destruct (updateAccount_cases changes w)
    as [(_ & _ & ->)|[(_ & _ & ->)|(u & a & Hu & Ha & H)]];
    [exact Hc|exact Hc|].
  cbv zeta in H.
  destruct H as [[_ ->]|(r & _ & _ & _ & _ & ->)]; [exact Hc|].
  unfold with_account, sent. cbn [base auth]. unfold coherent in *.
  cbn [session user account isAuthenticated is_some].
  rewrite Ha in Hc. cbn [is_some] in Hc. exact Hc.
Qed.

Lemma perform_coherent a w :
  coherent (auth (base w)) = true ->
  coherent (auth (base (perform P U a w))) = true.
Proof.
  destruct a as [|email password| |changes]; cbn [perform on_base base].
  - apply checkSession_coherent.
  - apply login_coherent.
  - apply logout_coherent.
  - apply updateAccount_coherent.
Qed.

End Coherence.

(** X11. [updateAccount] touches nothing but [account]: the session, the
    user and [isAuthenticated] are as before in every case.  Without a
    user or without a loaded account it throws before any provider call
    and leaves the world as it was.  Otherwise it sends exactly one
    update; [account] is replaced, by the mapped row, only when the call
    returns, and is unchanged whenever it throws. *)
Theorem updateAccount_only_replaces_account (U : AccountUpdate.Updater)
    (changes : gmap string jsval) (w : AccountUpdate.World) :
  let st := Auth.auth (AccountUpdate.base w) in
  let out := AccountUpdate.updateAccount U changes w in
  let st' := Auth.auth (AccountUpdate.base (snd out)) in
  Auth.session st' = Auth.session st
  /\ Auth.user st' = Auth.user st
  /\ Auth.isAuthenticated st' = Auth.isAuthenticated st
  /\ Auth.history (AccountUpdate.base (snd out))
     = Auth.history (AccountUpdate.base w)
  /\ match fst out with
     | AccountUpdate.Returned a =>
         Auth.account st' = Some a
         /\ length (AccountUpdate.updates (snd out))
            = S (length (AccountUpdate.updates w))
     | AccountUpdate.ThrewError _ =>
         (Auth.user st = None \/ Auth.account st = None) /\ snd out = w
     | AccountUpdate.Threw _ =>
         st' = st
         /\ length (AccountUpdate.updates (snd out))
            = S (length (AccountUpdate.updates w))
     end
  /\ (Auth.user st = None \/ Auth.account st = None ->
      exists message, out = (AccountUpdate.ThrewError message, w)).
Proof.
  cbv zeta.
  destruct (updateAccount_cases U changes w)
    as [(Hf & Hu & Hs)|[(Hf & Ha & Hs)|(u & a & Hu & Ha & H)]].
  - rewrite Hf, Hs. repeat split; auto.
    intros _. eexists. apply injective_projections; cbn [fst snd];
      [exact Hf|exact Hs].
  - rewrite Hf, Hs. repeat split; auto.
    intros _. eexists. apply injective_projections; cbn [fst snd];
      [exact Hf|exact Hs].
  - cbv zeta in H.
    destruct H as [[(e & Hf) Hs]|(r & _ & _ & _ & Hf & Hs)];
      rewrite Hf, Hs; unfold AccountUpdate.with_account, AccountUpdate.sent;
      cbn [AccountUpdate.base AccountUpdate.updates Auth.auth Auth.history
           Auth.session Auth.user Auth.account Auth.isAuthenticated];
      rewrite ?length_app; cbn [length];
      (repeat split; [..|intros [Hn|Hn]; congruence]); try reflexivity; lia.
Qed.

Lemma updateAccount_only_replaces_account_witness :
  exists message,
    AccountUpdate.updateAccount
      (fun _ _ _ => Auth.Rejected (ProviderError "offline"))
      {[ "city" := VStr "London" ]} AuthActions.initial
    = (AccountUpdate.ThrewError message, AuthActions.initial).
Proof.
  destruct (updateAccount_only_replaces_account
              (fun _ _ _ => Auth.Rejected (ProviderError "offline"))
              {[ "city" := VStr "London" ]} AuthActions.initial)
    as (_ & _ & _ & _ & _ & H).
  apply H. left. reflexivity.
Defined.

Section Patch.

Import Auth AccountUpdate.

Lemma change_insert_ne (changes : gmap string jsval) k v k' :
  k <> k' -> change (<[k := v]> changes) k' = change changes k'.
Proof. intros Hne. unfold change. rewrite lookup_insert_ne by exact Hne. reflexivity. Qed.

Lemma patch_of_insert (changes : gmap string jsval) k v :
  k ∉ read_keys -> patch_of (<[k := v]> changes) = patch_of changes.
Proof.
  intros Hk. unfold patch_of.
  rewrite !change_insert_ne; [reflexivity|..];
    intros ->; apply Hk; unfold read_keys; set_solver.
Qed.

Lemma patch_of_columns (changes : gmap string jsval) (col : string) :
  is_Some (patch_of changes !! col) <-> col ∈ columns.
Proof.
  unfold patch_of, columns. rewrite !lookup_insert_is_Some.
  rewrite lookup_empty, is_Some_alt. rewrite !elem_of_cons, elem_of_nil.
  intuition congruence.
Qed.

Lemma filter_for_unfiltered u a :
  filter_for u a = Unfiltered
  <-> truthy (id a) = false /\ user_id u = ""
      /\ (user_email u = None \/ user_email u = Some "").
Proof.
  unfold filter_for. destruct (truthy (id a)); [split; [discriminate|]|].
  { intros (H & _). discriminate H. }
  destruct (decide (user_id u = "")) as [He|He].
  - rewrite bool_decide_eq_true_2 by exact He. cbn [negb].
    destruct (user_email u) as [e|].
    + destruct (decide (e = "")) as [->|Hne].
      * rewrite bool_decide_eq_true_2 by reflexivity. tauto.
      * rewrite bool_decide_eq_false_2 by exact Hne.
        split; [discriminate|]. intros (_ & _ & [H|H]); congruence.
    + tauto.
  - rewrite bool_decide_eq_false_2 by exact He. cbn [negb].
    split; [discriminate|]. intros (_ & H & _). contradiction.
Qed.

End Patch.

(** X12. [updateAccount] reads eight properties of [changes] and no
    other: whatever else the object carries ([id], [createdAt],
    [updatedAt], ...) has no effect on the call, its result or the world
    it leaves. *)
Theorem updateAccount_ignores_other_changes (U : AccountUpdate.Updater)
    (changes : gmap string jsval) (k : string) (v : jsval)
    (w : AccountUpdate.World) :
  k ∉ AccountUpdate.read_keys ->
  AccountUpdate.updateAccount U (<[k := v]> changes) w
  = AccountUpdate.updateAccount U changes w.
Proof.
  intros Hk. unfold AccountUpdate.updateAccount.
  rewrite (patch_of_insert changes k v Hk). reflexivity.
Qed.

Lemma updateAccount_ignores_other_changes_witness :
  AccountUpdate.updateAccount
    (fun _ _ _ => Auth.Rejected (ProviderError "offline"))
    (<["id" := VStr "another"]> {[ "city" := VStr "London" ]})
    {| AccountUpdate.base := RefLinked.signed_in; AccountUpdate.updates := [] |}
  = AccountUpdate.updateAccount
      (fun _ _ _ => Auth.Rejected (ProviderError "offline"))
      {[ "city" := VStr "London" ]}
      {| AccountUpdate.base := RefLinked.signed_in; AccountUpdate.updates := [] |}.
Proof.
  apply (updateAccount_ignores_other_changes
           (fun _ _ _ => Auth.Rejected (ProviderError "offline"))
           {[ "city" := VStr "London" ]} "id" (VStr "another")).
  unfold AccountUpdate.read_keys. intros H.
  repeat (apply elem_of_cons in H as [H|H]; [discriminate H|]).
  apply elem_of_nil in H. exact H.
Defined.

(** X13. With a user and a loaded account, [updateAccount] sends one
    update, logged after those sent before.  Its patch has exactly the
    eight columns [pharmacy_name], [pharmacy_phone], [subscription_status],
    [address1], [city], [state], [zipcode] and [email], so never [id],
    [created_at] or [updated_at].  It is filtered by [id = account.id]
    whenever the account has a truthy id, and it carries no filter at all
    exactly when the account id is falsy, the user id is empty and the
    user has no e-mail. *)
Theorem updateAccount_sends_one_update (U : AccountUpdate.Updater)
    (changes : gmap string jsval) (w : AccountUpdate.World)
    (u : Auth.User) (a : Auth.Account) :
  Auth.user (Auth.auth (AccountUpdate.base w)) = Some u ->
  Auth.account (Auth.auth (AccountUpdate.base w)) = Some a ->
  exists c,
    AccountUpdate.updates (snd (AccountUpdate.updateAccount U changes w))
    = (AccountUpdate.updates w
       ++ [(length (Auth.history (AccountUpdate.base w)), c)])%list
    /\ (forall col,
          is_Some (AccountUpdate.patch c !! col) <-> col ∈ AccountUpdate.columns)
    /\ (forall col key,
          (col, key) ∈ zip AccountUpdate.columns AccountUpdate.read_keys ->
          AccountUpdate.patch c !! col = Some (AccountUpdate.change changes key))
    /\ (truthy (Auth.id a) = true ->
        AccountUpdate.filter c = AccountUpdate.FilterEq "id" (Auth.id a))
    /\ (AccountUpdate.filter c = AccountUpdate.Unfiltered
        <-> truthy (Auth.id a) = false /\ Auth.user_id u = ""
            /\ (Auth.user_email u = None \/ Auth.user_email u = Some "")).
Proof.
  intros Hu Ha.
  exists {| AccountUpdate.patch := AccountUpdate.patch_of changes;
            AccountUpdate.filter := AccountUpdate.filter_for u a |}.
  split; [|split; [|split; [|split]]].
  - destruct (updateAccount_cases U changes w)
      as [(_ & Hn & _)|[(_ & Hn & _)|(u' & a' & Hu' & Ha' & H)]];
      [congruence|congruence|].
    rewrite Hu in Hu'. rewrite Ha in Ha'.
    injection Hu' as <-. injection Ha' as <-. cbv zeta in H.
    destruct H as [[_ ->]|(r & _ & _ & _ & _ & ->)]; reflexivity.
  - intros col. apply patch_of_columns.
  - intros col key Hin. cbn [AccountUpdate.patch].
    unfold AccountUpdate.columns, AccountUpdate.read_keys in Hin.
    cbn [zip zip_with] in Hin.
    repeat (apply elem_of_cons in Hin as [Hin|Hin];
            [injection Hin as -> ->; reflexivity|]).
    apply elem_of_nil in Hin. contradiction.
  - intros Ht. cbn [AccountUpdate.filter]. unfold AccountUpdate.filter_for.
    rewrite Ht. reflexivity.
  - cbn [AccountUpdate.filter]. apply filter_for_unfiltered.
Qed.

Lemma updateAccount_sends_one_update_witness :
  exists c,
    AccountUpdate.updates
      (snd (AccountUpdate.updateAccount
              (fun _ _ _ => Auth.Rejected (ProviderError "offline"))
              {[ "city" := VStr "London" ]}
              {| AccountUpdate.base := RefLinked.signed_in;
                 AccountUpdate.updates := [] |}))
    = [(2, c)]
    /\ AccountUpdate.patch c !! "city" = Some (VStr "London")
    /\ AccountUpdate.patch c !! "email" = Some VUndef
    /\ AccountUpdate.filter c = AccountUpdate.FilterEq "id" (VStr "7f3c2a").
Proof.
  destruct (updateAccount_sends_one_update
              (fun _ _ _ => Auth.Rejected (ProviderError "offline"))
              {[ "city" := VStr "London" ]}
              {| AccountUpdate.base := RefLinked.signed_in;
                 AccountUpdate.updates := [] |}
              RefAuth.ada_user (Auth.mapRowToAccount RefLinked.ada_row)
              eq_refl eq_refl) as (c & Hc & _ & Hp & Hf & _).
  exists c. split; [exact Hc|]. split; [|split].
  - apply (Hp "city" "city"). unfold AccountUpdate.columns,
      AccountUpdate.read_keys. cbn [zip zip_with].
    do 4 apply list_elem_of_further. apply list_elem_of_here.
  - apply (Hp "email" "email"). unfold AccountUpdate.columns,
      AccountUpdate.read_keys. cbn [zip zip_with].
    do 7 apply list_elem_of_further. apply list_elem_of_here.
  - apply Hf. reflexivity.
Defined.

(** X14. Signing in that fails.  When [signInWithPassword] is rejected,
    or resolves with an error (even together with a session), [login]
    throws and the state is left as it was, so whoever was signed in
    stays signed in locally; no account lookup is made.  When it resolves
    without error and without session, [login] returns false and clears
    the state.  Likewise [checkSession] throws and leaves the state when
    [getSession] is rejected, and clears it when there is no session. *)
Theorem sign_in_failures (P : Auth.Provider) (email password : string)
    (w : Auth.World) :
  let c := Auth.CallSignIn email password in
  (forall e,
     Auth.signInWithPassword P (Auth.history w) email password
     = Auth.Rejected e ->
     Auth.login P email password w = (Throw e, AuthRuns.called c w))
  /\ (forall r msg,
        Auth.signInWithPassword P (Auth.history w) email password
        = Auth.Resolved r ->
        Auth.r_error r = Some msg ->
        Auth.login P email password w
        = (Throw (ProviderError msg), AuthRuns.called c w))
  /\ (forall r,
        Auth.signInWithPassword P (Auth.history w) email password
        = Auth.Resolved r ->
        Auth.r_error r = None ->
        Auth.r_session r = None ->
        Auth.login P email password w
        = (Ok false,
           {| Auth.auth := Auth.cleared;
              Auth.history := (Auth.history w ++ [c])%list |}))
  /\ (forall e,
        Auth.getSession P (Auth.history w) = Auth.Rejected e ->
        Auth.checkSession P w
        = (Throw e, AuthRuns.called Auth.CallGetSession w))
  /\ (Auth.getSession P (Auth.history w) = Auth.Resolved None ->
      Auth.checkSession P w
      = (Ok tt,
         {| Auth.auth := Auth.cleared;
            Auth.history := (Auth.history w ++ [Auth.CallGetSession])%list |})).
Proof.
  cbv zeta. split; [|split; [|split; [|split]]].
  - intros e Hr. unfold Auth.login. unfold bind at 1, Auth.await.
    rewrite Hr. reflexivity.
  - intros r msg Hr He. unfold Auth.login. unfold bind at 1, Auth.await.
    rewrite Hr, He. reflexivity.
  - intros r Hr He Hs. unfold Auth.login. unfold bind at 1, Auth.await.
    rewrite Hr, He, Hs. reflexivity.
  - intros e Hs. unfold Auth.checkSession. unfold bind at 1, Auth.await.
    rewrite Hs. reflexivity.
  - intros Hs. unfold Auth.checkSession. unfold bind at 1, Auth.await.
    rewrite Hs. reflexivity.
Qed.

Lemma sign_in_failures_witness :
  Auth.login
    {| Auth.getSession := fun _ => Auth.Resolved None;
       Auth.signInWithPassword := fun _ _ _ =>
         Auth.Resolved {| Auth.r_user := Some RefAuth.ada_user;
                          Auth.r_session := Some RefAuth.ada_session;
                          Auth.r_error := Some "Invalid login credentials" |};
       Auth.signOut := fun _ => Auth.Resolved None;
       Auth.select_eq := fun _ _ _ => Auth.Rejected (ProviderError "offline") |}
    "grace@example.org" "guess" RefLinked.signed_in
  = (Throw (ProviderError "Invalid login credentials"),
     AuthRuns.called (Auth.CallSignIn "grace@example.org" "guess")
       RefLinked.signed_in).
Proof.
  match goal with
  | |- Auth.login ?P ?e ?p ?w = _ =>
      destruct (sign_in_failures P e p w) as (_ & H & _)
  end.
  apply (H {| Auth.r_user := Some RefAuth.ada_user;
              Auth.r_session := Some RefAuth.ada_session;
              Auth.r_error := Some "Invalid login credentials" |});
    reflexivity.
Defined.

(** * The components that call the stores *)

Section Gate.

Import Profiles ProfileGate GateFacts.

Variable E : Env.

Lemma reset_run w : reset w = (Ok tt, emptied w).
Proof. reflexivity. Qed.



End Gate.





Section Modal.

Import Profiles Adapter Runs Typed AddProfileModal.

Variable E : Env.

Ltac look :=
  unfold new_data;
  repeat (rewrite lookup_insert_ne by discriminate);
  rewrite lookup_insert_eq.

Lemma new_data_no_id a values : new_data a values !! "id" = None.
Proof.
  unfold new_data. repeat (rewrite lookup_insert_ne by discriminate).
  apply lookup_empty.
Qed.

Lemma newProfile_field data w k v :
  k <> "updatedAt" -> k <> "createdAt" ->
  data !! k = Some v ->
  lookup_prop (newProfile E data w) k = v.
Proof.
  intros H1 H2 Hd. unfold newProfile, lookup_prop.
  rewrite !lookup_insert_ne by congruence.
  rewrite (lookup_union_Some_l _ _ _ _ Hd). reflexivity.
Qed.

Lemma new_data_optional a values k :
  k ∈ optional_keys ->
  new_data a values !! k = Some (js_or (value values k) VUndef).
Proof.
  unfold optional_keys. intros Hk.
  repeat (apply elem_of_cons in Hk as [->|Hk]; [look; reflexivity|]).
  apply elem_of_nil in Hk. contradiction.
Qed.

Lemma new_data_required a values k :
  k ∈ ["roleType"; "firstName"; "lastName"] ->
  new_data a values !! k = Some (value values k).
Proof.
  intros Hk.
  repeat (apply elem_of_cons in Hk as [->|Hk]; [look; reflexivity|]).
  apply elem_of_nil in Hk. contradiction.
Qed.

Lemma optional_not_stamp k :
  k ∈ optional_keys -> k <> "updatedAt" /\ k <> "createdAt".
Proof.
  unfold optional_keys. intros Hk.
  repeat (apply elem_of_cons in Hk as [->|Hk]; [split; discriminate|]).
  apply elem_of_nil in Hk. contradiction.
Qed.

Lemma onSubmit_create_run a pid values w :
  a <> "" -> pid = None \/ pid = Some "" ->
  onSubmit E (Some a) pid values w
  = (Ok (Some (VStr (uidAt E w))), added E a (new_data a values) w).
Proof.
  intros Ha Hp. unfold onSubmit.
  rewrite bool_decide_eq_false_2 by exact Ha.
  assert (Hrun : (created <- addProfile E a (new_data a values) ;;
                  ret (Some (lookup_prop created "id")))%eff w
                 = (Ok (Some (VStr (uidAt E w))),
                    added E a (new_data a values) w)).
  { rewrite (bind_Ok _ _ _ _ _ (addProfile_run E a (new_data a values) w)).
    unfold ret. rewrite (newProfile_id E _ w (new_data_no_id a values)).
    reflexivity. }
  destruct Hp as [-> | ->]; [exact Hrun|].
  rewrite bool_decide_eq_true_2 by reflexivity. exact Hrun.
Qed.

Lemma merged_field (changes : gmap string jsval) (t : string) (p : jsval) k :
  changes !! k = None -> k <> "updatedAt" ->
  lookup_prop (VObj (<["updatedAt" := VStr t]> (changes ∪ own_props p))) k
  = lookup_prop (VObj (own_props p)) k.
Proof.
  intros Hc Hk. unfold lookup_prop.
  rewrite lookup_insert_ne by congruence.
  rewrite lookup_union_r by exact Hc. reflexivity.
Qed.

Lemma updatedList_keeps id changes n ps k :
  changes !! k = None -> k <> "updatedAt" ->
  typed_all ps = true ->
  Forall2 (fun p p' => lookup_prop p' k = lookup_prop p k) ps
    (updatedList E id changes n ps).
Proof.
  intros Hc Hk. unfold typed_all. revert n.
  induction ps as [|p ps IH]; intros n Ht; [constructor|].
  cbn [forallb] in Ht. apply andb_true_iff in Ht as [Hp Hps].
  cbn [updatedList]. destruct (has_id id p).
  - constructor; [|apply IH, Hps].
    rewrite (merged_field changes _ p k Hc Hk).
    rewrite (typed_own_props p Hp). reflexivity.
  - constructor; [reflexivity|apply IH, Hps].
Qed.

Lemma onSubmit_edit_run a pid values w :
  a <> "" -> pid <> "" ->
  defined_all (profiles (store w)) = true ->
  onSubmit E (Some a) (Some pid) values w
  = (Ok None, updated E a pid values w).
Proof.
  intros Ha Hp Hd. unfold onSubmit.
  rewrite bool_decide_eq_false_2 by exact Ha.
  rewrite bool_decide_eq_false_2 by exact Hp.
  rewrite (bind_Ok _ _ _ _ _ (updateProfile_run E a pid values w Hd)).
  reflexivity.
Qed.

End Modal.

(** X17. Submitting the form of [AddProfileModal] without a [profileId],
    for an account with a non-empty id, creates one profile, appended to
    the collection, and hands its generated id to [onCreated].  The
    profile belongs to that account, which is also the account the store
    is then loaded for; it is active; its role and names are the values
    of the form; and an optional field left empty is undefined rather
    than an empty string, one filled in is the value of the form. *)
Theorem onSubmit_creates_owned_profile (E : Profiles.Env) (a : string)
    (profileId : option string) (values : gmap string jsval)
    (w : Profiles.World) :
  a <> "" ->
  profileId = None \/ profileId = Some "" ->
  let w' := after (AddProfileModal.onSubmit E (Some a) profileId values) w in
  let p := Runs.newProfile E (AddProfileModal.new_data a values) w in
  result (AddProfileModal.onSubmit E (Some a) profileId values) w
  = Ok (Some (VStr (Runs.uidAt E w)))
  /\ Profiles.profiles (Profiles.store w')
     = (Profiles.profiles (Profiles.store w) ++ [p])%list
  /\ Profiles.loadedForUserId (Profiles.store w') = Some a
  /\ lookup_prop p "id" = VStr (Runs.uidAt E w)
  /\ Typed.owner p = VStr a
  /\ lookup_prop p "isActive" = VBool true
  /\ (forall k,
        k ∈ ["roleType"; "firstName"; "lastName"] ->
        lookup_prop p k = AddProfileModal.value values k)
  /\ (forall k,
        k ∈ AddProfileModal.optional_keys ->
        lookup_prop p k
        = if truthy (AddProfileModal.value values k)
          then AddProfileModal.value values k else VUndef).
Proof.
  intros Ha Hp. cbv zeta. unfold result, after.
  rewrite (onSubmit_create_run E a profileId values w Ha Hp). cbn [fst snd].
  split; [reflexivity|]. split; [reflexivity|]. split; [reflexivity|].
  split; [apply newProfile_id, new_data_no_id|].
  split; [|split; [|split]].
  - unfold Typed.owner. apply newProfile_field; try discriminate.
    unfold AddProfileModal.new_data. apply lookup_insert_eq.
  - apply newProfile_field; try discriminate.
    unfold AddProfileModal.new_data.
    repeat (rewrite lookup_insert_ne by discriminate).
    apply lookup_insert_eq.
  - intros k Hk. apply newProfile_field.
    + intros ->. repeat (apply elem_of_cons in Hk as [Hk|Hk];
                         [discriminate Hk|]).
      apply elem_of_nil in Hk. exact Hk.
    + intros ->. repeat (apply elem_of_cons in Hk as [Hk|Hk];
                         [discriminate Hk|]).
      apply elem_of_nil in Hk. exact Hk.
    + apply new_data_required, Hk.
  - intros k Hk. destruct (optional_not_stamp k Hk) as [H1 H2].
    rewrite (newProfile_field E _ w k _ H1 H2
               (new_data_optional a values k Hk)).
    unfold js_or. reflexivity.
Qed.

Lemma onSubmit_creates_owned_profile_witness :
  result (AddProfileModal.onSubmit (Ref.env Ref.ticking) (Some "acct-1") None
            (<["phoneNumber" := VStr ""]> Ref.ada)) Ref.fresh
  = Ok (Some (VStr (Runs.uidAt (Ref.env Ref.ticking) Ref.fresh)))
  /\ Typed.owner
       (Runs.newProfile (Ref.env Ref.ticking)
          (AddProfileModal.new_data "acct-1"
             (<["phoneNumber" := VStr ""]> Ref.ada)) Ref.fresh)
     = VStr "acct-1".
Proof.
  destruct (onSubmit_creates_owned_profile (Ref.env Ref.ticking) "acct-1" None
              (<["phoneNumber" := VStr ""]> Ref.ada) Ref.fresh)
    as (Hr & _ & _ & _ & Ho & _).
  - discriminate.
  - left. reflexivity.
  - split; assumption.
Defined.

(** X18. Submitting the form of [AddProfileModal] with a [profileId], on
    a collection of typed profiles, returns without calling [onCreated]
    and edits in place: the collection keeps its length and order, and
    every property that is not a field of the form, [updatedAt] apart,
    is unchanged in every profile, so [id], [accountId], [createdAt] and
    [isActive] are; the selection and the loaded account are unchanged. *)
Theorem onSubmit_edit_keeps_identity (E : Profiles.Env) (a pid : string)
    (values : gmap string jsval) (w : Profiles.World) :
  a <> "" -> pid <> "" ->
  (forall k, is_Some (values !! k) -> k ∈ AddProfileModal.schema_keys) ->
  Typed.typed_all (Profiles.profiles (Profiles.store w)) = true ->
  let w' := after (AddProfileModal.onSubmit E (Some a) (Some pid) values) w in
  result (AddProfileModal.onSubmit E (Some a) (Some pid) values) w = Ok None
  /\ (forall k,
        k ∉ AddProfileModal.schema_keys -> k <> "updatedAt" ->
        Forall2 (fun p p' => lookup_prop p' k = lookup_prop p k)
          (Profiles.profiles (Profiles.store w))
          (Profiles.profiles (Profiles.store w')))
  /\ Profiles.currentProfileId (Profiles.store w')
     = Profiles.currentProfileId (Profiles.store w)
  /\ Profiles.loadedForUserId (Profiles.store w')
     = Profiles.loadedForUserId (Profiles.store w).
Proof.
  intros Ha Hp Hkeys Ht. cbv zeta. unfold result, after.
  rewrite (onSubmit_edit_run E a pid values w Ha Hp (typed_all_defined _ Ht)).
  cbn [fst snd]. split; [reflexivity|].
  split; [|split; reflexivity].
  intros k Hk Hu. unfold Runs.updated, Adapter.saved.
  cbn [Profiles.store Profiles.profiles].
  apply updatedList_keeps; [|exact Hu|exact Ht].
  destruct (values !! k) as [v|] eqn:Hv; [|reflexivity].
  exfalso. apply Hk, Hkeys. rewrite Hv. eexists. reflexivity.
Qed.

Lemma onSubmit_edit_keeps_identity_witness :
  Forall2 (fun p p' => lookup_prop p' "accountId" = lookup_prop p "accountId")
    (Profiles.profiles (Profiles.store Scenario.one_profile))
    (Profiles.profiles
       (Profiles.store
          (after (AddProfileModal.onSubmit (Ref.env Ref.ticking)
                    (Some "acct-1") (Some "loyw3v28-4fzyo8")
                    AdaScenario.licence) Scenario.one_profile))).
Proof.
  destruct (onSubmit_edit_keeps_identity (Ref.env Ref.ticking) "acct-1"
              "loyw3v28-4fzyo8" AdaScenario.licence Scenario.one_profile)
    as (_ & H & _).
  - discriminate.
  - discriminate.
  - intros k [v Hv]. unfold AdaScenario.licence in Hv.
    apply lookup_singleton_Some in Hv as [<- _].
    unfold AddProfileModal.schema_keys.
    do 8 apply list_elem_of_further. apply list_elem_of_here.
  - reflexivity.
  - apply H; [|discriminate].
    unfold AddProfileModal.schema_keys. intros Hin.
    repeat (apply elem_of_cons in Hin as [Hin|Hin]; [discriminate Hin|]).
    apply elem_of_nil in Hin. exact Hin.
Defined.

Section Confirm.

Import Profiles ProfileGate StoreFacts.

Variable E : Env.

Lemma handleConfirm_pick p w :
  p <> "" ->
  handleConfirm E (Some p) w = Lineage.perform E (Lineage.Select (Some p)) w.
Proof.
  intros Hp. unfold handleConfirm.
  rewrite bool_decide_eq_false_2 by exact Hp. reflexivity.
Qed.

Lemma setCurrentProfile_store pid w :
  result (setCurrentProfile E pid) w = Ok tt
  /\ store (after (setCurrentProfile E pid) w)
     = {| profiles := profiles (store w);
          currentProfileId := of_nullable pid;
          loadedForUserId := loadedForUserId (store w) |}.
Proof.
  unfold result, after, setCurrentProfile. run_store.
  destruct (loadedForUserId (store w)) as [u|] eqn:Hl;
    [|split; [reflexivity|cbn; rewrite Hl; reflexivity]].
  destruct (bool_decide (u = ""));
    [split; [reflexivity|cbn; rewrite Hl; reflexivity]|].
  cbn. rewrite saveToStorage_run.
  split; [reflexivity|cbn; rewrite Hl; reflexivity].
Qed.

End Confirm.

(** X19. [handleConfirm] of [ProfileGate].  With nothing picked it leaves
    the world as it is.  With a pick it returns and makes the pick the
    selection, profiles and loaded account unchanged; the selection then
    names a profile whenever the pick is the id of one of the collection;
    and while a non-empty account is loaded and the storage accepts
    writes, the snapshot stored for that account is the one in memory,
    with the new selection. *)
Theorem handleConfirm_selects_pick (E : Profiles.Env)
    (pickedId : option string) (w : Profiles.World) :
  (pickedId = None \/ pickedId = Some "" ->
   ProfileGate.handleConfirm E pickedId w = (Ok tt, w))
  /\ (forall p,
        pickedId = Some p -> p <> "" ->
        let w' := after (ProfileGate.handleConfirm E pickedId) w in
        result (ProfileGate.handleConfirm E pickedId) w = Ok tt
        /\ Profiles.store w'
           = {| Profiles.profiles := Profiles.profiles (Profiles.store w);
                Profiles.currentProfileId := VStr p;
                Profiles.loadedForUserId :=
                  Profiles.loadedForUserId (Profiles.store w) |}
        /\ ((exists q, q ∈ Profiles.profiles (Profiles.store w)
                       /\ Runs.has_id p q = true) ->
            StoreFacts.selection_ok (Profiles.store w'))
        /\ (forall A,
              Profiles.loadedForUserId (Profiles.store w) = Some A ->
              A <> "" ->
              (forall ls k v, Profiles.quota_ok E ls k v = true) ->
              StoreFacts.synced E A w')).
Proof.
  split.
  - intros [-> | ->]; reflexivity.
  - intros p -> Hp. cbv zeta. unfold result, after.
    rewrite (handleConfirm_pick E p w Hp). cbn [Lineage.perform].
    destruct (setCurrentProfile_store E (Some p) w) as [Hr Hs].
    unfold result, after in Hr, Hs.
    split; [exact Hr|]. split; [exact Hs|]. split.
    + intros Hq. rewrite Hs. unfold StoreFacts.selection_ok.
      cbn [Profiles.currentProfileId Profiles.profiles of_nullable].
      exact Hq.
    + intros A Hl Ha Hquota.
      apply (perform_synced E A (Lineage.Select (Some p)) w Hquota).
      * cbn [StoreFacts.writes_for].
        rewrite bool_decide_eq_true_2 by exact Hl.
        rewrite bool_decide_eq_false_2 by exact Ha. reflexivity.
      * exact Hr.
Qed.

Lemma handleConfirm_selects_pick_witness :
  Profiles.store
    (after (ProfileGate.handleConfirm (Ref.env Ref.ticking)
              (Some "loyw3v28-4fzyo8")) Scenario.dangling)
  = {| Profiles.profiles := Profiles.profiles (Profiles.store Scenario.dangling);
       Profiles.currentProfileId := VStr "loyw3v28-4fzyo8";
       Profiles.loadedForUserId :=
         Profiles.loadedForUserId (Profiles.store Scenario.dangling) |}
  /\ StoreFacts.synced (Ref.env Ref.ticking) "acct-1"
       (after (ProfileGate.handleConfirm (Ref.env Ref.ticking)
                 (Some "loyw3v28-4fzyo8")) Scenario.dangling).
Proof.
  destruct (handleConfirm_selects_pick (Ref.env Ref.ticking)
              (Some "loyw3v28-4fzyo8") Scenario.dangling) as (_ & H).
  destruct (H "loyw3v28-4fzyo8" eq_refl) as (_ & Hs & _ & Hy);
    [discriminate|].
  split; [exact Hs|].
  apply (Hy "acct-1"); [reflexivity|discriminate|reflexivity].
Defined.

Section Save.

Import Auth AccountUpdate AccountPage.

Ltac field :=
  unfold patch_of, change, changes_of;
  repeat (rewrite lookup_insert_ne by discriminate);
  rewrite ?lookup_insert_eq, ?lookup_empty; reflexivity.

Lemma patch_of_form (form : Form) :
  patch_of (changes_of form) !! "subscription_status" = Some VUndef
  /\ patch_of (changes_of form) !! "email" = Some (VStr (email form))
  /\ patch_of (changes_of form) !! "pharmacy_name"
     = Some (VStr (pharmacyName form))
  /\ patch_of (changes_of form) !! "pharmacy_phone"
     = Some (or_null (pharmacyPhone form))
  /\ patch_of (changes_of form) !! "address1" = Some (or_null (address1 form))
  /\ patch_of (changes_of form) !! "city" = Some (or_null (city form))
  /\ patch_of (changes_of form) !! "state" = Some (or_null (state form))
  /\ patch_of (changes_of form) !! "zipcode" = Some (or_null (zipcode form)).
Proof. repeat split; field. Qed.

Lemma handleSave_run (U : Updater) (form : Form) (w : World) :
  snd (handleSave U form w) = snd (updateAccount U (changes_of form) w)
  /\ fst (handleSave U form w)
     = match fst (updateAccount U (changes_of form) w) with
       | Returned _ => ToastSuccess
       | _ => ToastError
       end.
Proof.
  unfold handleSave.
  destruct (updateAccount U (changes_of form) w) as [[a|m|e] w'];
    split; reflexivity.
Qed.

End Save.

(** X20. [handleSave] of the account page never throws and shows one
    toast: the success toast exactly when [updateAccount] returned, in
    which case [account] is the mapped row; after the error toast the
    authentication state is as before.  With a user and a loaded account
    it sends one update, in which [subscription_status] is undefined (the
    page cannot change the subscription), [email] and [pharmacy_name] are
    the fields as typed, even empty, and every other column is the field,
    or null when the field is empty. *)
Theorem handleSave_outcome (U : AccountUpdate.Updater)
    (form : AccountPage.Form) (w : AccountUpdate.World) :
  let out := AccountPage.handleSave U form w in
  let st := Auth.auth (AccountUpdate.base w) in
  let st' := Auth.auth (AccountUpdate.base (snd out)) in
  match fst out with
  | AccountPage.ToastSuccess =>
      exists a,
        AccountUpdate.updateAccount U (AccountPage.changes_of form) w
        = (AccountUpdate.Returned a, snd out)
        /\ Auth.account st' = Some a
  | AccountPage.ToastError =>
      st' = st
      /\ forall a,
           fst (AccountUpdate.updateAccount U (AccountPage.changes_of form) w)
           <> AccountUpdate.Returned a
  end
  /\ (forall u a,
        Auth.user st = Some u -> Auth.account st = Some a ->
        exists c,
          AccountUpdate.updates (snd out)
          = (AccountUpdate.updates w
             ++ [(length (Auth.history (AccountUpdate.base w)), c)])%list
          /\ AccountUpdate.patch c !! "subscription_status" = Some VUndef
          /\ AccountUpdate.patch c !! "email"
             = Some (VStr (AccountPage.email form))
          /\ AccountUpdate.patch c !! "pharmacy_name"
             = Some (VStr (AccountPage.pharmacyName form))
          /\ AccountUpdate.patch c !! "pharmacy_phone"
             = Some (AccountPage.or_null (AccountPage.pharmacyPhone form))
          /\ AccountUpdate.patch c !! "address1"
             = Some (AccountPage.or_null (AccountPage.address1 form))
          /\ AccountUpdate.patch c !! "city"
             = Some (AccountPage.or_null (AccountPage.city form))
          /\ AccountUpdate.patch c !! "state"
             = Some (AccountPage.or_null (AccountPage.state form))
          /\ AccountUpdate.patch c !! "zipcode"
             = Some (AccountPage.or_null (AccountPage.zipcode form))).
Proof.
  cbv zeta. destruct (handleSave_run U form w) as [Hw Ht].
  rewrite Hw, Ht. split.
  - destruct (updateAccount_cases U (AccountPage.changes_of form) w)
      as [(Hf & _ & Hs)|[(Hf & _ & Hs)|(u & a & Hu & Ha & H)]].
    + rewrite Hf, Hs. split; [reflexivity|]. intros a. discriminate.
    + rewrite Hf, Hs. split; [reflexivity|]. intros a. discriminate.
    + cbv zeta in H.
      destruct H as [[(e & Hf) Hs]|(r & _ & _ & _ & Hf & Hs)].
      * rewrite Hf, Hs. split; [reflexivity|]. intros a'. discriminate.
      * rewrite Hf. eexists. split.
        -- apply injective_projections; cbn [fst snd]; [exact Hf|reflexivity].
        -- rewrite Hs. reflexivity.
  - intros u a Hu Ha.
    exists {| AccountUpdate.patch :=
                AccountUpdate.patch_of (AccountPage.changes_of form);
              AccountUpdate.filter := AccountUpdate.filter_for u a |}.
    split; [|exact (patch_of_form form)].
    destruct (updateAccount_cases U (AccountPage.changes_of form) w)
      as [(_ & Hn & _)|[(_ & Hn & _)|(u' & a' & Hu' & Ha' & H)]];
      [congruence|congruence|].
    rewrite Hu in Hu'. rewrite Ha in Ha'.
    injection Hu' as <-. injection Ha' as <-. cbv zeta in H.
    destruct H as [[_ ->]|(r & _ & _ & _ & _ & ->)]; reflexivity.
Qed.

Lemma handleSave_outcome_witness :
  exists c,
    AccountUpdate.updates
      (snd (AccountPage.handleSave
              (fun _ _ _ => Auth.Rejected (ProviderError "offline"))
              {| AccountPage.email := "ada@example.org";
                 AccountPage.pharmacyName := "Analytical Pharmacy";
                 AccountPage.pharmacyPhone := "";
                 AccountPage.address1 := "";
                 AccountPage.city := "London";
                 AccountPage.state := "";
                 AccountPage.zipcode := "" |}
              {| AccountUpdate.base := RefLinked.signed_in;
                 AccountUpdate.updates := [] |}))
    = [(2, c)]
    /\ AccountUpdate.patch c !! "subscription_status" = Some VUndef
    /\ AccountUpdate.patch c !! "pharmacy_phone" = Some VNull
    /\ AccountUpdate.patch c !! "city" = Some (VStr "London").
Proof.
  match goal with
  | |- context [AccountPage.handleSave ?U ?f ?w] =>
      destruct (handleSave_outcome U f w) as (_ & H)
  end.
  destruct (H RefAuth.ada_user (Auth.mapRowToAccount RefLinked.ada_row)
              eq_refl eq_refl)
    as (c & Hc & Hs & _ & _ & Hp & _ & Hy & _).
  exists c. repeat split; assumption.
Defined.

(** * Accounts do not share storage *)

Section Isolation.

Import Profiles Adapter Runs Typed Lineage RemoveRuns Footprint.

Variable E : Env.

Lemma storageKey_inj A B : storageKey A = storageKey B -> A = B.
Proof.
  unfold storageKey. intros H.
  change ("profiles:" +:+ A) with
    (String "p" (String "r" (String "o" (String "f" (String "i" (String "l"
       (String "e" (String "s" (String ":" A))))))))) in H.
  change ("profiles:" +:+ B) with
    (String "p" (String "r" (String "o" (String "f" (String "i" (String "l"
       (String "e" (String "s" (String ":" B))))))))) in H.
  congruence.
Qed.

Lemma touches_same key w w' :
  localStorage w' = localStorage w -> calls w' = calls w ->
  touches key w w'.
Proof.
  intros Hl Hc. split; [intros k _; rewrite Hl; reflexivity|].
  exists []. rewrite app_nil_r. split; [exact Hc|constructor].
Qed.

Lemma touches_saved key v w w1 :
  touches (Some key) w w1 -> touches (Some key) w (saved E key v w1).
Proof.
  intros [Hl (l & Hc & Hf)]. split.
  - intros k Hk. unfold saved. cbn [localStorage].
    destruct (quota_ok E (localStorage w1) key v); [|apply Hl, Hk].
    rewrite lookup_insert_ne by congruence. apply Hl, Hk.
  - exists (l ++ [SetItem key v])%list. unfold saved. cbn [calls].
    rewrite Hc, app_assoc. split; [reflexivity|].
    apply Forall_app. split; [exact Hf|]. repeat constructor.
Qed.

Lemma touches_read key w w1 :
  touches (Some key) w w1 -> touches (Some key) w (read key w1).
Proof.
  intros [Hl (l & Hc & Hf)]. split; [exact Hl|].
  exists (l ++ [GetItem key])%list. unfold read. cbn [calls].
  rewrite Hc, app_assoc. split; [reflexivity|].
  apply Forall_app. split; [exact Hf|]. repeat constructor.
Qed.

Lemma touches_frame key w w1 w2 :
  touches key w w1 ->
  localStorage w2 = localStorage w1 -> calls w2 = calls w1 ->
  touches key w w2.
Proof.
  intros [Hl Hc] H1 H2. unfold touches. rewrite H1, H2. split; assumption.
Qed.

Lemma perform_touches a w :
  touches (option_map storageKey (target w a)) w (after (perform E a) w).
Proof.
  unfold after.
  destruct a as [u|p|u d|u id changes|u id|]; cbn [perform target option_map].
  - destruct (decide (loadedForUserId (store w) = Some u)) as [Hl|Hl].
    + rewrite (ensureLoaded_same E u w Hl). apply touches_same; reflexivity.
    + rewrite (ensureLoaded_other E u w Hl). cbn [snd].
      unfold Hydration.ensured.
      destruct (loaded E (localStorage w !! storageKey u)).
      * apply (touches_frame _ w (read (storageKey u) w));
          [|reflexivity|reflexivity].
        apply touches_read, touches_same; reflexivity.
      * apply touches_saved.
        apply (touches_frame _ w (read (storageKey u) w));
          [|reflexivity|reflexivity].
        apply touches_read, touches_same; reflexivity.
  - unfold setCurrentProfile. run_store.
    destruct (loadedForUserId (store w)) as [u|];
      [|apply touches_same; reflexivity].
    destruct (bool_decide (u = "")); [apply touches_same; reflexivity|].
    cbn. rewrite saveToStorage_run. cbn [snd option_map].
    apply touches_saved, touches_same; reflexivity.
  - rewrite (bind_Ok _ _ _ _ _ (addProfile_run E u d w)). cbn [ret snd].
    unfold added. apply touches_saved, touches_same; reflexivity.
  - destruct (mapM_updateOne_world E id changes (profiles (store w)) w)
      as [n Hn].
    destruct (mapM (updateOne E id changes) (profiles (store w)) w)
      as [[ps'|e] w1] eqn:Hm; cbn [snd] in Hn; subst w1.
    + rewrite (updateProfile_mapped E u id changes w ps' _ Hm). cbn [snd].
      apply touches_saved, touches_same; reflexivity.
    + rewrite (updateProfile_thrown E u id changes w e _ Hm). cbn [snd].
      apply touches_same; reflexivity.
  - destruct (filterM_keepOne_sublist id (profiles (store w)) w) as [Hw1 _].
    destruct (filterM (keepOne id) (profiles (store w)) w)
      as [[ps'|e] w1] eqn:Hm; cbn [snd] in Hw1; subst w1.
    + rewrite (removeProfile_filtered E u id w ps' Hm). cbn [snd].
      unfold removed_to. apply touches_saved, touches_same; reflexivity.
    + rewrite (removeProfile_thrown E u id w e w Hm). cbn [snd].
      apply touches_same; reflexivity.
  - apply touches_same; reflexivity.
Qed.

End Isolation.

(** X21. Accounts do not share storage.  Every call of a store action,
    whether it returns or throws, reads and writes at most the item under
    [profiles:<account>] for the account it is called with (for
    [setCurrentProfile], the account loaded): every other storage item is
    left as it was, no other key appears in the storage calls it makes,
    and in particular the snapshot of any other account is untouched.
    [reset] touches no item at all. *)
Theorem actions_touch_only_their_account (E : Profiles.Env)
    (a : Lineage.Action) (w : Profiles.World) :
  let w' := after (Lineage.perform E a) w in
  (forall k,
     (forall u, Footprint.target w a = Some u -> k <> Profiles.storageKey u) ->
     Profiles.localStorage w' !! k = Profiles.localStorage w !! k)
  /\ (exists l,
        Profiles.calls w' = (Profiles.calls w ++ l)%list
        /\ forall c, c ∈ l ->
             exists u, Footprint.target w a = Some u
                       /\ Footprint.call_key c = Profiles.storageKey u)
  /\ (forall A B,
        Footprint.target w a = Some A -> B <> A ->
        Profiles.localStorage w' !! Profiles.storageKey B
        = Profiles.localStorage w !! Profiles.storageKey B).
Proof.
  cbv zeta. destruct (perform_touches E a w) as [Hl (l & Hc & Hf)].
  assert (H1 : forall k,
             (forall u, Footprint.target w a = Some u ->
                        k <> Profiles.storageKey u) ->
             Profiles.localStorage (after (Lineage.perform E a) w) !! k
             = Profiles.localStorage w !! k).
  { intros k Hk. apply Hl.
    destruct (Footprint.target w a) as [u|]; [|discriminate].
    cbn [option_map]. intros [= Heq]. apply (Hk u eq_refl). congruence. }
  split; [exact H1|]. split.
  - exists l. split; [exact Hc|]. intros c Hin.
    rewrite Forall_forall in Hf. specialize (Hf c Hin).
    destruct (Footprint.target w a) as [u|]; [|discriminate].
    exists u. split; [reflexivity|]. cbn [option_map] in Hf. congruence.
  - intros A B Ht Hne. apply H1. intros u Hu Heq.
    apply storageKey_inj in Heq. congruence.
Qed.

Lemma actions_touch_only_their_account_witness :
  Profiles.localStorage Rebinding.rebound !! Profiles.storageKey "acct-2"
  = Profiles.localStorage Rebinding.other_loaded !! Profiles.storageKey "acct-2".
Proof.
  destruct (actions_touch_only_their_account (Ref.env Ref.ticking)
              (Lineage.Add "acct-1" Ref.ada_owned) Rebinding.other_loaded)
    as (_ & _ & H).
  apply (H "acct-1" "acct-2"); [reflexivity|discriminate].
Defined.

Section Survival.

Import Profiles Adapter Runs Typed Lineage StoreFacts Footprint Others.

Variable E : Env.

Lemma avoided_item A acts w :
  avoids E A acts w = true ->
  localStorage (performAll E acts w) !! storageKey A
  = localStorage w !! storageKey A.
Proof.
  revert w. induction acts as [|a acts IH]; intros w Hav; [reflexivity|].
  cbn [avoids] in Hav. apply andb_true_iff in Hav as [Ha Hav].
  apply negb_true_iff, bool_decide_eq_false in Ha.
  cbn [performAll]. rewrite (IH _ Hav).
  destruct (perform_touches E a w) as [Hl _]. apply Hl.
  destruct (target w a) as [u|]; [|discriminate].
  cbn [option_map]. intros Heq.
  assert (Hk : storageKey u = storageKey A) by congruence.
  apply storageKey_inj in Hk. congruence.
Qed.

End Survival.


(** * A null element in the collection *)

Section NullElement.

Import Profiles Adapter Runs Typed.

Variable E : Env.

Lemma mapM_updateOne_null id changes ps w :
  defined_all ps = false ->
  exists n, mapM (updateOne E id changes) ps w = (Throw TypeError, advance n w).
Proof.
  unfold defined_all. revert w.
  induction ps as [|p ps IH]; intros w Hd; [discriminate|].
  cbn [forallb] in Hd. cbn [mapM]. destruct (nullish p) eqn:Hn.
  - exists 0.
    assert (Hu : updateOne E id changes p w = (Throw TypeError, w))
      by (unfold updateOne, prop; rewrite Hn; reflexivity).
    rewrite (bind_Throw _ _ _ _ _ Hu). destruct w; reflexivity.
  - cbn [negb andb] in Hd.
    pose proof (updateOne_run E id changes p w Hn) as Hu.
    destruct (has_id id p).
    + rewrite (bind_Ok _ _ _ _ _ Hu).
      destruct (IH (ticked w) Hd) as [n Hm]. exists (S n).
      rewrite (bind_Throw _ _ _ _ _ Hm), advance_ticked. reflexivity.
    + rewrite (bind_Ok _ _ _ _ _ Hu).
      destruct (IH w Hd) as [n Hm]. exists n.
      rewrite (bind_Throw _ _ _ _ _ Hm). reflexivity.
Qed.

Lemma filterM_keepOne_null id ps (w : World) :
  defined_all ps = false ->
  filterM (keepOne id) ps w = (Throw TypeError, w).
Proof.
  unfold defined_all.
  induction ps as [|p ps IH]; intros Hd; [discriminate|].
  cbn [forallb] in Hd. cbn [filterM]. destruct (nullish p) eqn:Hn.
  - assert (Hk : keepOne id p w = (Throw TypeError, w))
      by (unfold keepOne, prop; rewrite Hn; reflexivity).
    rewrite (bind_Throw _ _ _ _ _ Hk). reflexivity.
  - cbn [negb andb] in Hd.
    rewrite (bind_Ok _ _ _ _ _ (keepOne_run id p w Hn)).
    rewrite (bind_Throw _ _ _ _ _ (IH Hd)). reflexivity.
Qed.

End NullElement.

(** X23. A null (or undefined) element in the collection, which
    [ensureLoaded] lets in since [loadFromStorage] checks only that
    [profiles] is an array, blocks every edit: [updateProfile] and
    [removeProfile] throw a [TypeError] on reading its [id], whatever id
    they are called with, and leave the profiles, the selection, the
    storage and the log of storage calls as they were. *)
Theorem null_element_blocks_edits (E : Profiles.Env) (u id : string)
    (changes : gmap string jsval) (w : Profiles.World) :
  Typed.defined_all (Profiles.profiles (Profiles.store w)) = false ->
  (result (Profiles.updateProfile E u id changes) w = Throw TypeError
   /\ Profiles.store (after (Profiles.updateProfile E u id changes) w)
      = Profiles.store w
   /\ Profiles.localStorage (after (Profiles.updateProfile E u id changes) w)
      = Profiles.localStorage w
   /\ Profiles.calls (after (Profiles.updateProfile E u id changes) w)
      = Profiles.calls w)
  /\ Profiles.removeProfile E u id w = (Throw TypeError, w).
Proof.
  intros Hd. split.
  - destruct (mapM_updateOne_null E id changes _ w Hd) as [n Hm].
    unfold result, after.
    rewrite (updateProfile_thrown E u id changes w _ _ Hm).
    repeat split.
  - apply removeProfile_thrown, filterM_keepOne_null, Hd.
Qed.

Lemma null_element_blocks_edits_witness :
  Profiles.profiles (Profiles.store NullSnapshot.hydrated) = [VNull]
  /\ Profiles.removeProfile (Ref.env Ref.ticking) "acct-1" "any"
       NullSnapshot.hydrated
     = (Throw TypeError, NullSnapshot.hydrated).
Proof.
  split; [vm_compute; reflexivity|].
  apply (null_element_blocks_edits (Ref.env Ref.ticking) "acct-1" "any" ∅
           NullSnapshot.hydrated).
  vm_compute. reflexivity.
Defined.

(** X24. [findAccountRow] only queries: it leaves the authentication
    state alone, and the provider calls it makes are the lookups by [id],
    by [user_id] and by [email] (the last only for a user with an e-mail),
    in that order and each at most once, starting with the first: never
    fewer than one call, never more than three.  Called without a user it
    makes no call and returns null. *)
Theorem findAccountRow_queries_in_order (P : Auth.Provider) (u : Auth.User)
    (w : Auth.World) :
  let w' := after (Auth.findAccountRow P (Some u)) w in
  Auth.auth w' = Auth.auth w
  /\ (exists l,
        Auth.history w' = (Auth.history w ++ l)%list
        /\ l `prefix_of` Lookup.strategies u
        /\ 1 <= length l <= 3)
  /\ Auth.findAccountRow P None w = (Ok VNull, w).
Proof.
  cbv zeta. split; [|split; [|reflexivity]].
  - destruct (findAccountRow_returns P (Some u) w) as (row & w' & Hrun & Ha).
    unfold after. rewrite Hrun. exact Ha.
  - unfold after, Auth.findAccountRow, try_catch, Lookup.strategies.
    unfold bind at 1. rewrite select_run.
    destruct (Auth.select_eq P (Auth.history w) "id" (Auth.user_id u))
      as [r1|e1];
      [|exists [Auth.CallSelect "id" (Auth.user_id u)]; cbn;
        split; [reflexivity|split; [eexists; reflexivity|lia]]].
    destruct (Auth.hit r1);
      [exists [Auth.CallSelect "id" (Auth.user_id u)]; cbn;
       split; [reflexivity|split; [eexists; reflexivity|lia]]|].
    unfold bind at 1. rewrite select_run.
    destruct (Auth.select_eq P _ "user_id" (Auth.user_id u)) as [r2|e2];
      [|exists [Auth.CallSelect "id" (Auth.user_id u);
                Auth.CallSelect "user_id" (Auth.user_id u)]; cbn;
        rewrite <- app_assoc;
        split; [reflexivity|split; [eexists; reflexivity|lia]]].
    destruct (Auth.hit r2);
      [exists [Auth.CallSelect "id" (Auth.user_id u);
               Auth.CallSelect "user_id" (Auth.user_id u)]; cbn;
       rewrite <- app_assoc;
       split; [reflexivity|split; [eexists; reflexivity|lia]]|].
    destruct (Auth.user_email u) as [e|];
      [|exists [Auth.CallSelect "id" (Auth.user_id u);
                Auth.CallSelect "user_id" (Auth.user_id u)]; cbn;
        rewrite <- app_assoc;
        split; [reflexivity|split; [eexists; reflexivity|lia]]].
    destruct (bool_decide (e = ""));
      [exists [Auth.CallSelect "id" (Auth.user_id u);
               Auth.CallSelect "user_id" (Auth.user_id u)]; cbn;
       rewrite <- app_assoc;
       split; [reflexivity|split; [eexists; reflexivity|lia]]|].
    unfold bind at 1. rewrite select_run.
    exists [Auth.CallSelect "id" (Auth.user_id u);
            Auth.CallSelect "user_id" (Auth.user_id u);
            Auth.CallSelect "email" e].
    destruct (Auth.select_eq P _ "email" e) as [r3|e3];
      [destruct (Auth.hit r3)|]; cbn; rewrite <- !app_assoc;
      (split; [reflexivity|split; [exists []; reflexivity|lia]]).
Qed.

(** * Identifiers are unique *)

Section UniqueIds.

Import Profiles Adapter Runs Typed Lineage Selection Ids.

Variable E : Env.

Lemma append_inv_head (s x y : string) : s +:+ x = s +:+ y -> x = y.
Proof.
  induction s as [|c s IH]; [intros H; exact H|].
  change (String c s +:+ x) with (String c (s +:+ x)).
  change (String c s +:+ y) with (String c (s +:+ y)).
  intros [= H]. exact (IH H).
Qed.

Lemma identifier_inj s1 s2 : identifier s1 = identifier s2 -> s1 = s2.
Proof.
  destruct s1 as [a r1], s2 as [b r2]. unfold identifier. cbn [fst snd].
  intros [= Heq].
  destruct (toString36_numeral a) as [Hd1 Hl1].
  destruct (toString36_numeral b) as [Hd2 Hl2].
  change ("-" +:+ r1) with (String "-" r1) in Heq.
  change ("-" +:+ r2) with (String "-" r2) in Heq.
  pose proof (dash_splits _ _ _ _ Hl1 Hl2 Heq) as Hs.
  assert (Hab : a = b) by (rewrite <- Hd1, <- Hd2, Hs; reflexivity).
  subst b. apply append_inv_head in Heq. congruence.
Qed.

Lemma ids_updatedList id changes n ps :
  changes !! "id" = None -> typed_all ps = true ->
  ids (updatedList E id changes n ps) = ids ps.
Proof.
  intros Hc Ht.
  assert (Hk : "id" <> "updatedAt") by discriminate.
  pose proof (updatedList_keeps E id changes n ps "id" Hc Hk Ht) as Hf.
  clear Ht. unfold ids.
  induction Hf as [|p p' ps ps' Hp _ IH]; [reflexivity|].
  cbn [map]. rewrite Hp, IH. reflexivity.
Qed.

Lemma ids_remaining id ps : sublist (ids (remaining id ps)) (ids ps).
Proof.
  unfold ids, remaining. apply (fmap_sublist _), sublist_filter.
Qed.

Lemma mutation_fresh a acts w :
  mutation a = true ->
  fresh E (a :: acts) w -> fresh E acts (after (perform E a) w).
Proof.
  intros Hm (Ht & Hn & Hs & Hd). unfold fresh.
  pose proof (typed_all_defined _ Ht) as Hdef.
  destruct a as [u|pid|u d|u id changes|u id|]; try discriminate Hm;
    cbn [mutation] in Hm; cbn [stamps app] in Hs, Hd;
    unfold after in *; cbn [perform] in *.
  - apply bool_decide_eq_true in Hm.
    rewrite (bind_Ok _ _ _ _ _ (addProfile_run E u d w)) in *.
    cbn [ret snd] in *. apply NoDup_cons in Hs as [Hnew Hs].
    assert (Hp : profiles (store (added E u d w))
                 = (profiles (store w) ++ [newProfile E d w])%list)
      by reflexivity.
    rewrite Hp. unfold ids in *. rewrite map_app. cbn [map].
    rewrite (newProfile_id E d w Hm).
    change (VStr (uidAt E w)) with (identifier (stamp E w)).
    split; [|split; [|split]].
    + unfold typed_all in *. rewrite forallb_app, Ht. cbn [forallb].
      rewrite (newProfile_typed E d w Hm). reflexivity.
    + apply NoDup_app. split; [exact Hn|]. split; [|apply NoDup_singleton].
      intros v Hv Hin. apply list_elem_of_singleton in Hin. subst v.
      apply (Hd (stamp E w)); [apply list_elem_of_here|exact Hv].
    + exact Hs.
    + intros s Hin Hmem. apply elem_of_app in Hmem as [Hmem|Hmem].
      * apply (Hd s); [apply list_elem_of_further, Hin|exact Hmem].
      * apply list_elem_of_singleton, identifier_inj in Hmem. subst s.
        exact (Hnew Hin).
  - apply bool_decide_eq_true in Hm.
    rewrite (updateProfile_run E u id changes w Hdef) in *. cbn [snd] in *.
    assert (Hp : profiles (store (updated E u id changes w))
                 = updatedList E id changes (ticks w) (profiles (store w)))
      by reflexivity.
    rewrite Hp, (ids_updatedList id changes _ _ Hm Ht).
    split; [apply updatedList_typed; assumption|].
    split; [exact Hn|]. split; [exact Hs|exact Hd].
  - rewrite (removeProfile_run E u id w Hdef) in *. cbn [snd] in *.
    assert (Hp : profiles (store (removed E u id w))
                 = remaining id (profiles (store w))) by reflexivity.
    rewrite Hp. split; [apply remaining_typed, Ht|].
    split; [apply (sublist_NoDup _ _ Hn (ids_remaining id _))|].
    split; [exact Hs|].
    intros s Hin Hmem. apply (Hd s Hin).
    apply (elem_of_sublist _ _ _ Hmem (ids_remaining id _)).
  - unfold reset, set, modify in *. cbn [snd store profiles] in *.
    split; [reflexivity|]. split; [constructor|]. split; [exact Hs|].
    intros s _ Hmem. apply elem_of_nil in Hmem. exact Hmem.
Qed.

Lemma mutations_fresh acts w :
  forallb mutation acts = true ->
  fresh E acts w -> fresh E [] (performAll E acts w).
Proof.
  revert w. induction acts as [|a acts IH]; intros w Hm Hf; [exact Hf|].
  cbn [forallb] in Hm. apply andb_true_iff in Hm as [Ha Hm].
  cbn [performAll]. apply IH; [exact Hm|].
  apply mutation_fresh; assumption.
Qed.

Lemma mutations_unique acts w :
  forallb mutation acts = true ->
  typed_all (profiles (store w)) = true ->
  NoDup (ids (profiles (store w))) ->
  NoDup (stamps E acts w) ->
  (forall s, s ∈ stamps E acts w ->
             identifier s ∉ ids (profiles (store w))) ->
  NoDup (ids (profiles (store (performAll E acts w)))).
Proof.
  intros Hm Ht Hn Hs Hd.
  destruct (mutations_fresh acts w Hm) as (_ & H & _); [|exact H].
  repeat split; assumption.
Qed.

End UniqueIds.

(** X25. Identifiers stay unique as long as no two [addProfile] calls
    take both the same reading of the clock and the same six random
    characters.  Start from a collection of typed profiles whose ids are
    pairwise distinct, and make any sequence of [addProfile],
    [updateProfile], [removeProfile] and [reset] calls whose data and
    changes carry no [id].  If the stamps [uid] takes in these calls (the
    reading of [Date.now()] with the slice of the random numeral) are
    pairwise distinct and make no id the starting collection holds, the
    ids of the collection are pairwise distinct at the end: [uid] maps
    different stamps to different ids, and the other calls add none. *)
Theorem ids_stay_unique (E : Profiles.Env) (acts : list Lineage.Action)
    (w : Profiles.World) :
  forallb Selection.mutation acts = true ->
  Typed.typed_all (Profiles.profiles (Profiles.store w)) = true ->
  NoDup (Ids.ids (Profiles.profiles (Profiles.store w))) ->
  NoDup (Ids.stamps E acts w) ->
  (forall s, s ∈ Ids.stamps E acts w ->
             Ids.identifier s ∉ Ids.ids (Profiles.profiles (Profiles.store w))) ->
  NoDup (Ids.ids
           (Profiles.profiles
              (Profiles.store (Lineage.performAll E acts w)))).
Proof. apply mutations_unique. Qed.

Lemma ids_stay_unique_witness :
  Ids.stamps Dice.env
    [Lineage.Add "acct-1" Ref.ada; Lineage.Add "acct-1" Ref.grace] Ref.fresh
  = [(1700000000000%N, "4fzyo8"); (1700000000000%N, "9k2mx7")]
  /\ NoDup (Ids.ids
              (Profiles.profiles
                 (Profiles.store
                    (Lineage.performAll Dice.env
                       [Lineage.Add "acct-1" Ref.ada;
                        Lineage.Add "acct-1" Ref.grace] Ref.fresh)))).
Proof.
  assert (Hst : Ids.stamps Dice.env
                  [Lineage.Add "acct-1" Ref.ada; Lineage.Add "acct-1" Ref.grace]
                  Ref.fresh
                = [(1700000000000%N, "4fzyo8"); (1700000000000%N, "9k2mx7")])
    by (vm_compute; reflexivity).
  split; [exact Hst|].
  apply (ids_stay_unique Dice.env).
  - vm_compute. reflexivity.
  - reflexivity.
  - constructor.
  - rewrite Hst. apply NoDup_cons. split; [|apply NoDup_singleton].
    intros H. apply list_elem_of_singleton in H. discriminate H.
  - intros s _ H. apply elem_of_nil in H. exact H.
Defined.

(** * Undefined properties are not stored *)

Section Pruning.

Import RefJSON JSONValues Storable.

Lemma kept_cons_absent k l :
  filter (fun kx : string * jsval => absent kx.2 = false) ((k, VUndef) :: l)
  = filter (fun kx : string * jsval => absent kx.2 = false) l.
Proof. rewrite filter_cons. rewrite decide_False by discriminate. reflexivity. Qed.

Lemma kept_cons_present k x l :
  absent x = false ->
  filter (fun kx : string * jsval => absent kx.2 = false) ((k, x) :: l)
  = (k, x) :: filter (fun kx : string * jsval => absent kx.2 = false) l.
Proof. intros Hx. rewrite filter_cons. rewrite decide_True by exact Hx. reflexivity. Qed.

Lemma kept_present o kx : kx ∈ kept o -> absent kx.2 = false.
Proof. unfold kept. intros [H _]%list_elem_of_filter. exact H. Qed.

Lemma kept_NoDup o : NoDup (kept o).*1.
Proof.
  apply (sublist_NoDup _ ((map_to_list o).*1));
    [apply NoDup_fst_map_to_list|].
  unfold kept. apply (fmap_sublist _), sublist_filter.
Qed.

Lemma stringify_obj_kept o :
  stringify (VObj o) = "{" +:+ join "," (map member (kept o)) +:+ "}".
Proof.
  cbn [stringify]. rewrite map_fold_foldr. unfold kept.
  f_equal. f_equal. f_equal.
  induction (map_to_list o) as [|[k x] l IH]; [reflexivity|].
  cbn [foldr uncurry]. rewrite IH.
  destruct x; [apply eq_sym; rewrite kept_cons_absent; reflexivity|..];
    rewrite kept_cons_present by reflexivity; reflexivity.
Qed.

Lemma storable_obj o :
  storable (VObj o) = forallb (fun kx => storable kx.2) (kept o).
Proof.
  cbn [storable]. rewrite map_fold_foldr. unfold kept.
  induction (map_to_list o) as [|[k x] l IH]; [reflexivity|].
  cbn [foldr uncurry]. rewrite IH.
  destruct x; [rewrite kept_cons_absent; reflexivity|..];
    rewrite kept_cons_present by reflexivity; reflexivity.
Qed.

Lemma weight_obj o :
  weight (VObj o) = S (list_sum (map (fun kx => weight kx.2) (kept o))).
Proof.
  cbn [weight]. rewrite map_fold_foldr. unfold kept. f_equal.
  induction (map_to_list o) as [|[k x] l IH]; [reflexivity|].
  cbn [foldr uncurry]. rewrite IH.
  destruct x; [rewrite kept_cons_absent; reflexivity|..];
    rewrite kept_cons_present by reflexivity; reflexivity.
Qed.

Lemma prune_obj o :
  prune (VObj o)
  = VObj (list_to_map (map (fun kx => (kx.1, prune kx.2)) (kept o))).
Proof.
  cbn [prune]. rewrite map_fold_foldr. unfold kept. f_equal.
  induction (map_to_list o) as [|[k x] l IH]; [reflexivity|].
  cbn [foldr uncurry]. rewrite IH.
  destruct x; [rewrite kept_cons_absent; reflexivity|..];
    rewrite kept_cons_present by reflexivity; reflexivity.
Qed.

Lemma weight_elem x xs : x ∈ xs -> weight x <= list_sum (map weight xs).
Proof. induction 1 as [x xs|x y xs _ IH]; simpl; lia. Qed.

Lemma weight_member (kx : string * jsval) l :
  kx ∈ l -> weight kx.2 <= list_sum (map (fun kx => weight kx.2) l).
Proof. induction 1 as [x xs|x y xs _ IH]; simpl; lia. Qed.

Lemma stringify_head_storable v :
  storable v = true ->
  exists c t, stringify v = String c t
              /\ is_ws c = false
              /\ (N_of_ascii c =? 93)%N = false.
Proof.
  intros Hc. destruct v as [| |b|n|s|xs|o]; try discriminate Hc.
  - eexists _, _. repeat split; reflexivity.
  - destruct b; eexists _, _; repeat split; reflexivity.
  - eexists _, _. repeat split; reflexivity.
  - eexists _, _. repeat split; reflexivity.
  - rewrite (stringify_obj_kept o). eexists _, _. repeat split; reflexivity.
Qed.

Lemma stringify_nonempty_storable v :
  storable v = true -> 1 <= String.length (stringify v).
Proof.
  intros Hc. destruct (stringify_head_storable v Hc) as (c & t & -> & _).
  cbn [String.length]. lia.
Qed.

Section SequencesWith.

Variable value : string -> option (jsval * string).
Variable f : jsval -> jsval.

Lemma parse_elements_join_with xs :
  forall acc fuel rest,
    xs <> [] ->
    length xs <= fuel ->
    (forall x, x ∈ xs -> forall r, value (stringify x +:+ r) = Some (f x, r)) ->
    parse_elements value fuel
      (join "," (map stringify xs) +:+ String "]" rest) acc
    = Some ((rev acc ++ map f xs)%list, rest).
Proof.
  induction xs as [|x xs IH]; intros acc fuel rest Hne Hlen Hval; [done|].
  destruct fuel as [|fuel]; [cbn [length] in Hlen; lia|].
  cbn [length] in Hlen.
  destruct xs as [|y xs].
  - cbn [map join parse_elements].
    rewrite (Hval x) by (apply list_elem_of_here).
    cbn [mbind option_bind]. rewrite skip_ws_head by reflexivity.
    known_char. reflexivity.
  - change (join "," (map stringify (x :: y :: xs)))
      with (stringify x +:+ "," +:+ join "," (map stringify (y :: xs))).
    rewrite !append_assoc. cbn [parse_elements].
    rewrite (Hval x) by (apply list_elem_of_here).
    change ("," +:+ join "," (map stringify (y :: xs)) +:+ String "]" rest)
      with (String "," (join "," (map stringify (y :: xs)) +:+ String "]" rest)).
    cbn [mbind option_bind]. rewrite skip_ws_head by reflexivity.
    known_char.
    rewrite (IH (f x :: acc) fuel rest); [| done | lia |].
    + cbn [rev map]. rewrite <- app_assoc. reflexivity.
    + intros z Hz. apply Hval. apply list_elem_of_further, Hz.
Qed.

Lemma parse_members_join_with l :
  forall acc fuel rest,
    l <> [] ->
    length l <= fuel ->
    (forall kx, kx ∈ l ->
       forall r, value (stringify kx.2 +:+ r) = Some (f kx.2, r)) ->
    parse_members value fuel
      (join "," (map member l) +:+ String "}" rest) acc
    = Some (fold_left (fun m kx => <[kx.1 := f kx.2]> m) l acc, rest).
Proof.
  induction l as [|[k x] l IH]; intros acc fuel rest Hne Hlen Hval; [done|].
  destruct fuel as [|fuel]; [cbn [length] in Hlen; lia|].
  cbn [length] in Hlen.
  assert (Hstep : forall tail,
            parse_members value (S fuel) (member (k, x) +:+ tail) acc
            = match skip_ws tail with
              | String c rest' =>
                  if (N_of_ascii c =? 44)%N
                  then parse_members value fuel rest' (<[k := f x]> acc)
                  else if (N_of_ascii c =? 125)%N
                       then Some (<[k := f x]> acc, rest')
                       else None
              | EmptyString => None
              end).
  { intros tail. unfold member, quote. cbn [fst snd].
    change (String dquote (escape k +:+ String dquote "") +:+ ":" +:+ stringify x)
      with (String dquote ((escape k +:+ String dquote "") +:+ ":" +:+ stringify x)).
    change (String dquote ((escape k +:+ String dquote "") +:+ ":" +:+ stringify x)
            +:+ tail)
      with (String dquote (((escape k +:+ String dquote "") +:+ ":" +:+ stringify x)
                           +:+ tail)).
    rewrite !append_assoc.
    change (String dquote "" +:+ ":" +:+ stringify x +:+ tail)
      with (String dquote (String ":" (stringify x +:+ tail))).
    cbn [parse_members]. rewrite skip_ws_head by reflexivity.
    known_char. rewrite parse_chars_escape. cbn [mbind option_bind].
    rewrite skip_ws_head by reflexivity. known_char.
    rewrite (Hval (k, x)) by (apply list_elem_of_here).
    reflexivity. }
  destruct l as [|[k' y] l].
  - cbn [map join]. rewrite Hstep. rewrite skip_ws_head by reflexivity.
    known_char. reflexivity.
  - change (join "," (map member ((k, x) :: (k', y) :: l)))
      with (member (k, x) +:+ "," +:+ join "," (map member ((k', y) :: l))).
    rewrite !append_assoc. rewrite Hstep.
    change ("," +:+ join "," (map member ((k', y) :: l)) +:+ String "}" rest)
      with (String "," (join "," (map member ((k', y) :: l))
                        +:+ String "}" rest)).
    rewrite skip_ws_head by reflexivity. known_char.
    rewrite (IH (<[k := f x]> acc) fuel rest); [reflexivity | done | lia |].
    intros z Hz. apply Hval. apply list_elem_of_further, Hz.
Qed.

Lemma fold_left_insert_with (l : list (string * jsval)) :
  forall acc : gmap string jsval,
    fold_left (fun m kx => <[kx.1 := f kx.2]> m) l acc
    = fold_left (fun m kx => <[kx.1 := kx.2]> m)
        (map (fun kx => (kx.1, f kx.2)) l) acc.
Proof.
  induction l as [|[k x] l IH]; intros acc; [reflexivity|].
  cbn [fold_left map fst snd]. apply IH.
Qed.

Lemma fold_left_insert_list_to_map (l : list (string * jsval)) :
  NoDup l.*1 ->
  fold_left (fun m kx => <[kx.1 := f kx.2]> m) l (∅ : gmap string jsval)
  = list_to_map (map (fun kx => (kx.1, f kx.2)) l).
Proof.
  intros Hn. rewrite fold_left_insert_with. apply map_eq. intros k.
  rewrite fold_left_insert_lookup.
  - rewrite lookup_empty.
    destruct (list_to_map _ !! k); reflexivity.
  - assert (Heq : (map (fun kx : string * jsval => (kx.1, f kx.2)) l).*1
                  = l.*1).
    { clear. induction l as [|[k' x] l IH]; [reflexivity|].
      cbn [map fmap list_fmap fst]. f_equal. exact IH. }
    rewrite Heq. exact Hn.
Qed.

End SequencesWith.

Lemma parse_value_stringify_pruned fuel :
  forall v rest,
    storable v = true ->
    weight v <= fuel ->
    parse_value fuel (stringify v +:+ rest) = Some (prune v, rest).
Proof.
  induction fuel as [|fuel IH]; intros v rest Hc Hsize.
  { destruct v; try discriminate Hc; cbn [weight] in Hsize; lia. }
  destruct v as [| |b|n|s|xs|o]; try discriminate Hc.
  - reflexivity.
  - destruct b; reflexivity.
  - cbn [stringify prune]. unfold quote.
    change (String dquote (escape s +:+ String dquote "") +:+ rest)
      with (String dquote ((escape s +:+ String dquote "") +:+ rest)).
    rewrite append_assoc.
    change (String dquote "" +:+ rest) with (String dquote rest).
    cbn [parse_value]. rewrite skip_ws_head by reflexivity. cbv zeta.
    known_char. rewrite parse_chars_escape. reflexivity.
  - destruct xs as [|x xs]; [reflexivity|].
    cbn [storable] in Hc. cbn [weight] in Hsize.
    cbn [stringify prune].
    change ("[" +:+ join "," (map stringify (x :: xs)) +:+ "]")
      with (String "[" (join "," (map stringify (x :: xs)) +:+ "]")).
    change (String "[" (join "," (map stringify (x :: xs)) +:+ "]") +:+ rest)
      with (String "[" ((join "," (map stringify (x :: xs)) +:+ "]") +:+ rest)).
    rewrite append_assoc. change ("]" +:+ rest) with (String "]" rest).
    cbn [parse_value]. rewrite skip_ws_head by reflexivity. cbv zeta.
    known_char.
    assert (Hx : storable x = true)
      by (cbn [forallb] in Hc; apply andb_true_iff in Hc; tauto).
    destruct (stringify_head_storable x Hx) as (c & t & Hhead & Hws & Hbr).
    assert (Hjoin : exists t', join "," (map stringify (x :: xs))
                               +:+ String "]" rest = String c t').
    { destruct xs as [|y xs].
      - cbn [map join]. rewrite Hhead. eexists. reflexivity.
      - change (join "," (map stringify (x :: y :: xs)))
          with (stringify x +:+ "," +:+ join "," (map stringify (y :: xs))).
        rewrite Hhead. eexists. reflexivity. }
    destruct Hjoin as [t' Hjoin].
    rewrite Hjoin at 1. rewrite skip_ws_head by exact Hws. rewrite Hbr.
    rewrite (parse_elements_join_with _ prune); [reflexivity | done | |].
    + rewrite length_append. cbn [String.length].
      pose proof (length_join_ge (map stringify (x :: xs))) as Hlen.
      rewrite length_map in Hlen. cut (length (x :: xs)
        <= String.length (join "," (map stringify (x :: xs)))); [lia|].
      apply Hlen. apply Forall_map, Forall_forall. intros y Hy.
      apply stringify_nonempty_storable.
      apply (proj1 (forallb_forall storable (x :: xs)) Hc).
      apply list_elem_of_In, Hy.
    + intros y Hy r. apply IH.
      * apply (proj1 (forallb_forall storable (x :: xs)) Hc).
        apply list_elem_of_In, Hy.
      * pose proof (weight_elem y (x :: xs) Hy). lia.
  - rewrite (stringify_obj_kept o), prune_obj. rewrite weight_obj in Hsize.
    pose proof Hc as Hcl. rewrite storable_obj in Hcl.
    pose proof (kept_NoDup o) as Hnd.
    destruct (kept o) as [|[k x] l] eqn:Hl; [reflexivity|].
    change ("{" +:+ join "," (map member ((k, x) :: l)) +:+ "}")
      with (String "{" (join "," (map member ((k, x) :: l)) +:+ "}")).
    change (String "{" (join "," (map member ((k, x) :: l)) +:+ "}") +:+ rest)
      with (String "{" ((join "," (map member ((k, x) :: l)) +:+ "}") +:+ rest)).
    rewrite append_assoc. change ("}" +:+ rest) with (String "}" rest).
    cbn [parse_value]. rewrite skip_ws_head by reflexivity. cbv zeta.
    known_char.
    assert (Hjoin : exists t', join "," (map member ((k, x) :: l))
                               +:+ String "}" rest = String dquote t').
    { destruct l as [|[k' y] l]; eexists; reflexivity. }
    destruct Hjoin as [t' Hjoin].
    rewrite Hjoin at 1. rewrite skip_ws_head by reflexivity. known_char.
    rewrite (parse_members_join_with _ prune); [| done | |].
    + rewrite (fold_left_insert_list_to_map prune _ Hnd). reflexivity.
    + rewrite length_append. cbn [String.length].
      pose proof (length_join_ge (map member ((k, x) :: l))) as Hlen.
      rewrite length_map in Hlen. cut (length ((k, x) :: l)
        <= String.length (join "," (map member ((k, x) :: l)))); [lia|].
      apply Hlen. apply Forall_map, Forall_forall. intros kx _.
      unfold member, quote. rewrite !length_append. cbn [String.length]. lia.
    + intros kx Hkx r. apply IH.
      * apply (proj1 (forallb_forall _ ((k, x) :: l)) Hcl kx).
        apply list_elem_of_In, Hkx.
      * pose proof (weight_member kx ((k, x) :: l) Hkx). lia.
Qed.

Lemma weight_le_length n :
  forall v, weight v <= n -> storable v = true ->
            weight v <= String.length (stringify v).
Proof.
  induction n as [|n IH]; intros v Hn Hc.
  { destruct v; try discriminate Hc; cbn [weight] in Hn; lia. }
  destruct v as [| |b|m|s|xs|o]; try discriminate Hc.
  - cbn. lia.
  - destruct b; cbn; lia.
  - cbn [weight stringify]. unfold quote. cbn [String.length]. lia.
  - cbn [weight stringify storable] in *. rewrite !length_append.
    cbn [String.length].
    cut (list_sum (map weight xs)
         <= String.length (join "," (map stringify xs))); [lia|].
    apply sum_le_join. apply Forall2_fmap, Forall2_same_length_lookup_2;
      [reflexivity|].
    intros i x y Hx Hy. assert (x = y) by congruence. subst y.
    apply list_elem_of_lookup_2 in Hx. apply IH.
    + pose proof (weight_elem x xs Hx). lia.
    + apply (proj1 (forallb_forall storable xs) Hc). apply list_elem_of_In, Hx.
  - rewrite (stringify_obj_kept o). rewrite weight_obj in *.
    rewrite storable_obj in Hc.
    rewrite !length_append. cbn [String.length].
    cut (list_sum (map (fun kx => weight kx.2) (kept o))
         <= String.length (join "," (map member (kept o)))); [lia|].
    apply sum_le_join. apply Forall2_fmap, Forall2_same_length_lookup_2;
      [reflexivity|].
    intros i x y Hx Hy. assert (x = y) by congruence. subst y.
    apply list_elem_of_lookup_2 in Hx.
    unfold member. rewrite !length_append.
    cut (weight x.2 <= String.length (stringify x.2)); [lia|].
    apply IH.
    + pose proof (weight_member x _ Hx). lia.
    + apply (proj1 (forallb_forall _ _) Hc x). apply list_elem_of_In, Hx.
Qed.

(** The reference codec reads back every storable value it writes, without
    its undefined properties. *)
Lemma parse_stringify_pruned v :
  storable v = true -> RefJSON.parse (stringify v) = Some (prune v).
Proof.
  intros Hc.
  pose proof (parse_value_stringify_pruned (S (String.length (stringify v)))
                v "" Hc) as Hp.
  rewrite append_nil_r in Hp. unfold RefJSON.parse. rewrite Hp; [reflexivity|].
  pose proof (weight_le_length (weight v) v (le_n _) Hc). lia.
Qed.

Lemma reference_lawful (clk : nat -> N) : lawful (Ref.env clk).
Proof. split; [exact parse_stringify_pruned|reflexivity]. Qed.

End Pruning.

Section Fields.

Import RefJSON JSONValues Storable.

Lemma prune_defined x : absent x = false -> absent (prune x) = false.
Proof. destruct x; try reflexivity. discriminate. Qed.

(** Reading a property of the pruned value gives the pruned property. *)
Lemma prune_lookup v k : lookup_prop (prune v) k = prune (lookup_prop v k).
Proof.
  destruct v as [| |b|n|s|xs|o]; try reflexivity.
  rewrite prune_obj. cbn [lookup_prop].
  destruct (o !! k) as [x|] eqn:Hk.
  - destruct (absent x) eqn:Hx.
    + destruct x; try discriminate Hx. cbn [default prune].
      rewrite not_elem_of_list_to_map_1; [reflexivity|].
      intros Hin. apply list_elem_of_fmap in Hin as [[k' y] [Hk' Hin]].
      apply list_elem_of_fmap in Hin as [[k'' z] [Heq Hin]].
      cbn [fst snd] in *. injection Heq as -> ->. subst k''.
      pose proof (kept_present o _ Hin) as Hz. cbn [snd] in Hz.
      unfold kept in Hin. apply list_elem_of_filter in Hin as [_ Hin].
      apply elem_of_map_to_list in Hin. rewrite Hk in Hin.
      injection Hin as <-. discriminate Hz.
    + cbn [default].
      rewrite (elem_of_list_to_map_1 _ k (prune x)); [reflexivity| |].
      * assert (Heq : (map (fun kx : string * jsval => (kx.1, prune kx.2))
                         (kept o)).*1 = (kept o).*1).
        { clear. induction (kept o) as [|[k' x] l IH]; [reflexivity|].
          cbn [map fmap list_fmap fst]. f_equal. exact IH. }
        rewrite Heq. apply kept_NoDup.
      * apply list_elem_of_fmap. exists (k, x). split; [reflexivity|].
        unfold kept. apply list_elem_of_filter. split; [exact Hx|].
        apply elem_of_map_to_list, Hk.
  - cbn [default prune].
    rewrite not_elem_of_list_to_map_1; [reflexivity|].
    intros Hin. apply list_elem_of_fmap in Hin as [[k' y] [Hk' Hin]].
    apply list_elem_of_fmap in Hin as [[k'' z] [Heq Hin]].
    cbn [fst snd] in *. injection Heq as -> ->. subst k''.
    unfold kept in Hin. apply list_elem_of_filter in Hin as [_ Hin].
    apply elem_of_map_to_list in Hin. rewrite Hk in Hin. discriminate Hin.
Qed.

Lemma size_lookup o k x : o !! k = Some x -> size x < size (VObj o).
Proof.
  intros Hk. rewrite size_obj.
  pose proof (size_member (k, x) (map_to_list o)
                (proj2 (elem_of_map_to_list o k x) Hk)) as H.
  cbn [snd] in H. lia.
Qed.

Lemma field_equal_prune_bounded n :
  forall v, size v <= n -> field_equal v (prune v).
Proof.
  induction n as [|n IH]; intros v Hn.
  { destruct v; cbn [size] in Hn; lia. }
  destruct v as [| |b|m|s|xs|o]; try apply field_equal_same.
  - cbn [prune]. apply field_equal_array.
    apply Forall2_fmap_r, Forall_Forall2_diag, Forall_forall.
    intros x Hx. apply IH. cbn [size] in Hn.
    pose proof (size_elem x xs Hx). lia.
  - pose proof (prune_obj o) as Hp. rewrite Hp.
    apply field_equal_object. intros k. rewrite <- Hp, prune_lookup.
    cbn [lookup_prop]. destruct (o !! k) as [x|] eqn:Hk.
    + change (default VUndef (Some x)) with x.
      apply IH. pose proof (size_lookup o k x Hk). lia.
    + apply field_equal_same.
Qed.

(** The pruned value is equal to the value field for field. *)
Lemma field_equal_prune v : field_equal v (prune v).
Proof. apply (field_equal_prune_bounded (size v)). reflexivity. Qed.

Lemma kept_clean o :
  clean (VObj o) = true -> kept o = map_to_list o.
Proof.
  rewrite clean_obj. unfold kept.
  induction (map_to_list o) as [|[k x] l IH]; [reflexivity|].
  cbn [forallb snd]. intros [Hx Hl]%andb_true_iff.
  rewrite kept_cons_present by (destruct x; try reflexivity; discriminate Hx).
  rewrite (IH Hl). reflexivity.
Qed.

Lemma prune_clean_bounded n :
  forall v, size v <= n -> clean v = true -> prune v = v.
Proof.
  induction n as [|n IH]; intros v Hn Hc.
  { destruct v; cbn [size] in Hn; lia. }
  destruct v as [| |b|m|s|xs|o]; try reflexivity.
  - cbn [prune]. f_equal. cbn [clean] in Hc. cbn [size] in Hn.
    rewrite <- (map_id xs) at 2. apply map_ext_in. intros x Hx.
    apply list_elem_of_In in Hx. apply IH.
    + pose proof (size_elem x xs Hx). lia.
    + apply (proj1 (forallb_forall clean xs) Hc), list_elem_of_In, Hx.
  - rewrite prune_obj, (kept_clean o Hc). f_equal.
    rewrite <- (list_to_map_to_list o) at 2. f_equal.
    rewrite <- (map_id (map_to_list o)) at 2. apply map_ext_in.
    intros [k x] Hx. apply list_elem_of_In in Hx. cbn [fst snd]. f_equal.
    apply IH.
    + pose proof (size_lookup o k x (proj1 (elem_of_map_to_list o k x) Hx)).
      lia.
    + rewrite clean_obj in Hc.
      apply (proj1 (forallb_forall _ _) Hc (k, x)), list_elem_of_In, Hx.
Qed.

(** A value without undefined properties is its own pruning. *)
Lemma prune_clean v : clean v = true -> prune v = v.
Proof. apply (prune_clean_bounded (size v)). reflexivity. Qed.

Lemma prune_selection v : selection_like v = true -> prune v = v.
Proof. destruct v; try discriminate; reflexivity. Qed.

Lemma storable_snapshot ps current t :
  forallb storable ps = true ->
  selection_like current = true ->
  storable (Profiles.PersistedProfiles ps current t) = true.
Proof.
  intros Hps Hc. unfold Profiles.PersistedProfiles.
  rewrite storable_obj. unfold kept.
  vm_compute (map_to_list _).
  destruct current; try discriminate Hc;
    rewrite ?kept_cons_absent, ?kept_cons_present by reflexivity;
    cbn [filter list_filter forallb snd storable];
    rewrite ?kept_cons_absent, ?kept_cons_present by reflexivity;
    cbn [forallb snd storable]; rewrite ?Hps; reflexivity.
Qed.

Lemma snapshot_profiles ps current t :
  lookup_prop (Profiles.PersistedProfiles ps current t) "profiles" = VArr ps.
Proof. reflexivity. Qed.

Lemma snapshot_selection ps current t :
  lookup_prop (Profiles.PersistedProfiles ps current t) "currentProfileId"
  = current.
Proof. reflexivity. Qed.

End Fields.

(** * What is saved is what is loaded *)

Section RoundTrip.

Import Profiles Adapter Runs Typed Lineage StoreFacts Footprint Others
  Storable.

Variable E : Env.

Hypothesis codec : lawful E.

(** What [loadFromStorage] makes of the text of a snapshot. *)
Lemma loaded_snapshot ps current t :
  forallb storable ps = true ->
  selection_like current = true ->
  loaded E (Some (JSON_stringify E (PersistedProfiles ps current t)))
  = Some (prune (PersistedProfiles ps current t)).
Proof.
  intros Hps Hc. destruct codec as [Hlaw Hempty].
  pose proof (Hlaw _ (storable_snapshot ps current t Hps Hc)) as Hrt.
  unfold loaded. rewrite bool_decide_eq_false_2.
  - rewrite Hrt, prune_lookup, snapshot_profiles. reflexivity.
  - intros Hnil. rewrite Hnil, Hempty in Hrt. discriminate.
Qed.

Lemma save_then_load_pruned A ps current t (w w2 : World) :
  forallb storable ps = true ->
  selection_like current = true ->
  quota_ok E (localStorage w) (storageKey A)
    (JSON_stringify E (PersistedProfiles ps current t)) = true ->
  localStorage w2 !! storageKey A
  = localStorage (after (saveToStorage E A (PersistedProfiles ps current t)) w)
    !! storageKey A ->
  result (saveToStorage E A (PersistedProfiles ps current t)) w = Ok tt
  /\ result (loadFromStorage E A)
       (after (saveToStorage E A (PersistedProfiles ps current t)) w)
     = Ok (Some (prune (PersistedProfiles ps current t)))
  /\ result (loadFromStorage E A) w2
     = Ok (Some (prune (PersistedProfiles ps current t))).
Proof.
  intros Hps Hc Hq. unfold result, after.
  rewrite saveToStorage_run. cbn [fst snd].
  rewrite !loadFromStorage_run. cbn [fst].
  assert (Hitem : localStorage
                    (saved E (storageKey A)
                       (JSON_stringify E (PersistedProfiles ps current t)) w)
                  !! storageKey A
                  = Some (JSON_stringify E (PersistedProfiles ps current t))).
  { unfold saved. cbn [localStorage]. rewrite Hq. apply lookup_insert_eq. }
  intros Hsame. rewrite Hsame, Hitem, (loaded_snapshot ps current t Hps Hc).
  repeat split.
Qed.

(** The store [ensureLoaded] installs from the snapshot of a store. *)
Lemma stored_restores A w w2 :
  synced E A w ->
  forallb storable (profiles (store w)) = true ->
  selection_like (currentProfileId (store w)) = true ->
  localStorage w2 !! storageKey A = localStorage w !! storageKey A ->
  loadedForUserId (store w2) <> Some A ->
  store (after (ensureLoaded E A) w2)
  = {| profiles := map prune (profiles (store w));
       currentProfileId := currentProfileId (store w);
       loadedForUserId := Some A |}.
Proof.
  intros [t Ht] Hps Hc Hsame Hl. unfold after.
  rewrite (ensureLoaded_other E A w2 Hl). cbn [snd].
  unfold Hydration.ensured. rewrite Hsame, Ht.
  rewrite (loaded_snapshot _ _ t Hps Hc).
  unfold with_store, Hydration.hydrated. cbn [store].
  rewrite !prune_lookup, snapshot_profiles, snapshot_selection.
  rewrite (prune_selection _ Hc). reflexivity.
Qed.

Lemma restored_fields (ps : list jsval) :
  Forall2 field_equal ps (map prune ps)
  /\ (forallb JSONValues.clean ps = true -> map prune ps = ps).
Proof.
  split.
  - apply Forall2_fmap_r, Forall_Forall2_diag, Forall_forall.
    intros p _. apply field_equal_prune.
  - intros Hc. rewrite <- (map_id ps) at 2. apply map_ext_in.
    intros p Hp. apply prune_clean.
    apply (proj1 (forallb_forall _ ps) Hc), Hp.
Qed.

End RoundTrip.

(** C6. Round-trip persistence.  Let the platform's JSON codec be a JSON
    codec: what it reads back of a value it wrote is that value without
    its properties whose value is undefined.  Let S be a snapshot: an
    array of profiles built from null, booleans, strings, arrays and
    objects whose properties may be undefined (an optional field left
    out), a selection that is a string or null, and a timestamp.  When
    the storage accepts the write of [saveToStorage], a [loadFromStorage]
    for the same account, in any later world in which the item under that
    account's key has not been written again, returns S without its
    undefined properties, a snapshot equal to S field for field: it has
    the timestamp and the selection of S, and as many profiles, each of
    which reads the same as the profile of S at every property.  It is S
    itself when S holds no undefined property. *)
Theorem save_load_roundtrip (E : Profiles.Env) (A : string)
    (ps : list jsval) (current : option string) (updatedAt : string)
    (w w2 : Profiles.World) :
  let S := Profiles.PersistedProfiles ps (of_nullable current) updatedAt in
  let w1 := after (Profiles.saveToStorage E A S) w in
  Storable.lawful E ->
  forallb Storable.storable ps = true ->
  Profiles.quota_ok E (Profiles.localStorage w) (Profiles.storageKey A)
    (Profiles.JSON_stringify E S) = true ->
  Profiles.localStorage w2 !! Profiles.storageKey A
  = Profiles.localStorage w1 !! Profiles.storageKey A ->
  result (Profiles.saveToStorage E A S) w = Ok tt
  /\ exists S',
       result (Profiles.loadFromStorage E A) w1 = Ok (Some S')
       /\ result (Profiles.loadFromStorage E A) w2 = Ok (Some S')
       /\ S' = Storable.prune S
       /\ Storable.field_equal S S'
       /\ lookup_prop S' "updatedAt" = VStr updatedAt
       /\ lookup_prop S' "currentProfileId" = of_nullable current
       /\ (exists ps',
             lookup_prop S' "profiles" = VArr ps'
             /\ Forall2
                  (fun p p' =>
                     forall k,
                       Storable.field_equal (lookup_prop p k) (lookup_prop p' k))
                  ps ps')
       /\ (forallb JSONValues.clean ps = true -> S' = S).
Proof.
  intros S w1 Hlaw Hps Hq Hsame.
  assert (Hc : Storable.selection_like (of_nullable current) = true)
    by (destruct current; reflexivity).
  destruct (save_then_load_pruned E Hlaw A ps (of_nullable current) updatedAt
              w w2 Hps Hc Hq Hsame) as (Hs & H1 & H2).
  split; [exact Hs|]. exists (Storable.prune S).
  split; [exact H1|]. split; [exact H2|]. split; [reflexivity|].
  split; [apply field_equal_prune|].
  split; [rewrite prune_lookup; reflexivity|].
  split; [rewrite prune_lookup; subst S; rewrite snapshot_selection;
          apply prune_selection, Hc|].
  split.
  - exists (map Storable.prune ps). split.
    + rewrite prune_lookup. reflexivity.
    + apply Forall2_fmap_r, Forall_Forall2_diag, Forall_forall.
      intros p _ k. rewrite prune_lookup. apply field_equal_prune.
  - intros Hclean. apply prune_clean.
    apply (clean_snapshot ps current updatedAt Hclean).
Qed.

Lemma save_load_roundtrip_witness :
  Storable.absent
    (lookup_prop
       (default VNull
          (head (Profiles.profiles (Profiles.store ModalScenario.created))))
       "phoneNumber") = true
  /\ exists S',
       result (Profiles.loadFromStorage (Ref.env Ref.ticking) "acct-1")
         (after (Profiles.saveToStorage (Ref.env Ref.ticking) "acct-1"
                   (Profiles.PersistedProfiles
                      (Profiles.profiles (Profiles.store ModalScenario.created))
                      (of_nullable (Some "loyw3v28-4fzyo8"))
                      "2024-02-29T12:34:57.001Z")) Ref.fresh)
       = Ok (Some S')
       /\ Storable.field_equal
            (Profiles.PersistedProfiles
               (Profiles.profiles (Profiles.store ModalScenario.created))
               (of_nullable (Some "loyw3v28-4fzyo8"))
               "2024-02-29T12:34:57.001Z") S'.
Proof.
  split; [vm_compute; reflexivity|].
  destruct (save_load_roundtrip (Ref.env Ref.ticking) "acct-1"
              (Profiles.profiles (Profiles.store ModalScenario.created))
              (Some "loyw3v28-4fzyo8") "2024-02-29T12:34:57.001Z" Ref.fresh
              (after (Profiles.saveToStorage (Ref.env Ref.ticking) "acct-1"
                        (Profiles.PersistedProfiles
                           (Profiles.profiles
                              (Profiles.store ModalScenario.created))
                           (of_nullable (Some "loyw3v28-4fzyo8"))
                           "2024-02-29T12:34:57.001Z")) Ref.fresh))
    as (_ & S' & H1 & _ & _ & Hf & _).
  - apply reference_lawful.
  - vm_compute. reflexivity.
  - reflexivity.
  - reflexivity.
  - exists S'. split; assumption.
Defined.

(** X2. What a mutation writes, the next session reads.  Let the
    platform's JSON codec be a JSON codec (what it reads back of a value
    it wrote is that value without its undefined properties) and let the
    storage accept every write.  After [addProfile], [updateProfile] or
    [removeProfile] called with account [A], or [setCurrentProfile] while
    [A] is loaded, if the call returned and the store then holds profiles
    built from null, booleans, strings, arrays and objects whose
    properties may be undefined, and a selection that is a string, null
    or undefined, then [reset] followed by [ensureLoaded(A)] brings back
    the same selection and the same profiles field for field: as many
    profiles, in their order, each without its undefined properties, so
    the very same profiles when none holds an undefined property. *)
Theorem reset_then_ensureLoaded_restores (E : Profiles.Env) (A : string)
    (a : Lineage.Action) (w : Profiles.World) :
  Storable.lawful E ->
  (forall ls k v, Profiles.quota_ok E ls k v = true) ->
  StoreFacts.writes_for A w a = true ->
  result (Lineage.perform E a) w = Ok tt ->
  let w1 := after (Lineage.perform E a) w in
  let st := Profiles.store
              (after (Profiles.ensureLoaded E A) (after Profiles.reset w1)) in
  forallb Storable.storable (Profiles.profiles (Profiles.store w1)) = true ->
  Storable.selection_like (Profiles.currentProfileId (Profiles.store w1))
  = true ->
  st = {| Profiles.profiles :=
            map Storable.prune (Profiles.profiles (Profiles.store w1));
          Profiles.currentProfileId :=
            Profiles.currentProfileId (Profiles.store w1);
          Profiles.loadedForUserId := Some A |}
  /\ Forall2 Storable.field_equal
       (Profiles.profiles (Profiles.store w1)) (Profiles.profiles st)
  /\ (forallb JSONValues.clean (Profiles.profiles (Profiles.store w1)) = true ->
      Profiles.profiles st = Profiles.profiles (Profiles.store w1)).
Proof.
  intros Hlaw Hq Hw Hr w1 st Hps Hc.
  assert (Hst : st = {| Profiles.profiles :=
                          map Storable.prune
                            (Profiles.profiles (Profiles.store w1));
                        Profiles.currentProfileId :=
                          Profiles.currentProfileId (Profiles.store w1);
                        Profiles.loadedForUserId := Some A |}).
  { subst st. apply (stored_restores E Hlaw A w1); try assumption.
    - apply perform_synced; assumption.
    - reflexivity.
    - discriminate. }
  split; [exact Hst|]. rewrite Hst. cbn [Profiles.profiles].
  apply restored_fields.
Qed.

Lemma reset_then_ensureLoaded_restores_witness :
  Forall2 Storable.field_equal
    (Profiles.profiles (Profiles.store ModalScenario.created))
    (Profiles.profiles
       (Profiles.store
          (after (Profiles.ensureLoaded (Ref.env Ref.ticking) "acct-1")
             (after Profiles.reset ModalScenario.created))))
  /\ Profiles.currentProfileId
       (Profiles.store
          (after (Profiles.ensureLoaded (Ref.env Ref.ticking) "acct-1")
             (after Profiles.reset ModalScenario.created)))
     = VStr "loyw3v28-4fzyo8".
Proof.
  destruct (reset_then_ensureLoaded_restores (Ref.env Ref.ticking) "acct-1"
              ModalScenario.create Ref.fresh) as (Hst & Hf & _).
  - apply reference_lawful.
  - reflexivity.
  - reflexivity.
  - reflexivity.
  - vm_compute. reflexivity.
  - vm_compute. reflexivity.
  - split; [exact Hf|].
    change (after (Lineage.perform (Ref.env Ref.ticking) ModalScenario.create)
              Ref.fresh) with ModalScenario.created in Hst.
    rewrite Hst. reflexivity.
Defined.

(** X22. The profiles of an account survive whatever is done for other
    accounts.  Let the platform's JSON codec be a JSON codec and the
    storage accept every write.  After a mutation for account [A] that
    returned and left a store holding profiles built from null, booleans,
    strings, arrays and objects whose properties may be undefined, with
    a selection that is a string, null or undefined, let any calls follow
    of which none is for [A] ([ensureLoaded], [addProfile],
    [updateProfile], [removeProfile] with another account,
    [setCurrentProfile] while another account or none is loaded,
    [reset]); if [A] is then not the account loaded, [ensureLoaded(A)]
    brings back the selection and the profiles as they were after that
    mutation, field for field: each profile without its undefined
    properties. *)
Theorem other_accounts_leave_snapshot (E : Profiles.Env) (A : string)
    (a : Lineage.Action) (acts : list Lineage.Action) (w : Profiles.World) :
  Storable.lawful E ->
  (forall ls k v, Profiles.quota_ok E ls k v = true) ->
  StoreFacts.writes_for A w a = true ->
  result (Lineage.perform E a) w = Ok tt ->
  let w1 := after (Lineage.perform E a) w in
  let w2 := Lineage.performAll E acts w1 in
  let st := Profiles.store (after (Profiles.ensureLoaded E A) w2) in
  forallb Storable.storable (Profiles.profiles (Profiles.store w1)) = true ->
  Storable.selection_like (Profiles.currentProfileId (Profiles.store w1))
  = true ->
  Others.avoids E A acts w1 = true ->
  Profiles.loadedForUserId (Profiles.store w2) <> Some A ->
  st = {| Profiles.profiles :=
            map Storable.prune (Profiles.profiles (Profiles.store w1));
          Profiles.currentProfileId :=
            Profiles.currentProfileId (Profiles.store w1);
          Profiles.loadedForUserId := Some A |}
  /\ Forall2 Storable.field_equal
       (Profiles.profiles (Profiles.store w1)) (Profiles.profiles st)
  /\ (forallb JSONValues.clean (Profiles.profiles (Profiles.store w1)) = true ->
      Profiles.profiles st = Profiles.profiles (Profiles.store w1)).
Proof.
  intros Hlaw Hq Hw Hr w1 w2 st Hps Hc Hav Hl.
  assert (Hst : st = {| Profiles.profiles :=
                          map Storable.prune
                            (Profiles.profiles (Profiles.store w1));
                        Profiles.currentProfileId :=
                          Profiles.currentProfileId (Profiles.store w1);
                        Profiles.loadedForUserId := Some A |}).
  { subst st. apply (stored_restores E Hlaw A w1); try assumption.
    - apply perform_synced; assumption.
    - apply avoided_item, Hav. }
  split; [exact Hst|]. rewrite Hst. cbn [Profiles.profiles].
  apply restored_fields.
Qed.

Lemma other_accounts_leave_snapshot_witness :
  Forall2 Storable.field_equal
    (Profiles.profiles (Profiles.store ModalScenario.created))
    (Profiles.profiles
       (Profiles.store
          (after (Profiles.ensureLoaded (Ref.env Ref.ticking) "acct-1")
             (Lineage.performAll (Ref.env Ref.ticking)
                [Lineage.Add "acct-2" Rebinding.edsger;
                 Lineage.Select (Some "nobody");
                 Lineage.Remove "acct-2" "loyw3v28-4fzyo8"]
                ModalScenario.created)))).
Proof.
  destruct (other_accounts_leave_snapshot (Ref.env Ref.ticking) "acct-1"
              ModalScenario.create
              [Lineage.Add "acct-2" Rebinding.edsger;
               Lineage.Select (Some "nobody");
               Lineage.Remove "acct-2" "loyw3v28-4fzyo8"]
              Ref.fresh) as (_ & Hf & _).
  - apply reference_lawful.
  - reflexivity.
  - reflexivity.
  - reflexivity.
  - vm_compute. reflexivity.
  - vm_compute. reflexivity.
  - vm_compute. reflexivity.
  - vm_compute. discriminate.
  - exact Hf.
Defined.

(** * Calls of the authentication store that overlap *)

Section Overlap.

Import Auth AuthRuns AccountUpdate AuthActions Async.

Lemma advance_safe t :
  forall st,
    session_coherent st = true -> safe t ->
    session_coherent (advance t st).1 = true /\ safe (advance t st).2.
Proof.
  induction t as [r|A r k IH|k IH|k IH|f k IH]; intros st Hst Ht;
    cbn [advance fst snd].
  - split; assumption.
  - split; assumption.
  - split; assumption.
  - apply IH; [exact Hst|apply Ht].
  - destruct Ht as [Hf Hk]. apply IH; [apply Hf, Hst|exact Hk].
Qed.

Lemma findAccountRow_safe user k :
  (forall row, safe (k row)) -> safe (Async.findAccountRow user k).
Proof.
  intros Hk. unfold Async.findAccountRow.
  destruct user as [u|]; [|apply Hk].
  cbn [safe]. intros [r1|e1]; [|apply Hk].
  destruct (hit r1); [apply Hk|].
  cbn [safe]. intros [r2|e2]; [|apply Hk].
  destruct (hit r2); [apply Hk|].
  destruct (user_email u) as [e|]; [|apply Hk].
  destruct (bool_decide (e = "")); [apply Hk|].
  cbn [safe]. intros [r3|e3]; [|apply Hk].
  destruct (hit r3); apply Hk.
Qed.

Lemma task_of_safe a : safe (task_of a).
Proof.
  destruct a as [|email password| |changes]; cbn [task_of].
  - unfold Async.checkSession. cbn [safe]. intros [[s|]|e].
    + apply findAccountRow_safe. intros row. cbn [safe].
      split; [|exact I]. intros st _. reflexivity.
    + cbn [safe]. split; [|exact I]. intros st _. reflexivity.
    + exact I.
  - unfold Async.login. cbn [safe]. intros [r|e]; [|exact I].
    destruct (r_error r); [exact I|].
    destruct (r_session r) as [s|].
    + apply findAccountRow_safe. intros row. cbn [safe].
      split; [|exact I]. intros st _. unfold session_coherent.
      cbn [session user isAuthenticated is_some].
      destruct (r_user r); reflexivity.
    + cbn [safe]. split; [|exact I]. intros st _. reflexivity.
  - unfold Async.logout. cbn [safe]. intros [x|e]; [|exact I].
    cbn [safe]. split; [|exact I]. intros st _. reflexivity.
  - unfold Async.updateAccount. cbn [safe]. intros st.
    destruct (user st); [|exact I]. destruct (account st); [|exact I].
    cbn [safe]. intros [r|e]; [|exact I].
    destruct (u_error r); [exact I|].
    destruct (nullish (u_data r)); [exact I|].
    cbn [safe]. split; [|exact I]. intros st' Hst'. exact Hst'.
Qed.

Lemma step_safe s s' :
  step s s' ->
  session_coherent (state s) = true /\ Forall safe (calls s) ->
  session_coherent (state s') = true /\ Forall safe (calls s').
Proof.
  intros Hstep [Hst Hcalls].
  destruct Hstep as [a s|i A r k answer s Hi|i k s Hi]; cbn [state calls].
  - destruct (advance_safe (task_of a) (state s) Hst (task_of_safe a))
      as [H1 H2].
    split; [exact H1|]. apply Forall_app. split; [exact Hcalls|].
    constructor; [exact H2|constructor].
  - pose proof (proj1 (Forall_lookup _ _) Hcalls i _ Hi) as Hsafe.
    cbn [safe] in Hsafe.
    destruct (advance_safe (k answer) (state s) Hst (Hsafe answer))
      as [H1 H2].
    unfold resumed. cbn [state calls]. split; [exact H1|].
    apply Forall_insert; assumption.
  - pose proof (proj1 (Forall_lookup _ _) Hcalls i _ Hi) as Hsafe.
    cbn [safe] in Hsafe.
    destruct (advance_safe k (state s) Hst Hsafe) as [H1 H2].
    unfold resumed. cbn [state calls]. split; [exact H1|].
    apply Forall_insert; assumption.
Qed.

Lemma steps_safe s s' :
  rtc step s s' ->
  session_coherent (state s) = true /\ Forall safe (calls s) ->
  session_coherent (state s') = true /\ Forall safe (calls s').
Proof.
  induction 1 as [s|s s1 s' Hstep _ IH]; [tauto|].
  intros Hs. apply IH, (step_safe s s1 Hstep Hs).
Qed.

(** A call that runs alone does what the action does. *)
Lemma run_findAccountRow P U user k (w : World) :
  run P U (Async.findAccountRow user k) w
  = run P U (k (match result (Auth.findAccountRow P user) (base w) with
                | Ok row => row
                | Throw _ => VNull
                end))
      (on_base (after (Auth.findAccountRow P user)) w).
Proof.
  unfold Async.findAccountRow, result, after, on_base, Auth.findAccountRow,
    try_catch, bind.
  destruct user as [u|]; [|destruct w as [[]]; reflexivity].
  cbn [run answer logged]. rewrite !select_run.
  unfold on_base. cbn [base updates called history auth].
  destruct (select_eq P (history (base w)) "id" (user_id u)) as [r1|e1];
    [|reflexivity].
  destruct (hit r1); [reflexivity|].
  cbn [run answer logged]. rewrite !select_run.
  unfold on_base. cbn [base updates called history auth].
  destruct (select_eq P _ "user_id" (user_id u)) as [r2|e2]; [|reflexivity].
  destruct (hit r2); [reflexivity|].
  destruct (user_email u) as [e|]; [|reflexivity].
  destruct (bool_decide (e = "")); [reflexivity|].
  cbn [run answer logged]. rewrite !select_run.
  unfold on_base. cbn [base updates called history auth].
  destruct (select_eq P _ "email" e) as [r3|e3]; [|reflexivity].
  destruct (hit r3); reflexivity.
Qed.

Lemma run_task_of P U a (w : World) :
  (run P U (task_of a) w).2 = perform P U a w.
Proof.
  destruct a as [|email password| |changes]; cbn [task_of perform].
  - unfold Async.checkSession, Auth.checkSession, after, bind, await, on_base.
    cbn [run answer logged]. cbv beta. unfold on_base. cbn [base updates].
    destruct (getSession P (history (base w))) as [[s|]|e];
      [|reflexivity|reflexivity].
    rewrite run_findAccountRow. cbn [run].
    destruct (findAccountRow_returns P (Some (session_user s))
                (called CallGetSession (base w))) as (row & w' & Hrow & _).
    unfold result, after, on_base, called in *. cbn [base updates].
    rewrite Hrow. reflexivity.
  - unfold Async.login, Auth.login, after, bind, await, on_base.
    cbn [run answer logged]. cbv beta. unfold on_base. cbn [base updates].
    destruct (signInWithPassword P (history (base w)) email password)
      as [r|e]; [|reflexivity].
    destruct (r_error r); [reflexivity|].
    destruct (r_session r) as [s|]; [|reflexivity].
    rewrite run_findAccountRow. cbn [run].
    destruct (findAccountRow_returns P (r_user r)
                (called (CallSignIn email password) (base w)))
      as (row & w' & Hrow & _).
    unfold result, after, on_base, called in *. cbn [base updates].
    rewrite Hrow. reflexivity.
  - unfold Async.logout, Auth.logout, after, bind, await, on_base.
    cbn [run answer logged]. cbv beta. unfold on_base. cbn [base updates].
    destruct (signOut P (history (base w))); reflexivity.
  - unfold Async.updateAccount, AccountUpdate.updateAccount.
    cbn [run]. destruct (user (auth (base w))); [|reflexivity].
    destruct (account (auth (base w))); [|reflexivity].
    cbn [run answer logged].
    destruct (U (history (base w)) (updates w) _) as [r|e]; [|reflexivity].
    destruct (u_error r); [reflexivity|].
    destruct (nullish (u_data r)); reflexivity.
Qed.

Lemma sequence_coherent P U acts (w : World) :
  coherent (auth (base w)) = true ->
  coherent (auth (base (sequence P U acts w))) = true.
Proof.
  revert w. induction acts as [|a acts IH]; intros w Hc; [exact Hc|].
  cbn [sequence]. apply IH. rewrite run_task_of.
  apply perform_coherent, Hc.
Qed.

End Overlap.

Section OverlapHazard.

Import Auth AccountUpdate AuthActions Async.

(** [updateAccount] is called, then [logout]; the sign-out settles first,
    the update second: the account is set on the cleared state. *)
Lemma update_lands_after_logout st u a (changes : gmap string jsval) row :
  user st = Some u -> account st = Some a -> nullish row = false ->
  rtc step {| state := st; calls := [] |}
    {| state := set_account (mapRowToAccount row) cleared;
       calls :=
         [Finished (ReturnedAccount (mapRowToAccount row));
          Finished Returned] |}.
Proof.
  intros Hu Ha Hrow.
  eapply rtc_l; [apply (step_call (UpdateAccount changes))|].
  cbn [task_of state calls app]. unfold Async.updateAccount.
  cbn [advance]. rewrite Hu, Ha. cbn [advance fst snd].
  eapply rtc_l; [apply (step_call Logout)|].
  cbn [task_of state calls app]. unfold Async.logout. cbn [advance fst snd].
  eapply rtc_l.
  { eapply (step_settle 1 _ SignOut _ (Resolved None)). reflexivity. }
  unfold resumed. cbn [state calls advance fst snd list_insert].
  eapply rtc_l.
  { eapply (step_settle 0 _ (Update _) _
             (Resolved {| u_data := row; u_error := None |})).
    reflexivity. }
  unfold resumed. cbn [state calls u_error u_data]. rewrite Hrow.
  cbn [advance fst snd list_insert]. apply rtc_refl.
Qed.

End OverlapHazard.

(** X10. The authentication state under calls of [checkSession], [login],
    [logout] and [updateAccount] that may overlap.  Each call runs up to
    its next [await], and other calls may start, go on and set the state
    before it goes on.  (1) Whatever the order in which the calls are made
    and the provider settles their promises, and whatever it answers,
    [isAuthenticated] is true exactly when a session is held, and a user
    is held only together with a session.  (2) When the calls are made one
    after the other, each awaited before the next is made, an account is
    moreover held only together with a session.  (3) That does not hold
    for calls that overlap: when [updateAccount] is called with a user and
    an account loaded, [logout] is called before the update is answered,
    and the sign-out settles before the update does, the store ends with
    the updated account and no session, user or authentication. *)
Theorem auth_state_stays_coherent :
  (forall st s',
     Async.session_coherent st = true ->
     rtc Async.step {| Async.state := st; Async.calls := [] |} s' ->
     Async.session_coherent (Async.state s') = true)
  /\ (forall (P : Auth.Provider) (U : AccountUpdate.Updater)
        (acts : list AuthActions.Action) (w : AccountUpdate.World),
        AuthActions.coherent (Auth.auth (AccountUpdate.base w)) = true ->
        AuthActions.coherent
          (Auth.auth (AccountUpdate.base (Async.sequence P U acts w)))
        = true)
  /\ (forall st u a (changes : gmap string jsval) row,
        Auth.user st = Some u -> Auth.account st = Some a ->
        nullish row = false ->
        exists s',
          rtc Async.step {| Async.state := st; Async.calls := [] |} s'
          /\ Async.state s'
             = {| Auth.session := None;
                  Auth.user := None;
                  Auth.account := Some (Auth.mapRowToAccount row);
                  Auth.isAuthenticated := false |}
          /\ AuthActions.coherent (Async.state s') = false).
Proof.
  split; [|split].
  - intros st s' Hst Hsteps.
    apply (steps_safe _ _ Hsteps). split; [exact Hst|constructor].
  - intros P U acts w. apply sequence_coherent.
  - intros st u a changes row Hu Ha Hrow. eexists. split; [|split].
    + apply (update_lands_after_logout st u a changes row Hu Ha Hrow).
    + reflexivity.
    + reflexivity.
Qed.

Lemma auth_state_stays_coherent_witness :
  AuthActions.coherent
    (Auth.auth
       (AccountUpdate.base
          (Async.sequence RefLinked.provider
             (fun _ _ _ => Auth.Rejected (ProviderError "offline"))
             [AuthActions.CheckSession;
              AuthActions.UpdateAccount {[ "city" := VStr "London" ]};
              AuthActions.Login "ada@example.org" "secret";
              AuthActions.Logout]
             AuthActions.initial)))
  = true
  /\ exists s',
       rtc Async.step
         {| Async.state := Auth.auth RefLinked.signed_in;
            Async.calls := [] |} s'
       /\ Auth.session (Async.state s') = None
       /\ Auth.account (Async.state s')
          = Some (Auth.mapRowToAccount RefLinked.ada_row)
       /\ Async.session_coherent (Async.state s') = true.
Proof.
  split.
  - apply (proj1 (proj2 auth_state_stays_coherent) RefLinked.provider
             (fun _ _ _ => Auth.Rejected (ProviderError "offline"))).
    reflexivity.
  - destruct (proj2 (proj2 auth_state_stays_coherent)
                (Auth.auth RefLinked.signed_in) RefAuth.ada_user
                (Auth.mapRowToAccount RefLinked.ada_row)
                {[ "city" := VStr "London" ]} RefLinked.ada_row
                eq_refl eq_refl eq_refl)
      as (s' & Hsteps & Hstate & _).
    exists s'. split; [exact Hsteps|].
    split; [rewrite Hstate; reflexivity|].
    split; [rewrite Hstate; reflexivity|].
    apply (proj1 auth_state_stays_coherent
             (Auth.auth RefLinked.signed_in) s' eq_refl Hsteps).
Defined.
